(** * Band data processing of Ideogram.js (src/js/bands/bands.js)

    A shallow embedding of [setTaxids], [getBandsArray],
    [setChrsByTaxidsWithBands], [setChromosomesByTaxid] and
    [processBandData], and the properties of chromosome assembly and of
    the running length maxima that the design description states.

    The JavaScript functions mutate one shared [ideo] object; here they are
    state-passing functions on a record [Ideo].  A JavaScript [TypeError]
    (reading a property of [undefined], calling [.slice] on something that
    has none) is the result [None]. *)

From Stdlib Require Import ZArith Lia Sorted Permutation Ascii String.
From stdpp Require Import base option list gmap strings numbers.

(** ** Data model *)

(** A taxon identifier as it occurs in [ideo.config.taxids]: an NCBI
    numeric identifier, or JavaScript's [undefined] (what [taxids[0]] is
    for an empty list).  Used as a property key it is its decimal string,
    so distinct identifiers are distinct keys, and none is the key ["bp"]
    or ["iscn"]. *)
Inductive Taxid := TUndefined | Taxon (n : N).

#[global] Instance Taxid_eq_dec : EqDecision Taxid.
Proof. solve_decision. Defined.

#[global] Instance Taxid_countable : Countable Taxid.
Proof.
  refine (inj_countable'
            (fun t => match t with TUndefined => None | Taxon n => Some n end)
            (fun o => match o with None => TUndefined | Some n => Taxon n end) _).
  by intros [].
Defined.

(** [{start, stop}] of a band in one coordinate system. *)
Record Range := { start : Z; stop : Z }.

(** A cytogenetic band: only [iscn] and [bp] are read in this file. *)
Module Band.
Record t := { name : string; iscn : Range; bp : Range }.
End Band.

(** [{bp, iscn}]: a chromosome length, or a pair of maxima. *)
Module Len.
Record t := { bp : Z; iscn : Z }.
End Len.

(** [ideo.maxLength]: the properties [bp] and [iscn] are the global maxima,
    every other property is keyed by a taxid and holds that taxon's
    [{bp, iscn}]. *)
Record MaxLength := { max_bp : Z; max_iscn : Z; byTaxid : gmap Taxid Len.t }.

(** [ideo.maxLength] before any chromosome was processed: [{bp: 0, iscn: 0}]. *)
Definition freshMaxLength : MaxLength :=
  {| max_bp := 0; max_iscn := 0; byTaxid := ∅ |}.

(** The result of [parseBands]: a JavaScript object from chromosome name to
    band list, kept in the order in which [Object.keys] enumerates it. *)
Definition BandsByChr := list (string * list Band.t).

(** What an entry of a chromosome collection can be: a hole of an Array
    ([undefined] when read), a chromosome name, a chromosome object
    [{name, length}], or the list kept under a taxid. *)
#[warnings="-register-all"]
Inductive Elem :=
| EUndefined
| EName (s : string)
| EChr (name : string) (len : Z)
| EList (l : list Elem).

(** [v.length]: a [TypeError] on [undefined], the number of characters of
    a string, the [length] property of a chromosome object, the number of
    elements of an Array. *)
Definition lengthOf (v : Elem) : option Z :=
  match v with
  | EUndefined => None
  | EName s => Some (Z.of_nat (String.length s))
  | EChr _ len => Some len
  | EList l => Some (Z.of_nat (length l))
  end.

(** A chromosome collection ([config.chromosomes], or a copy of it): a
    JavaScript object or Array.  Its properties are keyed by a taxid; the
    elements of an Array are the properties at the keys [Taxon 0],
    [Taxon 1], ... below [arrayLength]. *)
Record Obj := { isArray : bool; arrayLength : N; props : gmap Taxid Elem }.

(** The key is an array index: a number below 2^32 - 1. *)
Definition arrayIndex (k : Taxid) : option N :=
  match k with
  | Taxon n => if (n <? 4294967295)%N then Some n else None
  | TUndefined => None
  end.

(** [o[k]] *)
Definition getProp (o : Obj) (k : Taxid) : Elem :=
  default EUndefined (props o !! k).

(** [o[k] = v]; writing an Array at an index at or beyond its length
    extends the Array. *)
Definition setProp (o : Obj) (k : Taxid) (v : Elem) : Obj :=
  {| isArray := isArray o;
     arrayLength :=
       match arrayIndex k with
       | Some n =>
           if isArray o && (arrayLength o <=? n)%N then (n + 1)%N
           else arrayLength o
       | None => arrayLength o
       end;
     props := <[k := v]> (props o) |}.

(** The elements of an Array, in index order. *)
Definition elements (o : Obj) : list Elem :=
  map (fun i => getProp o (Taxon (N.of_nat i)))
      (seq 0 (N.to_nat (arrayLength o))).

Fixpoint indexed (i : N) (l : list Elem) : gmap Taxid Elem :=
  match l with
  | [] => ∅
  | v :: l' => <[Taxon i := v]> (indexed (N.succ i) l')
  end.

(** The Array [[v0, v1, ...]]. *)
Definition arrayOf (l : list Elem) : Obj :=
  {| isArray := true; arrayLength := N.of_nat (length l);
     props := indexed 0 l |}.

(** The object [{}]. *)
Definition emptyObject : Obj :=
  {| isArray := false; arrayLength := 0; props := ∅ |}.

(** References: [config.chromosomes] and the local variable [chrs] hold
    [undefined], [null] or a reference into the object store. *)
Definition loc := nat.

Inductive value := VUndefined | VNull | VRef (l : loc).

(** What a callee reading [chrs] sees. *)
Inductive Seen := SeenUndefined | SeenNull | SeenObj (o : Obj).

Definition deref (sigma : list Obj) (v : value) : option Seen :=
  match v with
  | VUndefined => Some SeenUndefined
  | VNull => Some SeenNull
  | VRef l => SeenObj <$> sigma !! l
  end.

(** [v.slice()], [v.length] and [v[k]] as the elements of the Array [v];
    a [TypeError] when [v] is [undefined], [null] or not an Array. *)
Definition arrayElements (sigma : list Obj) (v : value) : option (list Elem) :=
  match v with
  | VRef l =>
      o ← sigma !! l;
      if isArray o then Some (elements o) else None
  | _ => None
  end.

(** [ideo.config]; [chromosomes] is [None] when the configuration has no
    such key (['chromosomes' in config] is false). *)
Module Config.
Record t := {
  multiorganism : bool;
  taxid : Taxid;
  taxids : list Taxid;
  chromosomes : option value;
  debug : bool
}.
End Config.

(** Raw band records of one taxon (the lines of a cytoband file); only
    [parseBands] reads them. *)
Definition RawBands := list string.

(** The [ideo] object, with the store its references point into. *)
Record Ideo := {
  config : Config.t;
  coordinateSystem : string;
  maxLength : MaxLength;
  numChromosomes : Z;
  bandData : gmap Taxid RawBands;
  store : list Obj
}.

(** *** Assignments to single fields *)

Definition setConfig (c : Config.t) (ideo : Ideo) : Ideo :=
  {| config := c; coordinateSystem := coordinateSystem ideo;
     maxLength := maxLength ideo; numChromosomes := numChromosomes ideo;
     bandData := bandData ideo; store := store ideo |}.

Definition setCoordinateSystem (s : string) (ideo : Ideo) : Ideo :=
  {| config := config ideo; coordinateSystem := s;
     maxLength := maxLength ideo; numChromosomes := numChromosomes ideo;
     bandData := bandData ideo; store := store ideo |}.

Definition setMaxLength (m : MaxLength) (ideo : Ideo) : Ideo :=
  {| config := config ideo; coordinateSystem := coordinateSystem ideo;
     maxLength := m; numChromosomes := numChromosomes ideo;
     bandData := bandData ideo; store := store ideo |}.

Definition setNumChromosomes (n : Z) (ideo : Ideo) : Ideo :=
  {| config := config ideo; coordinateSystem := coordinateSystem ideo;
     maxLength := maxLength ideo; numChromosomes := n;
     bandData := bandData ideo; store := store ideo |}.

Definition setStore (sigma : list Obj) (ideo : Ideo) : Ideo :=
  {| config := config ideo; coordinateSystem := coordinateSystem ideo;
     maxLength := maxLength ideo; numChromosomes := numChromosomes ideo;
     bandData := bandData ideo; store := sigma |}.

Definition setConfigTaxid (t : Taxid) (c : Config.t) : Config.t :=
  {| Config.multiorganism := Config.multiorganism c; Config.taxid := t;
     Config.taxids := Config.taxids c;
     Config.chromosomes := Config.chromosomes c;
     Config.debug := Config.debug c |}.

Definition setConfigTaxids (ts : list Taxid) (c : Config.t) : Config.t :=
  {| Config.multiorganism := Config.multiorganism c;
     Config.taxid := Config.taxid c; Config.taxids := ts;
     Config.chromosomes := Config.chromosomes c;
     Config.debug := Config.debug c |}.

Definition setConfigChromosomes (v : option value) (c : Config.t) : Config.t :=
  {| Config.multiorganism := Config.multiorganism c;
     Config.taxid := Config.taxid c; Config.taxids := Config.taxids c;
     Config.chromosomes := v; Config.debug := Config.debug c |}.

(** [ideo.maxLength.bp = x], [ideo.maxLength.iscn = x] *)
Definition setMaxBp (x : Z) (m : MaxLength) : MaxLength :=
  {| max_bp := x; max_iscn := max_iscn m; byTaxid := byTaxid m |}.

Definition setMaxIscn (x : Z) (m : MaxLength) : MaxLength :=
  {| max_bp := max_bp m; max_iscn := x; byTaxid := byTaxid m |}.

(** [ideo.maxLength[taxid]] once the entry exists *)
Definition taxonMax (m : MaxLength) (t : Taxid) : Len.t :=
  default {| Len.bp := 0; Len.iscn := 0 |} (byTaxid m !! t).

(** [ideo.maxLength[taxid] = e] *)
Definition setTaxonMax (t : Taxid) (e : Len.t) (m : MaxLength) : MaxLength :=
  {| max_bp := max_bp m; max_iscn := max_iscn m;
     byTaxid := <[t := e]> (byTaxid m) |}.

(** [ideo.maxLength[taxid].bp = x], [ideo.maxLength[taxid].iscn = x] *)
Definition setTaxonBp (t : Taxid) (x : Z) (m : MaxLength) : MaxLength :=
  setTaxonMax t {| Len.bp := x; Len.iscn := Len.iscn (taxonMax m t) |} m.

Definition setTaxonIscn (t : Taxid) (x : Z) (m : MaxLength) : MaxLength :=
  setTaxonMax t {| Len.bp := Len.bp (taxonMax m t); Len.iscn := x |} m.

(** A new object in the store. *)
Definition alloc (o : Obj) (ideo : Ideo) : value * Ideo :=
  (VRef (length (store ideo)), setStore (store ideo ++ [o]) ideo).

(** [ideo.config.chromosomes[taxid] = v]: a [TypeError] when
    [config.chromosomes] is missing, [undefined] or [null]. *)
Definition writeChromosomes (t : Taxid) (v : Elem) (ideo : Ideo) : option Ideo :=
  match Config.chromosomes (config ideo) with
  | Some (VRef l) =>
      o ← store ideo !! l;
      Some (setStore (<[l := setProp o t v]> (store ideo)) ideo)
  | _ => None
  end.

(** [ideo.config.chromosomes[taxid]] *)
Definition readChromosomes (t : Taxid) (ideo : Ideo) : option Elem :=
  match Config.chromosomes (config ideo) with
  | Some (VRef l) => o ← store ideo !! l; Some (getProp o t)
  | _ => None
  end.

(** [bandsByChr[chromosome]] *)
Fixpoint lookupChr (chromosome : string) (bandsByChr : BandsByChr)
  : option (list Band.t) :=
  match bandsByChr with
  | [] => None
  | (c, bands) :: rest =>
      if String.eqb c chromosome then Some bands
      else lookupChr chromosome rest
  end.

(** [Object.keys(bandsByChr)] *)
Definition keys (bandsByChr : BandsByChr) : list string := map fst bandsByChr.

(** [Array.prototype.sort] with a comparison function: a stable sort that
    puts [a] before [b] when [cmp a b <= 0]. *)
Section Sort.
Context {A : Type} (cmp : A -> A -> Z).

Fixpoint insertBy (x : A) (l : list A) : list A :=
  match l with
  | [] => [x]
  | y :: l' => if (cmp x y <=? 0)%Z then x :: l else y :: insertBy x l'
  end.

Definition sort (l : list A) : list A := foldr insertBy [] l.

End Sort.

(** ** The natural order of chromosome names *)

(** A comparison, lifted to lists: the first difference decides, and a
    proper prefix comes first. *)
Fixpoint lexCompare {A : Type} (cmp : A -> A -> comparison) (l1 l2 : list A)
  : comparison :=
  match l1, l2 with
  | [], [] => Eq
  | [], _ :: _ => Lt
  | _ :: _, [] => Gt
  | x :: l1', y :: l2' =>
      match cmp x y with
      | Eq => lexCompare cmp l1' l2'
      | c => c
      end
  end.

Definition isDigit (c : ascii) : bool :=
  (48 <=? nat_of_ascii c)%nat && (nat_of_ascii c <=? 57)%nat.

(** The maximal runs of digits and of other characters of a string. *)
Fixpoint chunks (s : string) : list (bool * list ascii) :=
  match s with
  | EmptyString => []
  | String c s' =>
      match chunks s' with
      | (d, cs) :: rest =>
          if Bool.eqb (isDigit c) d then (d, c :: cs) :: rest
          else (isDigit c, [c]) :: (d, cs) :: rest
      | [] => [(isDigit c, [c])]
      end
  end.

(** The number that a run of digits writes. *)
Definition digitsValue (cs : list ascii) : N :=
  fold_left (fun acc c => (10 * acc + (N_of_ascii c - 48))%N) cs 0%N.

(** A run of digits counts as its number, any other run as its character
    codes. *)
Inductive Token := TNumber (n : N) | TText (codes : list N).

Definition tokenOf (chunk : bool * list ascii) : Token :=
  if chunk.1 then TNumber (digitsValue chunk.2)
  else TText (map N_of_ascii chunk.2).

Definition tokens (s : string) : list Token := map tokenOf (chunks s).

(** Numbers by value, texts by character codes, a number before a text. *)
Definition compareToken (a b : Token) : comparison :=
  match a, b with
  | TNumber m, TNumber n => (m ?= n)%N
  | TNumber _, TText _ => Lt
  | TText _, TNumber _ => Gt
  | TText u, TText v => lexCompare N.compare u v
  end.

(** Modelled from the spec: [naturalSort], the comparison function of the
    package es6-natural-sort that bands.js imports, is not among the
    sources.  The glossary describes it as the "string ordering that treats
    embedded numbers numerically (e.g., "chr2" before "chr10")": the two
    strings are cut into runs of digits and runs of other characters and
    compared run by run.  The result is negative, zero or positive. *)
Definition naturalOrder (a b : string) : Z :=
  match lexCompare compareToken (tokens a) (tokens b) with
  | Lt => (-1)%Z
  | Eq => 0%Z
  | Gt => 1%Z
  end.

(** [a] comes before [b], or ties with it, for the comparison function. *)
Definition before {A : Type} (cmp : A -> A -> Z) (a b : A) : Prop :=
  (cmp a b <= 0)%Z.

(** A comparison function that [Array.prototype.sort] can rely on: any
    two elements are ordered one way or the other, and the order is
    transitive. *)
Definition Consistent {A : Type} (cmp : A -> A -> Z) : Prop :=
  (∀ a b, before cmp a b ∨ before cmp b a)
  ∧ (∀ a b c, before cmp a b -> before cmp b c -> before cmp a c).

(** A three-way comparison that is a total order. *)
Record TotalOrder {A : Type} (cmp : A -> A -> comparison) : Prop := {
  cmp_sym : ∀ x y, cmp y x = CompOpp (cmp x y);
  cmp_eq : ∀ x y, cmp x y = Eq -> x = y;
  cmp_trans : ∀ x y z, cmp x y = Lt -> cmp y z = Lt -> cmp x z = Lt
}.

(** ** Sample inputs *)

Definition band (iscnStop bpStop : Z) : Band.t :=
  {| Band.name := "q";
     Band.iscn := {| start := 0; stop := iscnStop |};
     Band.bp := {| start := 0; stop := bpStop |} |}.

Definition humanBands : BandsByChr :=
  [("chr10", [band 20 500; band 40 1300]);
   ("chr2", [band 50 2400]);
   ("chr1", [band 60 1200; band 100 2500])].

Definition mouseBands : BandsByChr := [("1", [band 80 1900])].

(** The name of an entry of a chromosome list. *)
Definition names (chrs : list Elem) : list string :=
  flat_map (fun e => match e with
                     | EName s | EChr s _ => [s]
                     | _ => []
                     end) chrs.

(** A band parser for the samples.  It throws when the taxon has no raw
    band data; it keeps the chromosomes that the list [chrs[taxid]]
    names, or all of them when [chrs] holds no list for the taxon. *)
Definition sampleParser (raw : option RawBands) (t : Taxid) (seen : Seen)
  : option BandsByChr :=
  match raw with
  | None => None
  | Some _ =>
      let table :=
        match t with
        | Taxon 9606 => humanBands
        | Taxon 10090 => mouseBands
        | _ => []
        end in
      match seen with
      | SeenObj o =>
          match getProp o t with
          | EList l =>
              Some (filter (fun p => bool_decide (p.1 ∈ names l)) table)
          | _ => Some table
          end
      | _ => Some table
      end
  end.

(** One organism, ISCN coordinates, no chromosomes configured. *)
Definition ideoHuman : Ideo :=
  {| config :=
       {| Config.multiorganism := false; Config.taxid := TUndefined;
          Config.taxids := [Taxon 9606]; Config.chromosomes := None;
          Config.debug := false |};
     coordinateSystem := "iscn";
     maxLength := freshMaxLength;
     numChromosomes := 0;
     bandData := {[ Taxon 9606 := ["#chromosome arm band iscn bp"] ]};
     store := [] |}.

(** Two organisms, with the chromosomes to show configured per taxon. *)
Definition configuredChromosomes : Obj :=
  {| isArray := false; arrayLength := 0;
     props := {[ Taxon 9606 := EList [EName "chr2"; EName "chr1"];
                 Taxon 10090 := EList [EName "1"] ]} |}.

Definition ideoTwo : Ideo :=
  {| config :=
       {| Config.multiorganism := true; Config.taxid := TUndefined;
          Config.taxids := [Taxon 9606; Taxon 10090];
          Config.chromosomes := Some (VRef 0); Config.debug := false |};
     coordinateSystem := "iscn";
     maxLength := freshMaxLength;
     numChromosomes := 0;
     bandData := {[ Taxon 9606 := ["#chromosome arm band iscn bp"];
                    Taxon 10090 := ["#chromosome arm band iscn bp"] ]};
     store := [configuredChromosomes] |}.

(** One organism, base pairs, chromosomes given with their lengths and no
    band data. *)
Definition ideoUnbanded : Ideo :=
  {| config :=
       {| Config.multiorganism := false; Config.taxid := TUndefined;
          Config.taxids := [Taxon 9606];
          Config.chromosomes := Some (VRef 0); Config.debug := false |};
     coordinateSystem := "bp";
     maxLength := freshMaxLength;
     numChromosomes := 0;
     bandData := ∅;
     store := [arrayOf [EChr "1" 1000; EChr "2" 900; EChr "X" 600]] |}.

(** ** The functions of bands.js *)

Section Bands.

(** [parseBands] of ./parse and [naturalSort] of es6-natural-sort are
    imported by bands.js: the band parser reads the raw records of a
    taxon, the taxid and what [chrs] refers to, and returns the mapping
    from chromosome name to band list, or throws. *)
Variable parseBands : option RawBands -> Taxid -> Seen -> option BandsByChr.
Variable naturalSort : string -> string -> Z.

(** Resolves the taxa to show: all of [config.taxids] for several
    organisms, else [config.taxid], which defaults to [config.taxids[0]].
    Returns [[taxid, taxids]]. *)
Definition setTaxids (ideo : Ideo) : (Taxid * list Taxid) * Ideo :=
  if Config.multiorganism (config ideo) then
    let ideo := setCoordinateSystem "bp" ideo in
    let taxids := Config.taxids (config ideo) in
    let taxid := fold_left (fun _ t => t) taxids TUndefined in
    ((taxid, taxids), ideo)
  else
    let ideo :=
      match Config.taxid (config ideo) with
      | TUndefined =>
          setConfig
            (setConfigTaxid
               (default TUndefined (Config.taxids (config ideo) !! 0%nat))
               (config ideo)) ideo
      | _ => ideo
      end in
    let taxid := Config.taxid (config ideo) in
    let taxids := [taxid] in
    let ideo := setConfig (setConfigTaxids taxids (config ideo)) ideo in
    ((taxid, taxids), ideo).

(** Gets the bands array for the given chromosome, sets [ideo.maxLength]. *)
Definition getBandsArray (chromosome : string) (bandsByChr : BandsByChr)
    (taxid : Taxid) (ideo : Ideo) : option (list (list Band.t) * Ideo) :=
  bands ← lookupChr chromosome bandsByChr;
  let bandsArray : list (list Band.t) := [bands] in
  lastBand ← list.last bands;
  let chrLength :=
    {| Len.iscn := stop (Band.iscn lastBand);
       Len.bp := stop (Band.bp lastBand) |} in
  let m := maxLength ideo in
  let m :=
    if decide (is_Some (byTaxid m !! taxid)) then m
    else setTaxonMax taxid {| Len.bp := 0; Len.iscn := 0 |} m in
  let m :=
    if (Len.iscn chrLength >? Len.iscn (taxonMax m taxid))%Z then
      let m := setTaxonIscn taxid (Len.iscn chrLength) m in
      if (Len.iscn chrLength >? max_iscn m)%Z
      then setMaxIscn (Len.iscn chrLength) m else m
    else m in
  let m :=
    if (Len.bp chrLength >? Len.bp (taxonMax m taxid))%Z then
      let m := setTaxonBp taxid (Len.bp chrLength) m in
      if (Len.bp chrLength >? max_bp m)%Z
      then setMaxBp (Len.bp chrLength) m else m
    else m in
  Some (bandsArray, setMaxLength m ideo).

(** The loop [for (k = 0; k < chrs.length; k++)] of
    [setChrsByTaxidsWithBands]. *)
Fixpoint bandsLoop (chrs : list string) (bandsByChr : BandsByChr)
    (taxid : Taxid) (bandsArray : list (list Band.t)) (ideo : Ideo)
  : option (list (list Band.t) * Ideo) :=
  match chrs with
  | [] => Some (bandsArray, ideo)
  | chromosome :: rest =>
      '(chrBandsArray, ideo) ← getBandsArray chromosome bandsByChr taxid ideo;
      bandsLoop rest bandsByChr taxid (bandsArray ++ chrBandsArray) ideo
  end.

(** Updates [bandsArray], sets [ideo.config.chromosomes] and
    [ideo.numChromosomes]. *)
Definition setChrsByTaxidsWithBands (taxid : Taxid) (chrs : value)
    (bandsArray : list (list Band.t)) (ideo : Ideo)
  : option (list (list Band.t) * Ideo) :=
  let bandData := bandData ideo !! taxid in
  seen ← deref (store ideo) chrs;
  bandsByChr ← parseBands bandData taxid seen;
  let chrs := sort naturalSort (keys bandsByChr) in
  let ideo :=
    match Config.chromosomes (config ideo) with
    | None | Some VNull =>
        let '(obj, ideo) := alloc emptyObject ideo in
        setConfig (setConfigChromosomes (Some obj) (config ideo)) ideo
    | _ => ideo
    end in
  ideo ← writeChromosomes taxid (EList (map EName chrs)) ideo;
  stored ← readChromosomes taxid ideo;
  n ← lengthOf stored;
  let ideo := setNumChromosomes (numChromosomes ideo + n) ideo in
  bandsLoop chrs bandsByChr taxid bandsArray ideo.

(** The loop [for (k = 0; k < chrs.length; k++)] of
    [setChromosomesByTaxid]. *)
Fixpoint lengthsLoop (chrs : list Elem) (ideo : Ideo) : option Ideo :=
  match chrs with
  | [] => Some ideo
  | chr :: rest =>
      n ← lengthOf chr;
      let ideo :=
        if (n >? max_bp (maxLength ideo))%Z
        then setMaxLength (setMaxBp n (maxLength ideo)) ideo else ideo in
      lengthsLoop rest ideo
  end.

(** Assembles the chromosomes of one taxon: with bands for ISCN
    coordinates or several organisms, else, for base pairs, from the
    configured chromosomes alone. *)
Definition setChromosomesByTaxid (taxid : Taxid) (chrs : value)
    (bandsArray : list (list Band.t)) (ideo : Ideo)
  : option (list (list Band.t) * Ideo) :=
  if String.eqb (coordinateSystem ideo) "iscn"
     || Config.multiorganism (config ideo) then
    setChrsByTaxidsWithBands taxid chrs bandsArray ideo
  else if String.eqb (coordinateSystem ideo) "bp" then
    copy ← arrayElements (store ideo) chrs;
    ideo ← writeChromosomes taxid (EList copy) ideo;
    stored ← readChromosomes taxid ideo;
    n ← lengthOf stored;
    let ideo := setNumChromosomes (numChromosomes ideo + n) ideo in
    elems ← arrayElements (store ideo) chrs;
    ideo ← lengthsLoop elems ideo;
    Some (bandsArray, ideo)
  else Some (bandsArray, ideo).

(** Logs the elapsed time when [config.debug] is set; [ideo] is not
    changed. *)
Definition reportPerformance (ideo : Ideo) : Ideo := ideo.

(** The loop [for (j = 0; j < taxids.length; j++)] of [processBandData]. *)
Fixpoint taxaLoop (taxids : list Taxid) (chrs : value)
    (bandsArray : list (list Band.t)) (ideo : Ideo)
  : option (list (list Band.t) * Ideo) :=
  match taxids with
  | [] => Some (bandsArray, ideo)
  | taxid :: rest =>
      '(bandsArray, ideo) ← setChromosomesByTaxid taxid chrs bandsArray ideo;
      taxaLoop rest chrs bandsArray ideo
  end.

(** The value of [chrs] after the [if ('chromosomes' in config)] block of
    [processBandData]. *)
Definition copyChromosomes (ideo : Ideo) : option (value * Ideo) :=
  match Config.chromosomes (config ideo) with
  | Some v =>
      if Config.multiorganism (config ideo) then Some (v, ideo)
      else
        copy ← arrayElements (store ideo) v;
        Some (alloc (arrayOf copy) ideo)
  | None => Some (VUndefined, ideo)
  end.

(** The entry point: resolves the taxa, assembles the chromosomes of each
    and returns the bands of all of them.  The time taken at entry only
    feeds the debug log. *)
Definition processBandData (ideo : Ideo) : option (list (list Band.t) * Ideo) :=
  let bandsArray := [] in
  let '((taxid, taxids), ideo) := setTaxids ideo in
  '(chrs, ideo) ← copyChromosomes ideo;
  '(bandsArray, ideo) ← taxaLoop taxids chrs bandsArray ideo;
  Some (bandsArray, reportPerformance ideo).

(** The loop of [processBandData] when every taxon is assembled by
    [setChrsByTaxidsWithBands]. *)
Fixpoint bandedLoop (taxids : list Taxid) (chrs : value)
    (bandsArray : list (list Band.t)) (ideo : Ideo)
  : option (list (list Band.t) * Ideo) :=
  match taxids with
  | [] => Some (bandsArray, ideo)
  | taxid :: rest =>
      '(bandsArray, ideo) ← setChrsByTaxidsWithBands taxid chrs bandsArray ideo;
      bandedLoop rest chrs bandsArray ideo
  end.

(** ** Vocabulary of the properties *)

(** The chromosome length that [getBandsArray] reads off a band list: the
    stop coordinates of its last band. *)
Definition lastStops (lastBand : Band.t) : Len.t :=
  {| Len.bp := stop (Band.bp lastBand); Len.iscn := stop (Band.iscn lastBand) |}.

Definition lengthOfBands (bands : list Band.t) : Len.t :=
  match list.last bands with
  | Some lastBand => lastStops lastBand
  | None => {| Len.bp := 0; Len.iscn := 0 |}
  end.

(** [x] is the maximum of the numbers in [l]. *)
Definition IsMax (x : Z) (l : list Z) : Prop :=
  x ∈ l ∧ ∀ y, y ∈ l -> (y <= x)%Z.

(** The effect of one call of [getBandsArray] on [ideo.maxLength], for a
    chromosome of length [c] of taxon [t]. *)
Definition tracked (t : Taxid) (c : Len.t) (m : MaxLength) : MaxLength :=
  let e := taxonMax m t in
  {| max_bp :=
       if (Len.bp c >? Len.bp e)%Z then Z.max (max_bp m) (Len.bp c)
       else max_bp m;
     max_iscn :=
       if (Len.iscn c >? Len.iscn e)%Z then Z.max (max_iscn m) (Len.iscn c)
       else max_iscn m;
     byTaxid :=
       <[t := {| Len.bp := Z.max (Len.bp e) (Len.bp c);
                 Len.iscn := Z.max (Len.iscn e) (Len.iscn c) |}]> (byTaxid m) |}.

(** [g] is the maximum, over all taxa that have an entry, of the
    coordinate [f] of the entry. *)
Definition IsMaxOver (g : Z) (f : Len.t -> Z) (tab : gmap Taxid Len.t) : Prop :=
  (∀ t e, tab !! t = Some e -> (f e <= g)%Z)
  ∧ (∃ t e, tab !! t = Some e ∧ f e = g).

(** The global maxima are the maxima over the per-taxon maxima. *)
Definition GlobalMaxima (m : MaxLength) : Prop :=
  IsMaxOver (max_bp m) Len.bp (byTaxid m)
  ∧ IsMaxOver (max_iscn m) Len.iscn (byTaxid m).

(** The state of [ideo.maxLength] that the banded path maintains: no
    maximum is negative, the global maxima are 0 while no taxon has an
    entry and are the maxima over the entries afterwards. *)
Definition Sound (m : MaxLength) : Prop :=
  (∀ t e, byTaxid m !! t = Some e -> (0 <= Len.bp e)%Z ∧ (0 <= Len.iscn e)%Z)
  ∧ (byTaxid m = ∅ -> max_bp m = 0%Z ∧ max_iscn m = 0%Z)
  ∧ (byTaxid m ≠ ∅ -> GlobalMaxima m).

(** One per-taxon maximum is at most another, in both coordinates. *)
Definition lenLe (e e' : Len.t) : Prop :=
  (Len.bp e <= Len.bp e')%Z ∧ (Len.iscn e <= Len.iscn e')%Z.

(** The effect on [ideo.maxLength] of the chromosomes of taxon [t] whose
    band lists are [seg], in order. *)
Definition trackedAll (t : Taxid) (seg : list (list Band.t)) (m : MaxLength)
  : MaxLength :=
  foldl (fun m bands => tracked t (lengthOfBands bands) m) m seg.

(** [seg] holds, in order, the band lists that [bandsByChr] has for the
    chromosomes [chrs]. *)
Definition BandsOf (bandsByChr : BandsByChr) (chrs : list string)
    (seg : list (list Band.t)) : Prop :=
  Forall2 (fun c bands => lookupChr c bandsByChr = Some bands) chrs seg.

(** [config.chromosomes] after the test that replaces a missing or [null]
    collection by [{}] in [setChrsByTaxidsWithBands]. *)
Definition ensureChromosomes (ideo : Ideo) : Ideo :=
  match Config.chromosomes (config ideo) with
  | None | Some VNull =>
      let '(obj, ideo) := alloc emptyObject ideo in
      setConfig (setConfigChromosomes (Some obj) (config ideo)) ideo
  | _ => ideo
  end.

(** What the assembly of taxon [t] leaves behind, on either path: the
    list [names] under [config.chromosomes[t]], the count raised by its
    length, the lists of the other taxa as they were. *)
Definition Assembled (t : Taxid) (names : list Elem) (ideo ideo' : Ideo) : Prop :=
  readChromosomes t ideo' = Some (EList names)
  ∧ numChromosomes ideo' = (numChromosomes ideo + Z.of_nat (length names))%Z
  ∧ (∀ t' v, t' ≠ t -> readChromosomes t' ideo = Some v ->
             readChromosomes t' ideo' = Some v)
  ∧ coordinateSystem ideo' = coordinateSystem ideo
  ∧ Config.multiorganism (config ideo') = Config.multiorganism (config ideo)
  ∧ Config.taxids (config ideo') = Config.taxids (config ideo)
  ∧ bandData ideo' = bandData ideo.

(** [ns] are the [.length] of the entries [es], in order. *)
Definition LengthsOf (es : list Elem) (ns : list Z) : Prop :=
  Forall2 (fun e n => lengthOf e = Some n) es ns.

(** [setChromosomesByTaxid] assembles chromosomes: the banded path is
    taken ([iscn], or several organisms), or the unbanded one ([bp]). *)
Definition OnPath (ideo : Ideo) : Prop :=
  coordinateSystem ideo = "iscn"
  ∨ Config.multiorganism (config ideo) = true
  ∨ coordinateSystem ideo = "bp".

(** The banded path is taken. *)
Definition Banded (ideo : Ideo) : Prop :=
  coordinateSystem ideo = "iscn" ∨ Config.multiorganism (config ideo) = true.

(** The unbanded path is taken. *)
Definition Unbanded (ideo : Ideo) : Prop :=
  coordinateSystem ideo = "bp" ∧ Config.multiorganism (config ideo) = false.

(** The band lists of one taxon: those of the mapping that [parseBands]
    returned for it, taken in the sorted order of the chromosome names;
    none of them is empty. *)
Definition TaxonBands (bd : gmap Taxid RawBands) (t : Taxid)
    (seg : list (list Band.t)) : Prop :=
  ∃ seen bandsByChr,
    parseBands (bd !! t) t seen = Some bandsByChr
    ∧ BandsOf bandsByChr (sort naturalSort (keys bandsByChr)) seg
    ∧ Forall (fun bands => bands ≠ []) seg.

(** The effect on [ideo.maxLength] of the taxa [taxids] with the band
    lists [segs], in order. *)
Definition trackedTaxa (taxids : list Taxid) (segs : list (list (list Band.t)))
    (m : MaxLength) : MaxLength :=
  foldl (fun m p => trackedAll p.1 p.2 m) m (zip taxids segs).

(** The lengths, in one coordinate, of the chromosomes with the band
    lists [seg]. *)
Definition lengthsIn (f : Len.t -> Z) (seg : list (list Band.t)) : list Z :=
  map (fun bands => f (lengthOfBands bands)) seg.

(** No chromosome length is negative. *)
Definition NonNegative (seg : list (list Band.t)) : Prop :=
  Forall (fun bands => (0 <= Len.bp (lengthOfBands bands))%Z
                       ∧ (0 <= Len.iscn (lengthOfBands bands))%Z) seg.

(** The sum of the lengths of the lists. *)
Definition sumOfLengths (lists : list (list Elem)) : Z :=
  foldr (fun l acc => (Z.of_nat (length l) + acc)%Z) 0%Z lists.

(** The contract of the band parser for the taxa [taxids]: whatever
    [chrs] shows, it returns a mapping for the taxon, and no band list of
    the mapping is empty. *)
Definition ParserContract (bd : gmap Taxid RawBands) (taxids : list Taxid)
  : Prop :=
  ∀ t seen, t ∈ taxids ->
    ∃ bandsByChr,
      parseBands (bd !! t) t seen = Some bandsByChr
      ∧ Forall (fun p => p.2 ≠ []) bandsByChr.

(** The value refers to nothing that is missing from the store. *)
Definition Resolves (sigma : list Obj) (v : value) : Prop :=
  is_Some (deref sigma v).

(** [config.chromosomes] is missing, [null], or an object of the store. *)
Definition ChromosomesUsable (ideo : Ideo) : Prop :=
  match Config.chromosomes (config ideo) with
  | None | Some VNull => True
  | Some VUndefined => False
  | Some (VRef l) => is_Some (store ideo !! l)
  end.

(** A configuration that [processBandData] accepts: the chromosomes are
    not configured, or they are an object of the store, an Array when
    there is one organism; [null] only with several organisms. *)
Definition Configured (ideo : Ideo) : Prop :=
  match Config.chromosomes (config ideo) with
  | None => True
  | Some VUndefined => False
  | Some VNull => Config.multiorganism (config ideo) = true
  | Some (VRef l) =>
      ∃ o, store ideo !! l = Some o
           ∧ (Config.multiorganism (config ideo) = false -> isArray o = true)
  end.

(** What no assembly step changes of [ideo], and what it can only
    raise: the band data, the coordinate system and the configuration
    other than [chromosomes] stay; maxima and the chromosome count do not
    decrease; the store only grows; [config.chromosomes] stays, or comes to
    refer to a new object; and the objects of the store that
    [config.chromosomes] does not refer to stay as they are. *)
Definition Frame (ideo ideo' : Ideo) : Prop :=
  bandData ideo' = bandData ideo
  ∧ coordinateSystem ideo' = coordinateSystem ideo
  ∧ Config.multiorganism (config ideo') = Config.multiorganism (config ideo)
  ∧ Config.debug (config ideo') = Config.debug (config ideo)
  ∧ Config.taxid (config ideo') = Config.taxid (config ideo)
  ∧ Config.taxids (config ideo') = Config.taxids (config ideo)
  ∧ (max_bp (maxLength ideo) <= max_bp (maxLength ideo'))%Z
  ∧ (max_iscn (maxLength ideo) <= max_iscn (maxLength ideo'))%Z
  ∧ (∀ t e, byTaxid (maxLength ideo) !! t = Some e ->
            ∃ e', byTaxid (maxLength ideo') !! t = Some e' ∧ lenLe e e')
  ∧ (numChromosomes ideo <= numChromosomes ideo')%Z
  ∧ (length (store ideo) <= length (store ideo'))%nat
  ∧ (Config.chromosomes (config ideo') = Config.chromosomes (config ideo)
     ∨ ∃ l, (length (store ideo) <= l)%nat
            ∧ Config.chromosomes (config ideo') = Some (VRef l))
  ∧ (∀ l, (l < length (store ideo))%nat ->
          Config.chromosomes (config ideo) ≠ Some (VRef l) ->
          store ideo' !! l = store ideo !! l).

(** The band lists of one taxon in the order of its chromosome names:
    [chrNames] rearranges the keys of the mapping that [parseBands]
    returned for the taxon, every name comes before, or ties with, every
    later one for the comparison function, and [seg] holds one band list
    per name, that of the name, in the order of the names; none is
    empty. *)
Definition SortedTaxonBands (bd : gmap Taxid RawBands) (t : Taxid)
    (seg : list (list Band.t)) : Prop :=
  ∃ seen bandsByChr chrNames,
    parseBands (bd !! t) t seen = Some bandsByChr
    ∧ Permutation chrNames (keys bandsByChr)
    ∧ StronglySorted (before naturalSort) chrNames
    ∧ BandsOf bandsByChr chrNames seg
    ∧ Forall (fun bands => bands ≠ []) seg.

(** The band list of a chromosome, empty when the mapping has none. *)
Definition bandsAt (bandsByChr : BandsByChr) (c : string) : list Band.t :=
  default [] (lookupChr c bandsByChr).

(** ** Sorting with a comparison function *)

Section SortFacts.
Context {A : Type} (cmp : A -> A -> Z).

Lemma insertBy_Permutation (x : A) (l : list A) :
  Permutation (insertBy cmp x l) (x :: l).
Proof.
  induction l as [|y l IH]; simpl; [done|].
  destruct (cmp x y <=? 0)%Z; [done|].
  rewrite IH. apply perm_swap.
Qed.

Lemma sort_Permutation (l : list A) : Permutation (sort cmp l) l.
Proof.
  induction l as [|x l IH]; simpl; [done|].
  rewrite insertBy_Permutation. by constructor.
Qed.

Lemma insertBy_Sorted (x : A) (l : list A) :
  (∀ a b, before cmp a b ∨ before cmp b a) ->
  Sorted (before cmp) l -> Sorted (before cmp) (insertBy cmp x l).
Proof.
  intros Htotal Hs. induction Hs as [|y l Hs IH Hd]; simpl.
  - repeat constructor.
  - destruct (Z.leb_spec (cmp x y) 0) as [Hle|Hgt].
    + constructor; [by constructor|]. by constructor.
    + assert (before cmp y x) as Hyx.
      { destruct (Htotal x y) as [H|H]; [|done]. unfold before in H. lia. }
      constructor; [done|].
      destruct Hd as [|z l Hyz]; simpl.
      * by constructor.
      * destruct (cmp x z <=? 0)%Z; by constructor.
Qed.

Lemma sort_Sorted (l : list A) :
  (∀ a b, before cmp a b ∨ before cmp b a) ->
  Sorted (before cmp) (sort cmp l).
Proof.
  intros Htotal. induction l as [|x l IH]; simpl; [constructor|].
  by apply insertBy_Sorted.
Qed.

(** With a consistent comparison function the result is in order: every
    element comes before, or ties with, every later one. *)
Lemma sort_StronglySorted (l : list A) :
  Consistent cmp -> StronglySorted (before cmp) (sort cmp l).
Proof.
  intros [Htotal Htrans]. apply Sorted_StronglySorted.
  - intros a b c. apply Htrans.
  - by apply sort_Sorted.
Qed.

End SortFacts.

(** ** Objects and the store *)

Lemma indexed_lookup (l : list Elem) (i : N) (j : nat) :
  indexed i l !! Taxon (i + N.of_nat j) = l !! j.
Proof.
  revert i j. induction l as [|v l IH]; intros i j; simpl.
  - by rewrite lookup_empty.
  - destruct j as [|j].
    + rewrite N.add_0_r. by rewrite lookup_insert_eq.
    + rewrite lookup_insert_ne by (intros [=]; lia).
      replace (i + N.of_nat (S j))%N with (N.succ i + N.of_nat j)%N by lia.
      by rewrite IH.
Qed.

Lemma elements_arrayOf (l : list Elem) : elements (arrayOf l) = l.
Proof.
  apply list_eq. intros j. unfold elements, arrayOf. simpl.
  rewrite Nat2N.id, list_lookup_fmap.
  destruct (decide (j < length l)%nat) as [Hlt|Hge].
  - rewrite lookup_seq_lt by done. simpl. unfold getProp. simpl.
    pose proof (indexed_lookup l 0 j) as Hi. rewrite N.add_0_l in Hi.
    rewrite Hi.
    destruct (lookup_lt_is_Some_2 l j Hlt) as [x Hx]. by rewrite Hx.
  - rewrite lookup_seq_ge by lia. simpl.
    symmetry. apply lookup_ge_None_2. lia.
Qed.

Lemma getProp_setProp_eq (o : Obj) (k : Taxid) (v : Elem) :
  getProp (setProp o k v) k = v.
Proof. unfold getProp, setProp. simpl. by rewrite lookup_insert_eq. Qed.

Lemma getProp_setProp_ne (o : Obj) (k k' : Taxid) (v : Elem) :
  k ≠ k' -> getProp (setProp o k v) k' = getProp o k'.
Proof.
  intros Hne. unfold getProp, setProp. simpl. by rewrite lookup_insert_ne.
Qed.

(** ** One chromosome: [getBandsArray] *)

(** One step of a computation that has not thrown. *)
Ltac bind_step :=
  lazymatch goal with
  | |- context [Some ?x ≫= ?f] => change (Some x ≫= f) with (f x); cbv beta
  end.

(** Case analysis on a comparison between two numbers. *)
Ltac case_gtb :=
  match goal with
  | |- context [(?a >? ?b)%Z] =>
      lazymatch a with context [if _ then _ else _] => fail | _ => idtac end;
      lazymatch b with context [if _ then _ else _] => fail | _ => idtac end;
      destruct (Z.gtb_spec a b)
  end.

Lemma tracked_step (t : Taxid) (c : Len.t) (m : MaxLength) :
  let m0 :=
    if decide (is_Some (byTaxid m !! t)) then m
    else setTaxonMax t {| Len.bp := 0; Len.iscn := 0 |} m in
  let m1 :=
    if (Len.iscn c >? Len.iscn (taxonMax m0 t))%Z then
      let m' := setTaxonIscn t (Len.iscn c) m0 in
      if (Len.iscn c >? max_iscn m')%Z then setMaxIscn (Len.iscn c) m' else m'
    else m0 in
  let m2 :=
    if (Len.bp c >? Len.bp (taxonMax m1 t))%Z then
      let m' := setTaxonBp t (Len.bp c) m1 in
      if (Len.bp c >? max_bp m')%Z then setMaxBp (Len.bp c) m' else m'
    else m1 in
  m2 = tracked t c m.
Proof.
  destruct m as [gb gi tab]. destruct c as [cb ci].
  cbv zeta.
  unfold tracked, setTaxonIscn, setTaxonBp, setTaxonMax, setMaxIscn,
    setMaxBp, taxonMax.
  cbn [max_bp max_iscn byTaxid Len.bp Len.iscn].
  destruct (decide (is_Some (tab !! t))) as [[[eb ei] He]|Hn].
  - rewrite He.
    repeat (simpl; rewrite ?lookup_insert_eq, ?He; simpl; case_gtb).
    all: simpl; rewrite ?lookup_insert_eq, ?He, ?insert_insert_eq; simpl.
    all: f_equal; try lia.
    all: try (symmetry; apply insert_id; rewrite He).
    all: repeat f_equal; lia.
  - assert (tab !! t = None) as He.
    { destruct (tab !! t) eqn:E; [|done]. exfalso. apply Hn. eauto. }
    rewrite He.
    repeat (simpl; rewrite ?lookup_insert_eq; simpl; case_gtb).
    all: simpl; rewrite ?lookup_insert_eq, ?insert_insert_eq; simpl.
    all: f_equal; try lia.
    all: repeat f_equal; lia.
Qed.

Lemma getBandsArray_inv chromosome bandsByChr taxid ideo r ideo' :
  getBandsArray chromosome bandsByChr taxid ideo = Some (r, ideo') ->
  ∃ bands lastBand,
    lookupChr chromosome bandsByChr = Some bands
    ∧ list.last bands = Some lastBand
    ∧ r = [bands]
    ∧ ideo' = setMaxLength (tracked taxid (lastStops lastBand) (maxLength ideo)) ideo.
Proof.
  unfold getBandsArray. intros H.
  destruct (lookupChr chromosome bandsByChr) as [bands|] eqn:Hb; [|done].
  simpl in H.
  destruct (list.last bands) as [lastBand|] eqn:Hl; [|done].
  simpl in H. injection H as <- <-.
  exists bands, lastBand. repeat split; try done.
  f_equal. apply (tracked_step taxid (lastStops lastBand) (maxLength ideo)).
Qed.

(** ** The running maxima *)

Lemma tracked_lookup_eq t c m :
  byTaxid (tracked t c m) !! t
  = Some {| Len.bp := Z.max (Len.bp (taxonMax m t)) (Len.bp c);
            Len.iscn := Z.max (Len.iscn (taxonMax m t)) (Len.iscn c) |}.
Proof. unfold tracked. simpl. by rewrite lookup_insert_eq. Qed.

Lemma tracked_lookup_ne t t' c m :
  t ≠ t' -> byTaxid (tracked t c m) !! t' = byTaxid m !! t'.
Proof. intros Hne. unfold tracked. simpl. by rewrite lookup_insert_ne. Qed.

Lemma tracked_not_empty t c m : byTaxid (tracked t c m) ≠ ∅.
Proof.
  intros He. pose proof (tracked_lookup_eq t c m) as Hl.
  rewrite He, lookup_empty in Hl. done.
Qed.

(** Each per-taxon maximum can only grow. *)
Lemma tracked_monotone t c m t' e :
  byTaxid m !! t' = Some e ->
  ∃ e', byTaxid (tracked t c m) !! t' = Some e' ∧ lenLe e e'.
Proof.
  intros He. destruct (decide (t = t')) as [->|Hne].
  - eexists. split; [apply tracked_lookup_eq|].
    unfold taxonMax. rewrite He. unfold lenLe. simpl. lia.
  - exists e. rewrite tracked_lookup_ne by done. split; [done|].
    unfold lenLe. lia.
Qed.

(** One coordinate of one step: the global maximum stays the maximum
    over the entries, and it is the larger of its old value and the new
    length. *)
Lemma max_step (f : Len.t -> Z) (g c : Z) (tab : gmap Taxid Len.t)
    (t : Taxid) (e' : Len.t) :
  let d := f (default {| Len.bp := 0; Len.iscn := 0 |} (tab !! t)) in
  f {| Len.bp := 0; Len.iscn := 0 |} = 0%Z ->
  (∀ t0 e0, tab !! t0 = Some e0 -> (0 <= f e0)%Z) ->
  (tab = ∅ -> g = 0%Z) ->
  (tab ≠ ∅ -> IsMaxOver g f tab) ->
  f e' = Z.max d c ->
  let g' := if (c >? d)%Z then Z.max g c else g in
  IsMaxOver g' f (<[t := e']> tab) ∧ g' = Z.max g c ∧ (0 <= f e')%Z.
Proof.
  intros d Hz Hpos Hempty Hmax He' g'.
  assert (0 <= d)%Z as Hd.
  { unfold d. destruct (tab !! t) as [e|] eqn:Ht; simpl; [eauto|lia]. }
  assert (d <= g)%Z as Hdg.
  { unfold d. destruct (tab !! t) as [e|] eqn:Ht; simpl.
    - assert (tab ≠ ∅) as Hne by (intros ->; by rewrite lookup_empty in Ht).
      destruct (Hmax Hne) as [Hup _]. eauto.
    - rewrite Hz. destruct (decide (tab = ∅)) as [E|Hne]; [rewrite Hempty; done|].
      destruct (Hmax Hne) as [_ (t0 & e0 & H0 & <-)]. eauto. }
  assert (g' = Z.max g c) as Hg'.
  { unfold g'. destruct (Z.gtb_spec c d); lia. }
  split; [|split; [done|lia]].
  split.
  - intros t0 e0 H0. destruct (decide (t = t0)) as [->|Hne].
    + rewrite lookup_insert_eq in H0. injection H0 as <-. lia.
    + rewrite lookup_insert_ne in H0 by done.
      assert (tab ≠ ∅) as Hn by (intros ->; by rewrite lookup_empty in H0).
      destruct (Hmax Hn) as [Hup _]. specialize (Hup _ _ H0). lia.
  - destruct (decide (g < c)%Z) as [Hgc|Hgc].
    + exists t, e'. rewrite lookup_insert_eq. split; [done|]. lia.
    + destruct (decide (tab = ∅)) as [E|Hne].
      * exists t, e'. rewrite lookup_insert_eq. split; [done|].
        rewrite (Hempty E) in *. lia.
      * destruct (Hmax Hne) as [Hup (t0 & e0 & H0 & Hf0)].
        destruct (decide (t = t0)) as [->|Hne0].
        -- exists t0, e'. rewrite lookup_insert_eq. split; [done|].
           assert (d = g) by (unfold d; rewrite H0; simpl; done). lia.
        -- exists t0, e0. rewrite lookup_insert_ne by done. split; [done|]. lia.
Qed.

(** [Sound] is an invariant of the steps of the banded path, and every
    step establishes [GlobalMaxima]. *)
Lemma tracked_Sound t c m :
  Sound m ->
  Sound (tracked t c m)
  ∧ GlobalMaxima (tracked t c m)
  ∧ max_bp (tracked t c m) = Z.max (max_bp m) (Len.bp c)
  ∧ max_iscn (tracked t c m) = Z.max (max_iscn m) (Len.iscn c).
Proof.
  intros (Hpos & Hempty & Hmax).
  pose proof (max_step Len.bp (max_bp m) (Len.bp c) (byTaxid m) t
    {| Len.bp := Z.max (Len.bp (taxonMax m t)) (Len.bp c);
       Len.iscn := Z.max (Len.iscn (taxonMax m t)) (Len.iscn c) |}) as Hb.
  pose proof (max_step Len.iscn (max_iscn m) (Len.iscn c) (byTaxid m) t
    {| Len.bp := Z.max (Len.bp (taxonMax m t)) (Len.bp c);
       Len.iscn := Z.max (Len.iscn (taxonMax m t)) (Len.iscn c) |}) as Hi.
  simpl in Hb, Hi.
  destruct Hb as (Hb1 & Hb2 & Hb3); try done.
  { intros t0 e0 H0. by destruct (Hpos _ _ H0). }
  { intros E. by destruct (Hempty E). }
  { intros E. by destruct (Hmax E). }
  destruct Hi as (Hi1 & Hi2 & Hi3); try done.
  { intros t0 e0 H0. by destruct (Hpos _ _ H0). }
  { intros E. by destruct (Hempty E). }
  { intros E. by destruct (Hmax E). }
  assert (GlobalMaxima (tracked t c m)) as HG by (split; done).
  split; [|split; [done|split; done]].
  split; [|split].
  - intros t0 e0 H0. destruct (decide (t = t0)) as [->|Hne].
    + rewrite tracked_lookup_eq in H0. injection H0 as <-. simpl. done.
    + rewrite tracked_lookup_ne in H0 by done. eauto.
  - intros E. by destruct (tracked_not_empty t c m).
  - done.
Qed.

Lemma fresh_Sound : Sound freshMaxLength.
Proof.
  split; [|split].
  - intros t e H. simpl in H. by rewrite lookup_empty in H.
  - done.
  - intros H. by destruct H.
Qed.

(** ** The chromosomes of one taxon on the banded path *)

Lemma setMaxLength_id ideo : setMaxLength (maxLength ideo) ideo = ideo.
Proof. by destruct ideo. Qed.

Lemma lengthOfBands_last bands lastBand :
  list.last bands = Some lastBand -> lengthOfBands bands = lastStops lastBand.
Proof. intros H. unfold lengthOfBands. by rewrite H. Qed.

Lemma last_nonempty {A} (l : list A) x : list.last l = Some x -> l ≠ [].
Proof. by intros H ->. Qed.

Lemma bandsLoop_inv chrs bandsByChr t acc ideo r ideo' :
  bandsLoop chrs bandsByChr t acc ideo = Some (r, ideo') ->
  ∃ seg,
    BandsOf bandsByChr chrs seg
    ∧ Forall (fun bands => bands ≠ []) seg
    ∧ r = acc ++ seg
    ∧ ideo' = setMaxLength (trackedAll t seg (maxLength ideo)) ideo.
Proof.
  revert acc ideo. induction chrs as [|c chrs IH]; intros acc ideo H; simpl in H.
  - injection H as <- <-. exists []. unfold BandsOf.
    repeat split; try constructor.
    + by rewrite app_nil_r.
    + simpl. by rewrite setMaxLength_id.
  - destruct (getBandsArray c bandsByChr t ideo) as [[r1 ideo1]|] eqn:Hg; [|done].
    simpl in H.
    apply getBandsArray_inv in Hg as (bands & lastBand & Hb & Hl & -> & ->).
    apply IH in H as (seg & Hseg & Hne & -> & ->).
    exists (bands :: seg). repeat split.
    + by constructor.
    + constructor; [by eapply last_nonempty|done].
    + by rewrite <- app_assoc.
    + simpl. by rewrite (lengthOfBands_last _ _ Hl).
Qed.

Lemma writeChromosomes_inv t v ideo ideo1 :
  writeChromosomes t v ideo = Some ideo1 ->
  ∃ l o,
    Config.chromosomes (config ideo) = Some (VRef l)
    ∧ store ideo !! l = Some o
    ∧ ideo1 = setStore (<[l := setProp o t v]> (store ideo)) ideo.
Proof.
  unfold writeChromosomes. intros H.
  destruct (Config.chromosomes (config ideo)) as [[| |l]|]; try done.
  destruct (store ideo !! l) as [o|] eqn:Ho; [|done].
  simpl in H. injection H as <-. by exists l, o.
Qed.

Lemma readChromosomes_write_eq t v ideo ideo1 :
  writeChromosomes t v ideo = Some ideo1 -> readChromosomes t ideo1 = Some v.
Proof.
  intros H. apply writeChromosomes_inv in H as (l & o & Hc & Ho & ->).
  unfold readChromosomes. simpl. rewrite Hc.
  rewrite list_lookup_insert_eq by (by eapply lookup_lt_Some).
  simpl. by rewrite getProp_setProp_eq.
Qed.

Lemma readChromosomes_write_ne t t' v w ideo ideo1 :
  writeChromosomes t v ideo = Some ideo1 -> t' ≠ t ->
  readChromosomes t' ideo = Some w -> readChromosomes t' ideo1 = Some w.
Proof.
  intros H Hne Hr. apply writeChromosomes_inv in H as (l & o & Hc & Ho & ->).
  unfold readChromosomes in *. simpl. rewrite Hc in *.
  rewrite list_lookup_insert_eq by (by eapply lookup_lt_Some).
  rewrite Ho in Hr. simpl in *. by rewrite getProp_setProp_ne.
Qed.

Lemma readChromosomes_ensure t v ideo :
  readChromosomes t ideo = Some v -> ensureChromosomes ideo = ideo.
Proof.
  unfold readChromosomes, ensureChromosomes.
  by destruct (Config.chromosomes (config ideo)) as [[| |l]|].
Qed.

Lemma ensureChromosomes_frame ideo :
  let ideo1 := ensureChromosomes ideo in
  maxLength ideo1 = maxLength ideo
  ∧ numChromosomes ideo1 = numChromosomes ideo
  ∧ coordinateSystem ideo1 = coordinateSystem ideo
  ∧ Config.multiorganism (config ideo1) = Config.multiorganism (config ideo)
  ∧ Config.taxids (config ideo1) = Config.taxids (config ideo)
  ∧ bandData ideo1 = bandData ideo.
Proof.
  unfold ensureChromosomes.
  by destruct (Config.chromosomes (config ideo)) as [[| |l]|].
Qed.

Lemma setChrsByTaxidsWithBands_inv t chrs acc ideo r ideo' :
  setChrsByTaxidsWithBands t chrs acc ideo = Some (r, ideo') ->
  ∃ seen bandsByChr ideo1 seg,
    deref (store ideo) chrs = Some seen
    ∧ parseBands (bandData ideo !! t) t seen = Some bandsByChr
    ∧ writeChromosomes t
        (EList (map EName (sort naturalSort (keys bandsByChr))))
        (ensureChromosomes ideo) = Some ideo1
    ∧ BandsOf bandsByChr (sort naturalSort (keys bandsByChr)) seg
    ∧ Forall (fun bands => bands ≠ []) seg
    ∧ r = acc ++ seg
    ∧ ideo' =
        setMaxLength (trackedAll t seg (maxLength ideo))
          (setNumChromosomes
             (numChromosomes ideo
              + Z.of_nat (length (sort naturalSort (keys bandsByChr))))
             ideo1).
Proof.
  intros H.
  change (setChrsByTaxidsWithBands t chrs acc ideo) with
    (seen ← deref (store ideo) chrs;
     bandsByChr ← parseBands (bandData ideo !! t) t seen;
     ideo1 ← writeChromosomes t
               (EList (map EName (sort naturalSort (keys bandsByChr))))
               (ensureChromosomes ideo);
     stored ← readChromosomes t ideo1;
     n ← lengthOf stored;
     bandsLoop (sort naturalSort (keys bandsByChr)) bandsByChr t acc
       (setNumChromosomes (numChromosomes ideo1 + n) ideo1)) in H.
  destruct (deref (store ideo) chrs) as [seen|] eqn:Hd; [|done]. simpl in H.
  destruct (parseBands (bandData ideo !! t) t seen) as [b|] eqn:Hp; [|done].
  simpl in H.
  destruct (writeChromosomes t _ (ensureChromosomes ideo)) as [ideo1|] eqn:Hw;
    [|done].
  simpl in H. rewrite (readChromosomes_write_eq _ _ _ _ Hw) in H. simpl in H.
  apply bandsLoop_inv in H as (seg & Hseg & Hne & -> & ->).
  exists seen, b, ideo1, seg. repeat split; try done.
  simpl. rewrite length_map.
  apply writeChromosomes_inv in Hw as (l & o & _ & _ & ->). simpl.
  pose proof (ensureChromosomes_frame ideo) as (-> & -> & _). done.
Qed.

Lemma setChrsByTaxidsWithBands_Assembled t chrs acc ideo r ideo' :
  setChrsByTaxidsWithBands t chrs acc ideo = Some (r, ideo') ->
  ∃ seen bandsByChr,
    deref (store ideo) chrs = Some seen
    ∧ parseBands (bandData ideo !! t) t seen = Some bandsByChr
    ∧ Assembled t (map EName (sort naturalSort (keys bandsByChr))) ideo ideo'.
Proof.
  intros H.
  apply setChrsByTaxidsWithBands_inv in H
    as (seen & b & ideo1 & seg & Hd & Hp & Hw & _ & _ & _ & ->).
  exists seen, b. split; [done|]. split; [done|].
  pose proof (ensureChromosomes_frame ideo) as (_ & _ & Hcs & Hmu & Htx & Hbd).
  unfold Assembled. split; [|split; [|split; [|split; [|split; [|split]]]]].
  - apply (readChromosomes_write_eq _ _ _ _ Hw).
  - simpl. by rewrite length_map.
  - intros t' v Hne Hr.
    pose proof (readChromosomes_ensure _ _ _ Hr) as He. rewrite He in Hw.
    apply (readChromosomes_write_ne _ _ _ _ _ _ Hw Hne Hr).
  - apply writeChromosomes_inv in Hw as (l & o & _ & _ & ->). done.
  - apply writeChromosomes_inv in Hw as (l & o & _ & _ & ->). done.
  - apply writeChromosomes_inv in Hw as (l & o & _ & _ & ->). done.
  - apply writeChromosomes_inv in Hw as (l & o & _ & _ & ->). done.
Qed.

(** ** The unbanded path *)

Lemma setMaxBp_id ideo :
  setMaxLength (setMaxBp (max_bp (maxLength ideo)) (maxLength ideo)) ideo = ideo.
Proof. destruct ideo as [? ? [] ? ? ?]. done. Qed.

Lemma lengthsLoop_inv es ideo ideo' :
  lengthsLoop es ideo = Some ideo' ->
  ∃ ns,
    LengthsOf es ns
    ∧ ideo' =
        setMaxLength
          (setMaxBp (foldl Z.max (max_bp (maxLength ideo)) ns) (maxLength ideo))
          ideo.
Proof.
  revert ideo. induction es as [|e es IH]; intros ideo H; simpl in H.
  - injection H as <-. exists []. split; [constructor|].
    simpl. by rewrite setMaxBp_id.
  - destruct (lengthOf e) as [n|] eqn:Hn; [|done]. simpl in H.
    apply IH in H as (ns & Hns & ->).
    exists (n :: ns). split; [by constructor|]. simpl.
    destruct (Z.gtb_spec n (max_bp (maxLength ideo))); simpl.
    + by rewrite Z.max_r by lia.
    + by rewrite Z.max_l by lia.
Qed.

Lemma Unbanded_eqb ideo :
  Unbanded ideo ->
  String.eqb (coordinateSystem ideo) "iscn"
    || Config.multiorganism (config ideo) = false
  ∧ String.eqb (coordinateSystem ideo) "bp" = true.
Proof. intros [-> ->]. done. Qed.

Lemma Banded_eqb ideo :
  Banded ideo ->
  String.eqb (coordinateSystem ideo) "iscn"
    || Config.multiorganism (config ideo) = true.
Proof.
  intros [->| ->]; [done|]. by rewrite orb_true_r.
Qed.

Lemma setChromosomesByTaxid_banded t chrs acc ideo :
  Banded ideo ->
  setChromosomesByTaxid t chrs acc ideo
  = setChrsByTaxidsWithBands t chrs acc ideo.
Proof.
  intros H. unfold setChromosomesByTaxid. by rewrite (Banded_eqb _ H).
Qed.

Lemma setChromosomesByTaxid_unbanded_inv t chrs acc ideo r ideo' :
  Unbanded ideo ->
  setChromosomesByTaxid t chrs acc ideo = Some (r, ideo') ->
  ∃ copy ideo1 elems ns,
    arrayElements (store ideo) chrs = Some copy
    ∧ writeChromosomes t (EList copy) ideo = Some ideo1
    ∧ arrayElements (store ideo1) chrs = Some elems
    ∧ LengthsOf elems ns
    ∧ r = acc
    ∧ ideo' =
        setMaxLength
          (setMaxBp (foldl Z.max (max_bp (maxLength ideo)) ns) (maxLength ideo))
          (setNumChromosomes
             (numChromosomes ideo + Z.of_nat (length copy)) ideo1).
Proof.
  intros Hu H. unfold setChromosomesByTaxid in H.
  destruct (Unbanded_eqb _ Hu) as [E1 E2]. rewrite E1, E2 in H.
  destruct (arrayElements (store ideo) chrs) as [copy|] eqn:Hc; [|done].
  simpl in H.
  destruct (writeChromosomes t (EList copy) ideo) as [ideo1|] eqn:Hw; [|done].
  simpl in H. rewrite (readChromosomes_write_eq _ _ _ _ Hw) in H. simpl in H.
  destruct (arrayElements (store ideo1) chrs) as [elems|] eqn:He; [|done].
  simpl in H.
  destruct (lengthsLoop elems _) as [ideo2|] eqn:Hl; [|done].
  simpl in H. injection H as <- <-.
  apply lengthsLoop_inv in Hl as (ns & Hns & ->).
  exists copy, ideo1, elems, ns. repeat split; try done.
  apply writeChromosomes_inv in Hw as (l & o & _ & _ & ->). done.
Qed.

Lemma setChromosomesByTaxid_Assembled t chrs acc ideo r ideo' :
  OnPath ideo ->
  setChromosomesByTaxid t chrs acc ideo = Some (r, ideo') ->
  ∃ names, Assembled t names ideo ideo'.
Proof.
  intros Hp H.
  destruct (decide (Banded ideo)) as [Hb|Hnb].
  - rewrite setChromosomesByTaxid_banded in H by done.
    apply setChrsByTaxidsWithBands_Assembled in H as (? & ? & _ & _ & HA).
    eauto.
  - assert (Unbanded ideo) as Hu.
    { destruct Hp as [Hi|[Hm|Hbp]].
      - destruct Hnb. by left.
      - destruct Hnb. by right.
      - split; [done|].
        destruct (Config.multiorganism (config ideo)) eqn:E; [|done].
        destruct Hnb. by right. }
    apply setChromosomesByTaxid_unbanded_inv in H
      as (copy & ideo1 & elems & ns & _ & Hw & _ & _ & _ & ->); [|done].
    exists copy. unfold Assembled.
    split; [|split; [|split; [|split; [|split; [|split]]]]].
    + apply (readChromosomes_write_eq _ _ _ _ Hw).
    + done.
    + intros t' v Hne Hr. apply (readChromosomes_write_ne _ _ _ _ _ _ Hw Hne Hr).
    + apply writeChromosomes_inv in Hw as (l & o & _ & _ & ->). done.
    + apply writeChromosomes_inv in Hw as (l & o & _ & _ & ->). done.
    + apply writeChromosomes_inv in Hw as (l & o & _ & _ & ->). done.
    + apply writeChromosomes_inv in Hw as (l & o & _ & _ & ->). done.
Qed.

(** ** The loop over the taxa *)

Lemma Assembled_OnPath t names ideo ideo' :
  Assembled t names ideo ideo' -> OnPath ideo -> OnPath ideo'.
Proof. intros (_ & _ & _ & Hc & Hm & _) H. unfold OnPath. by rewrite Hc, Hm. Qed.

Lemma Assembled_Banded t names ideo ideo' :
  Assembled t names ideo ideo' -> Banded ideo -> Banded ideo'.
Proof. intros (_ & _ & _ & Hc & Hm & _) H. unfold Banded. by rewrite Hc, Hm. Qed.

Lemma taxaLoop_Assembled taxids chrs acc ideo r ideo' :
  OnPath ideo -> NoDup taxids ->
  taxaLoop taxids chrs acc ideo = Some (r, ideo') ->
  (∃ lists,
     Forall2 (fun t l => readChromosomes t ideo' = Some (EList l)) taxids lists
     ∧ numChromosomes ideo'
       = (numChromosomes ideo + sumOfLengths lists)%Z)
  ∧ (∀ t v, t ∉ taxids -> readChromosomes t ideo = Some v ->
            readChromosomes t ideo' = Some v)
  ∧ Config.taxids (config ideo') = Config.taxids (config ideo).
Proof.
  revert acc ideo. induction taxids as [|t taxids IH]; intros acc ideo Hp Hnd H;
    simpl in H.
  - injection H as <- <-. split; [|done]. exists []. split; [constructor|].
    simpl. lia.
  - destruct (setChromosomesByTaxid t chrs acc ideo) as [[r1 ideo1]|] eqn:Hs;
      [|done].
    simpl in H.
    apply setChromosomesByTaxid_Assembled in Hs as [names HA]; [|done].
    pose proof (Assembled_OnPath _ _ _ _ HA Hp) as Hp1.
    destruct HA as (Hr & Hn & Hother & _ & _ & Htx & _).
    apply list.NoDup_cons in Hnd as [Hnotin Hnd].
    apply IH in H as ((lists & Hl & Hsum) & Hkeep & Htx'); [|done|done].
    split; [|split].
    + exists (names :: lists). split.
      * constructor; [|done]. by apply Hkeep.
      * rewrite Hsum, Hn. simpl. lia.
    + intros t' v Hnot Hr'. apply not_elem_of_cons in Hnot as [Hne Hnot].
      apply Hkeep; [done|]. by apply Hother.
    + by rewrite Htx'.
Qed.

Lemma taxaLoop_banded_inv taxids chrs acc ideo r ideo' :
  Banded ideo ->
  taxaLoop taxids chrs acc ideo = Some (r, ideo') ->
  ∃ segs,
    Forall2 (TaxonBands (bandData ideo)) taxids segs
    ∧ r = acc ++ concat segs
    ∧ maxLength ideo' = trackedTaxa taxids segs (maxLength ideo).
Proof.
  revert acc ideo. induction taxids as [|t taxids IH]; intros acc ideo Hb H;
    simpl in H.
  - injection H as <- <-. exists []. split; [constructor|].
    split; [by rewrite app_nil_r|done].
  - rewrite setChromosomesByTaxid_banded in H by done.
    destruct (setChrsByTaxidsWithBands t chrs acc ideo) as [[r1 ideo1]|] eqn:Hs;
      [|done].
    simpl in H.
    pose proof (setChrsByTaxidsWithBands_Assembled _ _ _ _ _ _ Hs)
      as (seen0 & b0 & _ & _ & HA).
    pose proof (Assembled_Banded _ _ _ _ HA Hb) as Hb1.
    destruct HA as (_ & _ & _ & _ & _ & _ & Hbd).
    apply setChrsByTaxidsWithBands_inv in Hs
      as (seen & b & ideo2 & seg & Hd & Hpb & Hw & Hseg & Hne & -> & Hi).
    apply IH in H as (segs & Hsegs & -> & Hm); [|done].
    exists (seg :: segs). split; [|split].
    + constructor; [by exists seen, b|]. by rewrite <- Hbd.
    + simpl. by rewrite <- app_assoc.
    + rewrite Hm. unfold trackedTaxa. simpl. by rewrite Hi.
Qed.

(** ** Maxima of lists of lengths *)

Lemma foldl_max_spec (g : Z) (ns : list Z) :
  (g <= foldl Z.max g ns)%Z
  ∧ (∀ n, n ∈ ns -> (n <= foldl Z.max g ns)%Z)
  ∧ (foldl Z.max g ns = g ∨ foldl Z.max g ns ∈ ns).
Proof.
  revert g. induction ns as [|n ns IH]; intros g; simpl.
  - split; [lia|]. split; [|by left]. intros n H. by apply elem_of_nil in H.
  - destruct (IH (Z.max g n)) as (H1 & H2 & H3).
    split; [lia|]. split.
    + intros n' Hn'. apply elem_of_cons in Hn' as [->|Hn']; [lia|by apply H2].
    + destruct H3 as [H3|H3].
      * rewrite H3. destruct (Z.max_spec g n) as [[_ E]|[_ E]]; rewrite E.
        -- right. apply list_elem_of_here.
        -- by left.
      * right. by apply list_elem_of_further.
Qed.

Lemma IsMax_foldl_max (g : Z) (ns : list Z) :
  (∃ n, n ∈ ns ∧ (g <= n)%Z) -> IsMax (foldl Z.max g ns) ns.
Proof.
  intros (n & Hn & Hg). destruct (foldl_max_spec g ns) as (H1 & H2 & H3).
  split; [|done]. destruct H3 as [H3|H3]; [|done].
  pose proof (H2 n Hn).
  replace (foldl Z.max g ns) with n by lia. done.
Qed.

Lemma lengthsIn_app f seg1 seg2 :
  lengthsIn f (seg1 ++ seg2) = lengthsIn f seg1 ++ lengthsIn f seg2.
Proof. unfold lengthsIn. apply map_app. Qed.

Lemma NonNegative_lengthsIn seg :
  NonNegative seg ->
  (∀ n, n ∈ lengthsIn Len.bp seg -> (0 <= n)%Z)
  ∧ (∀ n, n ∈ lengthsIn Len.iscn seg -> (0 <= n)%Z).
Proof.
  intros H. unfold NonNegative in H. rewrite Forall_forall in H.
  split; intros n Hn; unfold lengthsIn in Hn;
    apply list_elem_of_In, in_map_iff in Hn as (bands & <- & Hin);
    by destruct (H _ Hin).
Qed.

(** ** The maxima after the chromosomes of one taxon, and of all taxa *)

Lemma trackedAll_Sound t seg m :
  Sound m ->
  Sound (trackedAll t seg m)
  ∧ max_bp (trackedAll t seg m)
    = foldl Z.max (max_bp m) (lengthsIn Len.bp seg)
  ∧ max_iscn (trackedAll t seg m)
    = foldl Z.max (max_iscn m) (lengthsIn Len.iscn seg).
Proof.
  revert m. induction seg as [|bands seg IH]; intros m Hs; simpl; [done|].
  destruct (tracked_Sound t (lengthOfBands bands) m Hs) as (Hs1 & _ & Hb & Hi).
  destruct (IH _ Hs1) as (Hs2 & Hb2 & Hi2).
  unfold trackedAll in *. simpl. rewrite Hb2, Hi2, Hb, Hi. done.
Qed.

Lemma trackedAll_lookup_ne t t' seg m :
  t ≠ t' -> byTaxid (trackedAll t seg m) !! t' = byTaxid m !! t'.
Proof.
  intros Hne. revert m. induction seg as [|bands seg IH]; intros m; [done|].
  unfold trackedAll in *. simpl. rewrite IH. by apply tracked_lookup_ne.
Qed.

Lemma taxonMax_tracked t c m :
  taxonMax (tracked t c m) t
  = {| Len.bp := Z.max (Len.bp (taxonMax m t)) (Len.bp c);
       Len.iscn := Z.max (Len.iscn (taxonMax m t)) (Len.iscn c) |}.
Proof. unfold taxonMax at 1. by rewrite tracked_lookup_eq. Qed.

Lemma trackedAll_taxonMax t seg m :
  taxonMax (trackedAll t seg m) t
  = {| Len.bp := foldl Z.max (Len.bp (taxonMax m t)) (lengthsIn Len.bp seg);
       Len.iscn :=
         foldl Z.max (Len.iscn (taxonMax m t)) (lengthsIn Len.iscn seg) |}.
Proof.
  revert m. induction seg as [|bands seg IH]; intros m.
  - change (trackedAll t [] m) with m. unfold lengthsIn. cbn [map foldl].
    by destruct (taxonMax m t).
  - change (trackedAll t (bands :: seg) m)
      with (trackedAll t seg (tracked t (lengthOfBands bands) m)).
    rewrite IH. unfold lengthsIn. cbn [map foldl].
    by rewrite taxonMax_tracked.
Qed.

Lemma trackedAll_is_Some t seg m :
  seg ≠ [] -> is_Some (byTaxid (trackedAll t seg m) !! t).
Proof.
  revert m. induction seg as [|bands seg IH]; intros m Hne; [done|].
  change (trackedAll t (bands :: seg) m)
    with (trackedAll t seg (tracked t (lengthOfBands bands) m)).
  destruct seg as [|bands' seg].
  - change (is_Some (byTaxid (tracked t (lengthOfBands bands) m) !! t)).
    rewrite tracked_lookup_eq. eauto.
  - apply IH. done.
Qed.

Lemma trackedAll_lookup_eq t seg m :
  seg ≠ [] ->
  byTaxid (trackedAll t seg m) !! t
  = Some {| Len.bp := foldl Z.max (Len.bp (taxonMax m t)) (lengthsIn Len.bp seg);
            Len.iscn :=
              foldl Z.max (Len.iscn (taxonMax m t)) (lengthsIn Len.iscn seg) |}.
Proof.
  intros Hne. destruct (trackedAll_is_Some t seg m Hne) as [e He].
  rewrite He. f_equal. rewrite <- trackedAll_taxonMax.
  unfold taxonMax. by rewrite He.
Qed.

Lemma trackedAll_monotone t seg m t' e :
  byTaxid m !! t' = Some e ->
  ∃ e', byTaxid (trackedAll t seg m) !! t' = Some e' ∧ lenLe e e'.
Proof.
  revert m e. induction seg as [|bands seg IH]; intros m e He.
  - exists e. split; [done|]. unfold lenLe. lia.
  - destruct (tracked_monotone t (lengthOfBands bands) m t' e He) as (e1 & H1 & L1).
    destruct (IH _ _ H1) as (e2 & H2 & L2).
    exists e2. split; [done|]. unfold lenLe in *. lia.
Qed.

Lemma trackedTaxa_cons t taxids seg segs m :
  trackedTaxa (t :: taxids) (seg :: segs) m
  = trackedTaxa taxids segs (trackedAll t seg m).
Proof. done. Qed.

Lemma trackedTaxa_Sound taxids segs m :
  length taxids = length segs ->
  Sound m ->
  Sound (trackedTaxa taxids segs m)
  ∧ max_bp (trackedTaxa taxids segs m)
    = foldl Z.max (max_bp m) (lengthsIn Len.bp (concat segs))
  ∧ max_iscn (trackedTaxa taxids segs m)
    = foldl Z.max (max_iscn m) (lengthsIn Len.iscn (concat segs)).
Proof.
  revert segs m. induction taxids as [|t taxids IH]; intros [|seg segs] m Hlen Hs;
    try done.
  rewrite trackedTaxa_cons. simpl.
  destruct (trackedAll_Sound t seg m Hs) as (Hs1 & Hb & Hi).
  destruct (IH segs _ ltac:(by injection Hlen) Hs1) as (Hs2 & Hb2 & Hi2).
  rewrite !lengthsIn_app, !foldl_app, <- Hb, <- Hi. done.
Qed.

Lemma trackedTaxa_lookup_notin taxids segs m t :
  t ∉ taxids ->
  byTaxid (trackedTaxa taxids segs m) !! t = byTaxid m !! t.
Proof.
  revert segs m. induction taxids as [|t1 taxids IH]; intros [|seg segs] m Hn;
    try done.
  apply not_elem_of_cons in Hn as [Hne Hn].
  rewrite trackedTaxa_cons, IH by done. by apply trackedAll_lookup_ne.
Qed.

Lemma trackedTaxa_lookup taxids segs m i t seg :
  NoDup taxids ->
  taxids !! i = Some t -> segs !! i = Some seg -> seg ≠ [] ->
  byTaxid (trackedTaxa taxids segs m) !! t
  = Some {| Len.bp := foldl Z.max (Len.bp (taxonMax m t)) (lengthsIn Len.bp seg);
            Len.iscn :=
              foldl Z.max (Len.iscn (taxonMax m t)) (lengthsIn Len.iscn seg) |}.
Proof.
  revert segs m i.
  induction taxids as [|t1 taxids IH]; intros [|seg1 segs] m i Hnd Ht Hs Hne;
    try done.
  apply list.NoDup_cons in Hnd as [Hnotin Hnd].
  rewrite trackedTaxa_cons.
  destruct i as [|i]; simpl in Ht, Hs.
  - injection Ht as ->. injection Hs as ->.
    rewrite trackedTaxa_lookup_notin by done.
    by apply trackedAll_lookup_eq.
  - assert (t1 ≠ t) as Hne1.
    { intros ->. apply Hnotin. by eapply list_elem_of_lookup_2. }
    rewrite (IH segs _ i Hnd Ht Hs Hne).
    unfold taxonMax. by rewrite trackedAll_lookup_ne.
Qed.

(** ** Taxon resolution and the entry point *)

Lemma setTaxids_multi ideo :
  Config.multiorganism (config ideo) = true ->
  setTaxids ideo
  = ((fold_left (fun _ t => t) (Config.taxids (config ideo)) TUndefined,
      Config.taxids (config ideo)),
     setCoordinateSystem "bp" ideo).
Proof. intros H. unfold setTaxids. by rewrite H. Qed.

Lemma setTaxids_single ideo :
  Config.multiorganism (config ideo) = false ->
  let t :=
    match Config.taxid (config ideo) with
    | TUndefined => default TUndefined (Config.taxids (config ideo) !! 0%nat)
    | t => t
    end in
  setTaxids ideo
  = ((t, [t]),
     setConfig (setConfigTaxids [t] (setConfigTaxid t (config ideo))) ideo).
Proof.
  intros H. unfold setTaxids. rewrite H.
  destruct ideo as [[mu tx txs ch db] cs m n bd st]. simpl in *.
  by destruct tx.
Qed.

Lemma setTaxids_frame ideo :
  let ideo1 := (setTaxids ideo).2 in
  maxLength ideo1 = maxLength ideo
  ∧ numChromosomes ideo1 = numChromosomes ideo
  ∧ bandData ideo1 = bandData ideo
  ∧ store ideo1 = store ideo
  ∧ Config.chromosomes (config ideo1) = Config.chromosomes (config ideo)
  ∧ Config.multiorganism (config ideo1) = Config.multiorganism (config ideo)
  ∧ Config.taxids (config ideo1) = (setTaxids ideo).1.2
  ∧ coordinateSystem ideo1
    = if Config.multiorganism (config ideo) then "bp"
      else coordinateSystem ideo.
Proof.
  destruct (Config.multiorganism (config ideo)) eqn:E.
  - rewrite setTaxids_multi by done. done.
  - rewrite setTaxids_single by done. done.
Qed.

Lemma copyChromosomes_inv ideo chrs ideo1 :
  copyChromosomes ideo = Some (chrs, ideo1) ->
  config ideo1 = config ideo
  ∧ maxLength ideo1 = maxLength ideo
  ∧ numChromosomes ideo1 = numChromosomes ideo
  ∧ coordinateSystem ideo1 = coordinateSystem ideo
  ∧ bandData ideo1 = bandData ideo.
Proof.
  unfold copyChromosomes. intros H.
  destruct (Config.chromosomes (config ideo)) as [v|].
  - destruct (Config.multiorganism (config ideo)).
    + by injection H as <- <-.
    + destruct (arrayElements (store ideo) v) as [copy|]; [|done].
      simpl in H. by injection H as <- <-.
  - by injection H as <- <-.
Qed.

Lemma processBandData_inv ideo r ideo' :
  processBandData ideo = Some (r, ideo') ->
  ∃ chrs ideo1,
    copyChromosomes (setTaxids ideo).2 = Some (chrs, ideo1)
    ∧ taxaLoop (setTaxids ideo).1.2 chrs [] ideo1 = Some (r, ideo').
Proof.
  unfold processBandData. intros H.
  destruct (setTaxids ideo) as [[t ts] ideo0]. simpl.
  destruct (copyChromosomes ideo0) as [[chrs ideo1]|]; [|done]. simpl in H.
  destruct (taxaLoop ts chrs [] ideo1) as [[r1 ideo2]|] eqn:Hl; [|done].
  simpl in H. unfold reportPerformance in H.
  injection H as <- <-. by exists chrs, ideo1.
Qed.

Lemma taxaLoop_banded taxids chrs acc ideo :
  Banded ideo ->
  taxaLoop taxids chrs acc ideo = bandedLoop taxids chrs acc ideo.
Proof.
  revert acc ideo. induction taxids as [|t taxids IH]; intros acc ideo Hb;
    [done|].
  simpl. rewrite setChromosomesByTaxid_banded by done.
  destruct (setChrsByTaxidsWithBands t chrs acc ideo) as [[r1 ideo1]|] eqn:Hs;
    [|done].
  simpl. apply IH.
  apply setChrsByTaxidsWithBands_Assembled in Hs as (? & ? & _ & _ & HA).
  by eapply Assembled_Banded.
Qed.

Lemma Assembled_Unbanded t names ideo ideo' :
  Assembled t names ideo ideo' -> Unbanded ideo -> Unbanded ideo'.
Proof.
  intros (_ & _ & _ & Hc & Hm & _) H. unfold Unbanded. by rewrite Hc, Hm.
Qed.

Lemma Unbanded_OnPath ideo : Unbanded ideo -> OnPath ideo.
Proof. intros [H _]. right. by right. Qed.

Lemma Banded_OnPath ideo : Banded ideo -> OnPath ideo.
Proof. intros [H|H]; [by left|right; by left]. Qed.

(** What the unbanded path leaves of [ideo.maxLength]. *)
Lemma setChromosomesByTaxid_unbanded_frame t chrs acc ideo r ideo' :
  Unbanded ideo ->
  setChromosomesByTaxid t chrs acc ideo = Some (r, ideo') ->
  r = acc
  ∧ byTaxid (maxLength ideo') = byTaxid (maxLength ideo)
  ∧ max_iscn (maxLength ideo') = max_iscn (maxLength ideo)
  ∧ (max_bp (maxLength ideo) <= max_bp (maxLength ideo'))%Z.
Proof.
  intros Hu H.
  apply setChromosomesByTaxid_unbanded_inv in H
    as (copy & ideo1 & elems & ns & _ & Hw & _ & _ & -> & ->); [|done].
  apply writeChromosomes_inv in Hw as (l & o & _ & _ & ->). simpl.
  repeat split; try done.
  by destruct (foldl_max_spec (max_bp (maxLength ideo)) ns) as (H1 & _).
Qed.

Lemma taxaLoop_unbanded_frame taxids chrs acc ideo r ideo' :
  Unbanded ideo ->
  taxaLoop taxids chrs acc ideo = Some (r, ideo') ->
  r = acc
  ∧ byTaxid (maxLength ideo') = byTaxid (maxLength ideo)
  ∧ max_iscn (maxLength ideo') = max_iscn (maxLength ideo)
  ∧ (max_bp (maxLength ideo) <= max_bp (maxLength ideo'))%Z.
Proof.
  revert acc ideo. induction taxids as [|t taxids IH]; intros acc ideo Hu H;
    simpl in H.
  - injection H as <- <-. repeat split; try done.
  - destruct (setChromosomesByTaxid t chrs acc ideo) as [[r1 ideo1]|] eqn:Hs;
      [|done].
    simpl in H.
    pose proof (setChromosomesByTaxid_Assembled _ _ _ _ _ _
                  (Unbanded_OnPath _ Hu) Hs) as [names HA].
    pose proof (Assembled_Unbanded _ _ _ _ HA Hu) as Hu1.
    apply setChromosomesByTaxid_unbanded_frame in Hs as (-> & Hb & Hi & Hle);
      [|done].
    apply IH in H as (-> & Hb' & Hi' & Hle'); [|done].
    rewrite Hb', Hi', Hb, Hi. repeat split; try done. lia.
Qed.

Lemma setTaxids_Unbanded ideo : Unbanded ideo -> Unbanded (setTaxids ideo).2.
Proof.
  intros [Hc Hm]. pose proof (setTaxids_frame ideo) as F. simpl in F.
  destruct F as (_ & _ & _ & _ & _ & Hm' & _ & Hc').
  rewrite Hm in Hc'. unfold Unbanded. by rewrite Hm', Hc', Hc, Hm.
Qed.

Lemma setTaxids_Banded ideo : Banded ideo -> Banded (setTaxids ideo).2.
Proof.
  intros Hb. pose proof (setTaxids_frame ideo) as F. simpl in F.
  destruct F as (_ & _ & _ & _ & _ & Hm' & _ & Hc').
  unfold Banded. rewrite Hm', Hc'.
  destruct (Config.multiorganism (config ideo)) eqn:E; [by right|].
  destruct Hb as [Hb|Hb]; [by left|]. by rewrite E in Hb.
Qed.

Lemma copyChromosomes_Banded ideo chrs ideo1 :
  copyChromosomes ideo = Some (chrs, ideo1) -> Banded ideo -> Banded ideo1.
Proof.
  intros H Hb. apply copyChromosomes_inv in H as (Hc & _ & _ & Hcs & _).
  unfold Banded. by rewrite Hc, Hcs.
Qed.

Lemma copyChromosomes_Unbanded ideo chrs ideo1 :
  copyChromosomes ideo = Some (chrs, ideo1) -> Unbanded ideo -> Unbanded ideo1.
Proof.
  intros H Hb. apply copyChromosomes_inv in H as (Hc & _ & _ & Hcs & _).
  unfold Unbanded. by rewrite Hc, Hcs.
Qed.

Lemma setTaxids_OnPath ideo : OnPath ideo -> OnPath (setTaxids ideo).2.
Proof.
  intros Hp. pose proof (setTaxids_frame ideo) as F. simpl in F.
  destruct F as (_ & _ & _ & _ & _ & Hm' & _ & Hc').
  unfold OnPath. rewrite Hm', Hc'.
  destruct (Config.multiorganism (config ideo)) eqn:E; [right; by left|].
  destruct Hp as [Hp|[Hp|Hp]]; [by left| |right; by right].
  by rewrite E in Hp.
Qed.

(** The resolved taxid list is what [config.taxids] holds afterwards. *)
Lemma processBandData_taxids ideo r ideo' :
  OnPath (setTaxids ideo).2 -> NoDup (setTaxids ideo).1.2 ->
  processBandData ideo = Some (r, ideo') ->
  Config.taxids (config ideo') = (setTaxids ideo).1.2.
Proof.
  intros Hp Hnd H.
  apply processBandData_inv in H as (chrs & ideo1 & Hc & Hl).
  pose proof (setTaxids_frame ideo) as F. simpl in F.
  destruct F as (_ & _ & _ & _ & _ & _ & Htx & _).
  pose proof (copyChromosomes_inv _ _ _ Hc) as (Hcfg & _ & _ & Hcs & _).
  apply taxaLoop_Assembled in Hl as (_ & _ & Htx'); [|..|done].
  - by rewrite Htx', Hcfg.
  - unfold OnPath in *. by rewrite Hcfg, Hcs.
Qed.

(** ** Runs that return *)

Lemma lookupChr_keys c (bandsByChr : BandsByChr) :
  c ∈ keys bandsByChr ->
  Forall (fun p => p.2 ≠ []) bandsByChr ->
  ∃ bands, lookupChr c bandsByChr = Some bands ∧ bands ≠ [].
Proof.
  induction bandsByChr as [|[c' bands'] b IH]; simpl; intros Hin Hne.
  - by apply elem_of_nil in Hin.
  - apply list.Forall_cons in Hne as [Hne1 Hne].
    destruct (String.eqb_spec c' c) as [->|Hc].
    + by exists bands'.
    + apply elem_of_cons in Hin as [->|Hin]; [done|]. by apply IH.
Qed.

Lemma getBandsArray_returns c bandsByChr t ideo bands :
  lookupChr c bandsByChr = Some bands -> bands ≠ [] ->
  ∃ ideo', getBandsArray c bandsByChr t ideo = Some ([bands], ideo').
Proof.
  intros Hl Hne. unfold getBandsArray. rewrite Hl. simpl.
  apply last_is_Some in Hne as [lastBand ->]. simpl. eauto.
Qed.

Lemma bandsLoop_returns chrs bandsByChr t acc ideo :
  (∀ c, c ∈ chrs ->
        ∃ bands, lookupChr c bandsByChr = Some bands ∧ bands ≠ []) ->
  ∃ r ideo', bandsLoop chrs bandsByChr t acc ideo = Some (r, ideo').
Proof.
  revert acc ideo. induction chrs as [|c chrs IH]; intros acc ideo H; simpl.
  - eauto.
  - destruct (H c) as (bands & Hl & Hne); [apply list_elem_of_here|].
    destruct (getBandsArray_returns c bandsByChr t ideo bands Hl Hne)
      as [ideo1 ->].
    simpl. apply IH. intros c' Hc'. apply H. by apply list_elem_of_further.
Qed.

Lemma ensureChromosomes_writable ideo :
  ChromosomesUsable ideo ->
  ∃ l o,
    Config.chromosomes (config (ensureChromosomes ideo)) = Some (VRef l)
    ∧ store (ensureChromosomes ideo) !! l = Some o.
Proof.
  unfold ChromosomesUsable, ensureChromosomes.
  destruct (Config.chromosomes (config ideo)) as [[| |l]|] eqn:E; simpl;
    intros H; try done.
  - exists (length (store ideo)), emptyObject. split; [done|].
    by apply list_lookup_middle.
  - destruct H as [o Ho]. exists l, o. by rewrite E.
  - exists (length (store ideo)), emptyObject. split; [done|].
    by apply list_lookup_middle.
Qed.

Lemma ensureChromosomes_length ideo :
  (length (store ideo) <= length (store (ensureChromosomes ideo)))%nat.
Proof.
  unfold ensureChromosomes.
  destruct (Config.chromosomes (config ideo)) as [[| |l]|]; simpl;
    rewrite ?length_app; lia.
Qed.

Lemma Resolves_longer sigma sigma' v :
  (length sigma <= length sigma')%nat -> Resolves sigma v -> Resolves sigma' v.
Proof.
  unfold Resolves. destruct v as [| |l]; simpl; try done.
  intros Hlen. rewrite !fmap_is_Some, !lookup_lt_is_Some. lia.
Qed.

Lemma setChrsByTaxidsWithBands_returns t chrs acc ideo :
  Resolves (store ideo) chrs ->
  ChromosomesUsable ideo ->
  (∀ seen, ∃ bandsByChr,
     parseBands (bandData ideo !! t) t seen = Some bandsByChr
     ∧ Forall (fun p => p.2 ≠ []) bandsByChr) ->
  ∃ r ideo', setChrsByTaxidsWithBands t chrs acc ideo = Some (r, ideo').
Proof.
  intros [seen Hd] Hu Hp. destruct (Hp seen) as (b & Hb & Hne).
  destruct (ensureChromosomes_writable ideo Hu) as (l & o & Hc & Ho).
  change (setChrsByTaxidsWithBands t chrs acc ideo) with
    (seen ← deref (store ideo) chrs;
     bandsByChr ← parseBands (bandData ideo !! t) t seen;
     ideo1 ← writeChromosomes t
               (EList (map EName (sort naturalSort (keys bandsByChr))))
               (ensureChromosomes ideo);
     stored ← readChromosomes t ideo1;
     n ← lengthOf stored;
     bandsLoop (sort naturalSort (keys bandsByChr)) bandsByChr t acc
       (setNumChromosomes (numChromosomes ideo1 + n) ideo1)).
  rewrite Hd. simpl. rewrite Hb. simpl.
  destruct (writeChromosomes t _ (ensureChromosomes ideo)) as [ideo1|] eqn:Hw.
  - simpl. rewrite (readChromosomes_write_eq _ _ _ _ Hw). simpl.
    apply bandsLoop_returns. intros c Hc'.
    apply lookupChr_keys; [|done].
    by rewrite <- (sort_Permutation naturalSort (keys b)).
  - unfold writeChromosomes in Hw. rewrite Hc, Ho in Hw. done.
Qed.

Lemma setChrsByTaxidsWithBands_preserves t chrs acc ideo r ideo' :
  setChrsByTaxidsWithBands t chrs acc ideo = Some (r, ideo') ->
  Resolves (store ideo) chrs ->
  Resolves (store ideo') chrs ∧ ChromosomesUsable ideo'.
Proof.
  intros H Hr.
  apply setChrsByTaxidsWithBands_inv in H
    as (seen & b & ideo1 & seg & _ & _ & Hw & _ & _ & _ & ->).
  apply writeChromosomes_inv in Hw as (l & o & Hc & Ho & ->).
  split.
  - apply (Resolves_longer (store ideo)); [|done]. simpl.
    rewrite length_insert. apply ensureChromosomes_length.
  - unfold ChromosomesUsable. simpl. rewrite Hc.
    apply lookup_lt_is_Some. rewrite length_insert.
    by eapply lookup_lt_Some.
Qed.

Lemma taxaLoop_banded_returns taxids chrs acc ideo :
  Banded ideo ->
  Resolves (store ideo) chrs ->
  ChromosomesUsable ideo ->
  ParserContract (bandData ideo) taxids ->
  ∃ r ideo', taxaLoop taxids chrs acc ideo = Some (r, ideo').
Proof.
  revert acc ideo.
  induction taxids as [|t taxids IH]; intros acc ideo Hb Hr Hu Hp; simpl.
  - eauto.
  - rewrite setChromosomesByTaxid_banded by done.
    destruct (setChrsByTaxidsWithBands_returns t chrs acc ideo Hr Hu)
      as (r1 & ideo1 & Hs).
    { intros seen. apply Hp. apply list_elem_of_here. }
    rewrite Hs. simpl.
    pose proof (setChrsByTaxidsWithBands_preserves _ _ _ _ _ _ Hs Hr)
      as [Hr1 Hu1].
    apply setChrsByTaxidsWithBands_Assembled in Hs as (? & ? & _ & _ & HA).
    pose proof (Assembled_Banded _ _ _ _ HA Hb) as Hb1.
    destruct HA as (_ & _ & _ & _ & _ & _ & Hbd).
    apply IH; try done.
    intros t' seen Ht'. rewrite Hbd. apply Hp. by apply list_elem_of_further.
Qed.

Lemma copyChromosomes_returns ideo :
  Configured ideo ->
  ∃ chrs ideo1,
    copyChromosomes ideo = Some (chrs, ideo1)
    ∧ Resolves (store ideo1) chrs
    ∧ ChromosomesUsable ideo1.
Proof.
  unfold Configured, copyChromosomes, ChromosomesUsable, Resolves.
  destruct (Config.chromosomes (config ideo)) as [[| |l]|] eqn:E; intros H;
    try done.
  - rewrite H. eexists _, _. split; [done|]. rewrite E. by split.
  - destruct H as (o & Ho & Ha).
    destruct (Config.multiorganism (config ideo)) eqn:Em.
    + eexists _, _. split; [done|]. rewrite E. simpl. rewrite Ho. by split.
    + simpl. rewrite Ho. simpl. rewrite (Ha eq_refl). simpl.
      eexists _, _. split; [done|]. simpl. rewrite E. split.
      * rewrite list_lookup_middle by done. done.
      * apply lookup_lt_is_Some. rewrite length_app.
        apply lookup_lt_Some in Ho. lia.
  - eexists _, _. split; [done|]. rewrite E. by split.
Qed.

Lemma setTaxids_Configured ideo : Configured ideo -> Configured (setTaxids ideo).2.
Proof.
  pose proof (setTaxids_frame ideo) as F. simpl in F.
  destruct F as (_ & _ & _ & Hst & Hch & Hmu & _).
  unfold Configured. by rewrite Hch, Hst, Hmu.
Qed.

(** On the banded path, with an accepted configuration and a parser that
    keeps its contract, [processBandData] returns. *)
Lemma processBandData_banded_returns ideo :
  Banded ideo ->
  Configured ideo ->
  ParserContract (bandData ideo) (setTaxids ideo).1.2 ->
  ∃ r ideo', processBandData ideo = Some (r, ideo').
Proof.
  intros Hb Hc Hp.
  destruct (copyChromosomes_returns _ (setTaxids_Configured _ Hc))
    as (chrs & ideo1 & Hcopy & Hr & Hu).
  pose proof (copyChromosomes_Banded _ _ _ Hcopy (setTaxids_Banded _ Hb)) as Hb1.
  pose proof (setTaxids_frame ideo) as F. simpl in F.
  destruct F as (_ & _ & Hbd0 & _).
  pose proof (copyChromosomes_inv _ _ _ Hcopy) as (_ & _ & _ & _ & Hbd1).
  destruct (taxaLoop_banded_returns (setTaxids ideo).1.2 chrs [] ideo1 Hb1 Hr Hu)
    as (r & ideo' & Hl).
  { by rewrite Hbd1, Hbd0. }
  exists r, ideo'. unfold processBandData.
  destruct (setTaxids ideo) as [[t ts] ideo0]. simpl in *.
  rewrite Hcopy. simpl. rewrite Hl. done.
Qed.

(** ** The claims about taxon resolution and the choice of the path *)

(** C1. When [config.multiorganism] is true, [setTaxids] sets the
    coordinate system to ["bp"]; all the same [setChromosomesByTaxid] hands
    every taxon to [setChrsByTaxidsWithBands], whatever the coordinate
    system, so that the loop of [processBandData] is the loop over
    [setChrsByTaxidsWithBands], never the unbanded branch. *)
Theorem multiorganism_forces_bp_and_banded_path (ideo : Ideo) :
  Config.multiorganism (config ideo) = true ->
  coordinateSystem (setTaxids ideo).2 = "bp"
  ∧ (∀ taxid chrs bandsArray ideo2,
       Config.multiorganism (config ideo2) = true ->
       setChromosomesByTaxid taxid chrs bandsArray ideo2
       = setChrsByTaxidsWithBands taxid chrs bandsArray ideo2)
  ∧ processBandData ideo
    = ('(chrs, ideo1) ← copyChromosomes (setTaxids ideo).2;
       bandedLoop (setTaxids ideo).1.2 chrs [] ideo1).
Proof.
  intros Hm. split; [|split].
  - by rewrite setTaxids_multi.
  - intros t chrs acc ideo2 H2. apply setChromosomesByTaxid_banded. by right.
  - assert (Banded (setTaxids ideo).2) as Hb.
    { apply setTaxids_Banded. by right. }
    unfold processBandData.
    destruct (setTaxids ideo) as [[t ts] ideo0]. simpl in *.
    destruct (copyChromosomes ideo0) as [[chrs ideo1]|] eqn:Hc; [|done].
    simpl. rewrite taxaLoop_banded by (by eapply copyChromosomes_Banded).
    by destruct (bandedLoop ts chrs [] ideo1) as [[? ?]|].
Qed.

(** C9. In single-organism mode [setTaxids] takes [config.taxid], or, when
    that is [undefined], the first element [config.taxids[0]]; it returns
    that taxid with the singleton list holding it, and stores the
    singleton list in [config.taxids] (and the taxid in [config.taxid]). *)
Theorem setTaxids_single_organism (ideo : Ideo) :
  Config.multiorganism (config ideo) = false ->
  let primary :=
    match Config.taxid (config ideo) with
    | TUndefined => default TUndefined (Config.taxids (config ideo) !! 0%nat)
    | t => t
    end in
  (setTaxids ideo).1 = (primary, [primary])
  ∧ Config.taxids (config (setTaxids ideo).2) = [primary]
  ∧ Config.taxid (config (setTaxids ideo).2) = primary
  ∧ (∀ first rest,
       Config.taxid (config ideo) = TUndefined ->
       Config.taxids (config ideo) = first :: rest ->
       primary = first).
Proof.
  intros Hm primary. rewrite setTaxids_single by done. fold primary.
  repeat split. intros first rest Ht Hts. unfold primary. by rewrite Ht, Hts.
Qed.

(** C10. On the unbanded path neither [setChromosomesByTaxid] nor the whole
    of [processBandData] creates or changes a per-taxon entry of
    [ideo.maxLength], and [ideo.maxLength.iscn] stays as it was; only
    [ideo.maxLength.bp] can change, and it does not decrease. *)
Theorem unbanded_path_leaves_taxon_maxima (ideo : Ideo) :
  Unbanded ideo ->
  (∀ taxid chrs bandsArray r ideo',
     setChromosomesByTaxid taxid chrs bandsArray ideo = Some (r, ideo') ->
     byTaxid (maxLength ideo') = byTaxid (maxLength ideo)
     ∧ max_iscn (maxLength ideo') = max_iscn (maxLength ideo)
     ∧ (max_bp (maxLength ideo) <= max_bp (maxLength ideo'))%Z)
  ∧ (∀ r ideo',
       processBandData ideo = Some (r, ideo') ->
       byTaxid (maxLength ideo') = byTaxid (maxLength ideo)
       ∧ max_iscn (maxLength ideo') = max_iscn (maxLength ideo)
       ∧ (max_bp (maxLength ideo) <= max_bp (maxLength ideo'))%Z).
Proof.
  intros Hu. split.
  - intros t chrs acc r ideo' H.
    by apply setChromosomesByTaxid_unbanded_frame in H as (_ & ? & ? & ?).
  - intros r ideo' H.
    apply processBandData_inv in H as (chrs & ideo1 & Hc & Hl).
    pose proof (copyChromosomes_Unbanded _ _ _ Hc (setTaxids_Unbanded _ Hu))
      as Hu1.
    apply taxaLoop_unbanded_frame in Hl as (_ & Hb & Hi & Hle); [|done].
    apply copyChromosomes_inv in Hc as (_ & Hm & _).
    pose proof (setTaxids_frame ideo) as F. simpl in F.
    destruct F as (Hm0 & _).
    by rewrite Hb, Hi, Hm, Hm0 in *.
Qed.

(** ** The claims about the chromosome count and the returned bands *)

(** C6. When [processBandData] has run, on the banded or on the unbanded
    path, over distinct taxa, every processed taxon has a chromosome list
    under [ideo.config.chromosomes[taxid]], and [ideo.numChromosomes] is
    its starting value plus the sum of the lengths of these lists. *)
Theorem numChromosomes_is_sum_of_list_lengths (ideo : Ideo)
    (r : list (list Band.t)) (ideo' : Ideo) :
  OnPath ideo ->
  NoDup (setTaxids ideo).1.2 ->
  processBandData ideo = Some (r, ideo') ->
  Config.taxids (config ideo') = (setTaxids ideo).1.2
  ∧ ∃ lists,
      Forall2 (fun t l => readChromosomes t ideo' = Some (EList l))
        (Config.taxids (config ideo')) lists
      ∧ numChromosomes ideo' = (numChromosomes ideo + sumOfLengths lists)%Z.
Proof.
  intros Hp0 Hnd H. pose proof (setTaxids_OnPath _ Hp0) as Hp.
  pose proof (processBandData_taxids _ _ _ Hp Hnd H) as Htx.
  split; [done|]. rewrite Htx.
  apply processBandData_inv in H as (chrs & ideo1 & Hc & Hl).
  pose proof (setTaxids_frame ideo) as F. simpl in F.
  destruct F as (_ & Hn0 & _).
  pose proof (copyChromosomes_inv _ _ _ Hc) as (Hcfg & _ & Hn1 & Hcs & _).
  apply taxaLoop_Assembled in Hl as ((lists & HF & Hsum) & _ & _); [|..|done].
  - exists lists. split; [done|]. by rewrite Hsum, Hn1, Hn0.
  - unfold OnPath in *. by rewrite Hcfg, Hcs.
Qed.

(** Whatever the comparison function: on the banded path
    [processBandData] returns the concatenation, over the resolved taxid
    list in its order, of the band lists of each taxon, taken in the order
    in which [sort] leaves the chromosome names.  It does return when the
    configuration is accepted and the parser keeps its contract.  On the
    unbanded path it returns the empty list. *)
Lemma processBandData_concat (ideo : Ideo) :
  (Banded ideo ->
   Configured ideo ->
   ParserContract (bandData ideo) (setTaxids ideo).1.2 ->
   ∃ r ideo', processBandData ideo = Some (r, ideo'))
  ∧ ∀ r ideo',
      processBandData ideo = Some (r, ideo') ->
      (Banded ideo ->
       ∃ segs,
         Forall2 (TaxonBands (bandData ideo)) (setTaxids ideo).1.2 segs
         ∧ r = concat segs)
      ∧ (Unbanded ideo -> r = []).
Proof.
  split; [apply processBandData_banded_returns|].
  intros r ideo' H.
  apply processBandData_inv in H as (chrs & ideo1 & Hc & Hl).
  pose proof (setTaxids_frame ideo) as F. simpl in F.
  destruct F as (_ & _ & Hbd0 & _).
  split.
  - intros Hb.
    pose proof (copyChromosomes_Banded _ _ _ Hc (setTaxids_Banded _ Hb)) as Hb1.
    apply copyChromosomes_inv in Hc as (_ & _ & _ & _ & Hbd1).
    apply taxaLoop_banded_inv in Hl as (segs & Hs & -> & _); [|done].
    exists segs. split; [|done]. by rewrite <- Hbd0, <- Hbd1.
  - intros Hu.
    pose proof (copyChromosomes_Unbanded _ _ _ Hc (setTaxids_Unbanded _ Hu))
      as Hu1.
    by apply taxaLoop_unbanded_frame in Hl as (-> & _).
Qed.

(** With a consistent comparison function the names that [sort] leaves
    are in order. *)
Lemma TaxonBands_sorted bd t seg :
  Consistent naturalSort -> TaxonBands bd t seg -> SortedTaxonBands bd t seg.
Proof.
  intros Hc (seen & b & Hp & Hseg & Hne).
  exists seen, b, (sort naturalSort (keys b)).
  split; [done|]. split; [apply sort_Permutation|].
  split; [by apply sort_StronglySorted|done].
Qed.

(** ** The claims about the maxima *)

Lemma IsMax_lengthsIn (f : Len.t -> Z) seg :
  seg ≠ [] ->
  Forall (fun bands => (0 <= f (lengthOfBands bands))%Z) seg ->
  IsMax (foldl Z.max 0%Z (lengthsIn f seg)) (lengthsIn f seg).
Proof.
  intros Hne Hpos. apply IsMax_foldl_max.
  destruct seg as [|bands seg]; [done|].
  exists (f (lengthOfBands bands)). split; [apply list_elem_of_here|].
  by inversion Hpos.
Qed.

Lemma NonNegative_bp seg :
  NonNegative seg ->
  Forall (fun bands => (0 <= Len.bp (lengthOfBands bands))%Z) seg.
Proof. apply Forall_impl. by intros ? [? ?]. Qed.

Lemma NonNegative_iscn seg :
  NonNegative seg ->
  Forall (fun bands => (0 <= Len.iscn (lengthOfBands bands))%Z) seg.
Proof. apply Forall_impl. by intros ? [? ?]. Qed.

Lemma trackedTaxa_monotone taxids segs m t e :
  byTaxid m !! t = Some e ->
  ∃ e', byTaxid (trackedTaxa taxids segs m) !! t = Some e' ∧ lenLe e e'.
Proof.
  revert segs m e. induction taxids as [|t1 taxids IH]; intros segs m e He.
  - exists e. split; [done|]. unfold lenLe. lia.
  - destruct segs as [|seg segs].
    + exists e. split; [done|]. unfold lenLe. lia.
    + rewrite trackedTaxa_cons.
      destruct (trackedAll_monotone t1 seg m t e He) as (e1 & H1 & L1).
      destruct (IH segs _ _ H1) as (e2 & H2 & L2).
      exists e2. split; [done|]. unfold lenLe in *. lia.
Qed.

(** C2. On the banded path, from a fresh [ideo.maxLength] and over
    distinct taxa: when the configuration is accepted and the parser
    keeps its contract (no empty band list), [processBandData] returns;
    and when it has returned, with no negative stop coordinate, the entry
    of every taxon that has a chromosome holds the maximum of the last
    bands' [iscn.stop] and of the last bands' [bp.stop] over the
    chromosomes of that taxon, and the global maxima are the maxima of
    these stop coordinates over all chromosomes of all taxa. *)
Theorem maxima_are_the_maximal_stops (ideo : Ideo) :
  Banded ideo ->
  maxLength ideo = freshMaxLength ->
  NoDup (setTaxids ideo).1.2 ->
  (Configured ideo ->
   ParserContract (bandData ideo) (setTaxids ideo).1.2 ->
   ∃ r ideo', processBandData ideo = Some (r, ideo'))
  ∧ ∀ r ideo',
      processBandData ideo = Some (r, ideo') ->
      NonNegative r ->
      ∃ segs,
        Forall2 (TaxonBands (bandData ideo)) (setTaxids ideo).1.2 segs
        ∧ r = concat segs
        ∧ Forall2
            (fun t seg =>
               seg ≠ [] ->
               ∃ e, byTaxid (maxLength ideo') !! t = Some e
                    ∧ IsMax (Len.iscn e) (lengthsIn Len.iscn seg)
                    ∧ IsMax (Len.bp e) (lengthsIn Len.bp seg))
            (setTaxids ideo).1.2 segs
        ∧ (r ≠ [] ->
           IsMax (max_iscn (maxLength ideo')) (lengthsIn Len.iscn r)
           ∧ IsMax (max_bp (maxLength ideo')) (lengthsIn Len.bp r)).
Proof.
  intros Hb Hfresh Hnd. split; [by apply processBandData_banded_returns|].
  intros r ideo' H Hpos.
  apply processBandData_inv in H as (chrs & ideo1 & Hc & Hl).
  pose proof (setTaxids_frame ideo) as F. simpl in F.
  destruct F as (Hm0 & _ & Hbd0 & _).
  pose proof (copyChromosomes_Banded _ _ _ Hc (setTaxids_Banded _ Hb)) as Hb1.
  apply copyChromosomes_inv in Hc as (_ & Hm1 & _ & _ & Hbd1).
  apply taxaLoop_banded_inv in Hl as (segs & Hs & -> & Hm); [|done].
  rewrite Hm1, Hm0, Hfresh in Hm. simpl in Hpos |- *.
  assert (length (setTaxids ideo).1.2 = length segs) as Hlen
    by (by eapply Forall2_length).
  exists segs. split; [by rewrite <- Hbd0, <- Hbd1|]. split; [done|].
  split.
  - apply Forall2_same_length_lookup_2; [done|].
    intros i t seg Ht Hseg Hne.
    assert (NonNegative seg) as Hpos'.
    { unfold NonNegative in Hpos. rewrite Forall_concat in Hpos.
      by eapply Forall_lookup_1. }
    eexists. split.
    + rewrite Hm. by eapply trackedTaxa_lookup.
    + simpl. split.
      * apply IsMax_lengthsIn; [done|by apply NonNegative_iscn].
      * apply IsMax_lengthsIn; [done|by apply NonNegative_bp].
  - intros Hne.
    destruct (trackedTaxa_Sound (setTaxids ideo).1.2 segs freshMaxLength Hlen
                fresh_Sound) as (_ & Hbp & Hiscn).
    rewrite Hm, Hbp, Hiscn. simpl. split.
    + apply IsMax_lengthsIn; [done|by apply NonNegative_iscn].
    + apply IsMax_lengthsIn; [done|by apply NonNegative_bp].
Qed.

(** C3, amended to the banded path.  Every call of [getBandsArray] (one
    per chromosome) leaves each per-taxon maximum at least as large as it
    was; and if [ideo.maxLength] was sound before the call (as the fresh
    [{bp: 0, iscn: 0}] is), it is sound after it and the global maxima are
    the maxima over the per-taxon maxima.  The same holds for a whole run
    of [processBandData] on the banded path. *)
Theorem banded_maxima_grow_and_global_is_max_over_taxa
    (chromosome : string) (bandsByChr : BandsByChr) (taxid : Taxid)
    (ideo : Ideo) (r : list (list Band.t)) (ideo' : Ideo) :
  getBandsArray chromosome bandsByChr taxid ideo = Some (r, ideo') ->
  (∀ t e, byTaxid (maxLength ideo) !! t = Some e ->
          ∃ e', byTaxid (maxLength ideo') !! t = Some e' ∧ lenLe e e')
  ∧ (Sound (maxLength ideo) ->
     Sound (maxLength ideo') ∧ GlobalMaxima (maxLength ideo'))
  ∧ Sound freshMaxLength
  ∧ (∀ ideo0 r0 ideo0',
       Banded ideo0 -> processBandData ideo0 = Some (r0, ideo0') ->
       (∀ t e, byTaxid (maxLength ideo0) !! t = Some e ->
               ∃ e', byTaxid (maxLength ideo0') !! t = Some e' ∧ lenLe e e')
       ∧ (Sound (maxLength ideo0) -> Sound (maxLength ideo0'))).
Proof.
  intros H.
  apply getBandsArray_inv in H as (bands & lastBand & _ & _ & _ & ->).
  change (maxLength (setMaxLength ?m ideo)) with m.
  split; [|split; [|split]].
  - intros t e He. by apply tracked_monotone.
  - intros Hs.
    by destruct (tracked_Sound taxid (lastStops lastBand) _ Hs) as (? & ? & _).
  - apply fresh_Sound.
  - intros ideo0 r0 ideo0' Hb H.
    apply processBandData_inv in H as (chrs & ideo1 & Hc & Hl).
    pose proof (setTaxids_frame ideo0) as F. simpl in F.
    destruct F as (Hm0 & _).
    pose proof (copyChromosomes_Banded _ _ _ Hc (setTaxids_Banded _ Hb)) as Hb1.
    apply copyChromosomes_inv in Hc as (_ & Hm1 & _).
    apply taxaLoop_banded_inv in Hl as (segs & Hs & _ & Hm); [|done].
    rewrite Hm1, Hm0 in Hm. rewrite Hm. split.
    + intros t e He. by apply trackedTaxa_monotone.
    + intros Hsound.
      assert (length (setTaxids ideo0).1.2 = length segs) as Hlen
        by (by eapply Forall2_length).
      by destruct (trackedTaxa_Sound _ _ _ Hlen Hsound).
Qed.

(** ** The copy of the configured chromosomes *)

(** One organism: [chrs] is a new Array, a copy of the configured one. *)
Lemma copyChromosomes_single ideo l o chrs ideo1 :
  Config.multiorganism (config ideo) = false ->
  Config.chromosomes (config ideo) = Some (VRef l) ->
  store ideo !! l = Some o ->
  copyChromosomes ideo = Some (chrs, ideo1) ->
  isArray o = true
  ∧ chrs = VRef (length (store ideo))
  ∧ ideo1 = setStore (store ideo ++ [arrayOf (elements o)]) ideo.
Proof.
  intros Hm Hc Ho H. unfold copyChromosomes in H. rewrite Hc, Hm in H.
  simpl in H. rewrite Ho in H. simpl in H.
  destruct (isArray o); [|done]. simpl in H. by injection H as <- <-.
Qed.

(** Several organisms: [chrs] is the configured collection itself, and
    nothing is allocated. *)
Lemma copyChromosomes_multi ideo v :
  Config.multiorganism (config ideo) = true ->
  Config.chromosomes (config ideo) = Some v ->
  copyChromosomes ideo = Some (v, ideo).
Proof. intros Hm Hc. unfold copyChromosomes. by rewrite Hc, Hm. Qed.

Lemma arrayElements_lookup sigma l o :
  sigma !! l = Some o -> isArray o = true ->
  arrayElements sigma (VRef l) = Some (elements o).
Proof. intros Ho Ha. simpl. rewrite Ho. simpl. by rewrite Ha. Qed.

Lemma lengthsLoop_returns es ideo :
  Forall (fun e => is_Some (lengthOf e)) es ->
  ∃ ideo', lengthsLoop es ideo = Some ideo'.
Proof.
  intros H. revert ideo. induction H as [|e es [n Hn] _ IH]; intros ideo; simpl.
  - eauto.
  - rewrite Hn. simpl. apply IH.
Qed.

Lemma setChromosomesByTaxid_unbanded_returns t l l' o a acc ideo :
  Unbanded ideo ->
  Config.chromosomes (config ideo) = Some (VRef l) ->
  store ideo !! l = Some o ->
  l' ≠ l ->
  store ideo !! l' = Some a ->
  isArray a = true ->
  Forall (fun e => is_Some (lengthOf e)) (elements a) ->
  ∃ r ideo', setChromosomesByTaxid t (VRef l') acc ideo = Some (r, ideo').
Proof.
  intros Hu Hc Ho Hne Ha Harr Hlen.
  set (ideo1 :=
         setStore (<[l:=setProp o t (EList (elements a))]> (store ideo)) ideo).
  assert (writeChromosomes t (EList (elements a)) ideo = Some ideo1) as Hw.
  { unfold writeChromosomes. by rewrite Hc, Ho. }
  assert (arrayElements (store ideo1) (VRef l') = Some (elements a)) as He.
  { apply arrayElements_lookup; [|done]. simpl.
    by rewrite list_lookup_insert_ne. }
  destruct (lengthsLoop_returns (elements a)
              (setNumChromosomes
                 (numChromosomes ideo1 + Z.of_nat (length (elements a))) ideo1)
              Hlen) as [ideo' Hl].
  exists acc, ideo'. unfold setChromosomesByTaxid.
  destruct (Unbanded_eqb _ Hu) as [E1 E2]. rewrite E1, E2.
  rewrite (arrayElements_lookup _ _ _ Ha Harr). bind_step.
  rewrite Hw. bind_step.
  rewrite (readChromosomes_write_eq _ _ _ _ Hw). bind_step.
  change (lengthOf (EList (elements a)))
    with (Some (Z.of_nat (length (elements a)))). bind_step.
  change (store (setNumChromosomes ?n ideo1)) with (store ideo1).
  rewrite He. bind_step. rewrite Hl. done.
Qed.

(** On the unbanded path, with the chromosomes configured as an Array
    whose elements all have a [.length], [processBandData] returns. *)
Lemma processBandData_unbanded_returns ideo l o :
  Unbanded ideo ->
  Config.chromosomes (config ideo) = Some (VRef l) ->
  store ideo !! l = Some o ->
  isArray o = true ->
  Forall (fun e => is_Some (lengthOf e)) (elements o) ->
  ∃ r ideo', processBandData ideo = Some (r, ideo').
Proof.
  intros Hu Hc Ho Harr Hlen. pose proof Hu as [Hcs Hm].
  pose proof (setTaxids_Unbanded _ Hu) as Hu0.
  pose proof (setTaxids_frame ideo) as F. simpl in F.
  destruct F as (_ & _ & _ & Hst0 & Hch0 & Hmu0 & _).
  unfold processBandData.
  destruct (setTaxids ideo) as [[t ts] ideo0] eqn:Est. simpl in *.
  assert (ts = [t]) as ->.
  { rewrite setTaxids_single in Est by done. by injection Est as <- <- _. }
  unfold copyChromosomes. rewrite Hch0, Hc, Hmu0, Hm. simpl.
  rewrite Hst0, Ho. simpl. rewrite Harr. simpl.
  assert (l < length (store ideo))%nat as Hlt by (by eapply lookup_lt_Some).
  destruct (setChromosomesByTaxid_unbanded_returns t l (length (store ideo)) o
              (arrayOf (elements o)) []
              (setStore (store ideo0 ++ [arrayOf (elements o)]) ideo0))
    as (r & ideo' & Hs); try done.
  - simpl. by rewrite Hch0.
  - simpl. rewrite Hst0. by rewrite lookup_app_l.
  - lia.
  - simpl. rewrite Hst0. by apply list_lookup_middle.
  - by rewrite elements_arrayOf.
  - rewrite Hst0 in Hs |- *. rewrite Hs. simpl. eauto.
Qed.

(** C5. One organism, coordinate system ["bp"], the configured chromosomes
    in the object [o] of the store.  When [o] is an Array whose elements
    all have a [.length], [processBandData] returns.  When it has
    returned, the chromosome count has grown by the number of elements of
    [o], the copy of [o] is the list kept for the taxon, and
    [ideo.maxLength.bp] is the largest of its old value and the [.length]
    of the elements; from [bp = 0] and with an element of non-negative
    length it is the maximum of the lengths. *)
Theorem unbanded_count_and_bp_maximum (ideo : Ideo) (l : loc) (o : Obj) :
  Unbanded ideo ->
  Config.chromosomes (config ideo) = Some (VRef l) ->
  store ideo !! l = Some o ->
  (isArray o = true ->
   Forall (fun e => is_Some (lengthOf e)) (elements o) ->
   ∃ r ideo', processBandData ideo = Some (r, ideo'))
  ∧ ∀ r ideo',
      processBandData ideo = Some (r, ideo') ->
      ∃ ns,
        LengthsOf (elements o) ns
        ∧ numChromosomes ideo'
          = (numChromosomes ideo + Z.of_nat (length (elements o)))%Z
        ∧ readChromosomes (setTaxids ideo).1.1 ideo'
          = Some (EList (elements o))
        ∧ max_bp (maxLength ideo') = foldl Z.max (max_bp (maxLength ideo)) ns
        ∧ (max_bp (maxLength ideo) = 0%Z ->
           (∃ n, n ∈ ns ∧ (0 <= n)%Z) ->
           IsMax (max_bp (maxLength ideo')) ns).
Proof.
  intros Hu Hc Ho.
  split; [by apply (processBandData_unbanded_returns ideo l o)|].
  intros r ideo' H. pose proof Hu as [Hcs Hm].
  apply processBandData_inv in H as (chrs & ideo1 & Hcopy & Hl).
  pose proof (setTaxids_Unbanded _ Hu) as Hu0.
  pose proof (setTaxids_frame ideo) as F. simpl in F.
  destruct F as (Hm0 & Hn0 & _ & Hst0 & Hch0 & Hmu0 & _).
  rewrite setTaxids_single in Hl by done. simpl in Hl.
  rewrite setTaxids_single by done. simpl.
  set (t := match Config.taxid (config ideo) with
            | TUndefined => default TUndefined (Config.taxids (config ideo) !! 0%nat)
            | t => t
            end) in *.
  pose proof (copyChromosomes_Unbanded _ _ _ Hcopy Hu0) as Hu1.
  apply copyChromosomes_single with (l := l) (o := o) in Hcopy
    as (Harr & -> & ->); [|by rewrite Hmu0|by rewrite Hch0|by rewrite Hst0].
  rewrite Hst0 in *.
  destruct (setChromosomesByTaxid t _ [] _) as [[r1 ideo2]|] eqn:Hs; [|done].
  simpl in Hl. injection Hl as <- <-.
  apply setChromosomesByTaxid_unbanded_inv in Hs
    as (copy & ideow & elems & ns & Hcp & Hw & Hel & Hns & -> & ->); [|done].
  assert (l < length (store ideo))%nat as Hlt by (by eapply lookup_lt_Some).
  rewrite (arrayElements_lookup _ _ (arrayOf (elements o))) in Hcp;
    [|by apply list_lookup_middle|done].
  rewrite elements_arrayOf in Hcp. injection Hcp as <-.
  pose proof (readChromosomes_write_eq _ _ _ _ Hw) as Hread.
  apply writeChromosomes_inv in Hw as (l' & o' & Hc' & Ho' & ->).
  simpl in Hc', Ho'. rewrite Hch0, Hc in Hc'. injection Hc' as <-.
  rewrite lookup_app_l in Ho' by done.
  injection (eq_trans (eq_sym Ho') Ho) as ->.
  simpl in Hel. rewrite list_lookup_insert_ne in Hel by lia.
  rewrite list_lookup_middle in Hel by done. simpl in Hel.
  rewrite elements_arrayOf in Hel. injection Hel as <-.
  exists ns. split; [done|]. split; [by simpl; rewrite Hn0|].
  split; [done|]. simpl. rewrite Hm0. split; [done|].
  intros Hz Hex. rewrite Hz. by apply IsMax_foldl_max.
Qed.

(** The list that [setChrsByTaxidsWithBands] stores for a taxon holds the
    keys of the parsed mapping, sorted with the comparison function. *)
Lemma stored_names_sorted t chrs acc ideo r ideo' :
  setChrsByTaxidsWithBands t chrs acc ideo = Some (r, ideo') ->
  ∃ seen bandsByChr,
    deref (store ideo) chrs = Some seen
    ∧ parseBands (bandData ideo !! t) t seen = Some bandsByChr
    ∧ readChromosomes t ideo'
      = Some (EList (map EName (sort naturalSort (keys bandsByChr)))).
Proof.
  intros H.
  apply setChrsByTaxidsWithBands_Assembled in H as (seen & b & Hd & Hp & HA).
  exists seen, b. by destruct HA as (? & _).
Qed.

(** ** Further properties: the steps of the maxima *)

(** Two chromosomes, of the same taxon or not, can be processed in either
    order. *)
Lemma tracked_comm t1 c1 t2 c2 m :
  tracked t1 c1 (tracked t2 c2 m) = tracked t2 c2 (tracked t1 c1 m).
Proof.
  destruct m as [gb gi tab], c1 as [b1 i1], c2 as [b2 i2].
  unfold tracked, taxonMax. simpl.
  destruct (decide (t1 = t2)) as [->|Hne].
  - rewrite !lookup_insert_eq, !insert_insert_eq. simpl.
    destruct (tab !! t2) as [[eb ei]|]; simpl;
      repeat case_gtb; f_equal; try lia; do 2 f_equal; lia.
  - rewrite !lookup_insert_ne by done.
    rewrite (insert_insert_ne tab t1 t2) by done.
    destruct (tab !! t1) as [[eb1 ei1]|], (tab !! t2) as [[eb2 ei2]|]; simpl;
      repeat case_gtb; f_equal; lia.
Qed.

(** A chromosome that is no longer than the maxima of its taxon changes
    nothing. *)
Lemma tracked_absorb t c m e :
  byTaxid m !! t = Some e -> lenLe c e -> tracked t c m = m.
Proof.
  intros He [Hb Hi]. destruct m as [gb gi tab], c as [cb ci], e as [eb ei].
  unfold tracked, taxonMax. simpl in *. rewrite He. simpl.
  destruct (Z.gtb_spec cb eb); [lia|]. destruct (Z.gtb_spec ci ei); [lia|].
  f_equal. rewrite Z.max_l, Z.max_l by lia. by apply insert_id.
Qed.

Lemma trackedAll_cons t bands seg m :
  trackedAll t (bands :: seg) m
  = trackedAll t seg (tracked t (lengthOfBands bands) m).
Proof. done. Qed.

Lemma trackedAll_Permutation t seg seg' m :
  Permutation seg seg' -> trackedAll t seg m = trackedAll t seg' m.
Proof.
  intros H. revert m. induction H as [|x l l' _ IH|x y l|l1 l2 l3 _ IH1 _ IH2];
    intros m.
  - done.
  - rewrite !trackedAll_cons. apply IH.
  - rewrite !trackedAll_cons. by rewrite tracked_comm.
  - by rewrite IH1.
Qed.

Lemma trackedAll_absorb t seg m e :
  byTaxid m !! t = Some e ->
  Forall (fun bands => lenLe (lengthOfBands bands) e) seg ->
  trackedAll t seg m = m.
Proof.
  intros He H. induction H as [|bands seg Hb _ IH]; [done|].
  rewrite trackedAll_cons, (tracked_absorb _ _ _ _ He Hb). apply IH.
Qed.

(** After the chromosomes of a taxon, its maxima bound the length of each. *)
Lemma trackedAll_bounds t seg m :
  seg ≠ [] ->
  ∃ e, byTaxid (trackedAll t seg m) !! t = Some e
       ∧ Forall (fun bands => lenLe (lengthOfBands bands) e) seg.
Proof.
  intros Hne. eexists. split; [by apply trackedAll_lookup_eq|].
  apply list.Forall_forall. intros bands Hin. unfold lenLe. simpl.
  destruct (foldl_max_spec (Len.bp (taxonMax m t)) (lengthsIn Len.bp seg))
    as (_ & Hb & _).
  destruct (foldl_max_spec (Len.iscn (taxonMax m t)) (lengthsIn Len.iscn seg))
    as (_ & Hi & _).
  apply list_elem_of_In in Hin. split.
  - apply Hb, list_elem_of_In.
    apply (in_map (fun bands => Len.bp (lengthOfBands bands))), Hin.
  - apply Hi, list_elem_of_In.
    apply (in_map (fun bands => Len.iscn (lengthOfBands bands))), Hin.
Qed.

Lemma trackedAll_idempotent t seg m :
  trackedAll t seg (trackedAll t seg m) = trackedAll t seg m.
Proof.
  destruct seg as [|bands seg]; [done|].
  destruct (trackedAll_bounds t (bands :: seg) m) as (e & He & Hb); [done|].
  by eapply trackedAll_absorb.
Qed.

(** ** Further properties: one chromosome and the chromosomes of a taxon *)

Lemma getBandsArray_exact chromosome bandsByChr taxid ideo bands lastBand :
  lookupChr chromosome bandsByChr = Some bands ->
  list.last bands = Some lastBand ->
  getBandsArray chromosome bandsByChr taxid ideo
  = Some ([bands],
          setMaxLength (tracked taxid (lastStops lastBand) (maxLength ideo)) ideo).
Proof.
  intros Hl Hlast. unfold getBandsArray. rewrite Hl. simpl. rewrite Hlast.
  simpl. do 3 f_equal.
  apply (tracked_step taxid (lastStops lastBand) (maxLength ideo)).
Qed.

(** [getBandsArray] throws exactly when the mapping has no band list for
    the chromosome, or an empty one. *)
Theorem getBandsArray_throws_iff (chromosome : string)
    (bandsByChr : BandsByChr) (taxid : Taxid) (ideo : Ideo) :
  getBandsArray chromosome bandsByChr taxid ideo = None
  ↔ lookupChr chromosome bandsByChr = None
    ∨ lookupChr chromosome bandsByChr = Some [].
Proof.
  destruct (lookupChr chromosome bandsByChr) as [bands|] eqn:Hl.
  - destruct (list.last bands) as [lastBand|] eqn:Hlast.
    + rewrite (getBandsArray_exact _ _ _ _ _ _ Hl Hlast). split; [done|].
      intros [H|H]; [done|]. injection H as ->. done.
    + assert (bands = []) as -> by (by destruct bands using rev_ind;
        [|rewrite last_snoc in Hlast]).
      unfold getBandsArray. rewrite Hl. split; [by right|done].
  - unfold getBandsArray. rewrite Hl. split; [by left|done].
Qed.

(** When [getBandsArray] returns, the result is the one band list of the
    chromosome; of [ideo] only [maxLength] is changed; the taxon has an
    entry, the larger, in each coordinate, of its old entry (or 0) and the
    stop of the last band; the entries of the other taxa are untouched;
    and each global maximum is its old value or that stop, never less
    than before. *)
Theorem getBandsArray_effect (chromosome : string) (bandsByChr : BandsByChr)
    (taxid : Taxid) (ideo : Ideo) (r : list (list Band.t)) (ideo' : Ideo) :
  getBandsArray chromosome bandsByChr taxid ideo = Some (r, ideo') ->
  ∃ bands lastBand,
    lookupChr chromosome bandsByChr = Some bands
    ∧ list.last bands = Some lastBand
    ∧ r = [bands]
    ∧ ideo' = setMaxLength (maxLength ideo') ideo
    ∧ byTaxid (maxLength ideo') !! taxid
      = Some {| Len.bp :=
                  Z.max (Len.bp (taxonMax (maxLength ideo) taxid))
                        (stop (Band.bp lastBand));
                Len.iscn :=
                  Z.max (Len.iscn (taxonMax (maxLength ideo) taxid))
                        (stop (Band.iscn lastBand)) |}
    ∧ (∀ t, t ≠ taxid ->
            byTaxid (maxLength ideo') !! t = byTaxid (maxLength ideo) !! t)
    ∧ (max_bp (maxLength ideo') = max_bp (maxLength ideo)
       ∨ max_bp (maxLength ideo') = stop (Band.bp lastBand))
    ∧ (max_iscn (maxLength ideo') = max_iscn (maxLength ideo)
       ∨ max_iscn (maxLength ideo') = stop (Band.iscn lastBand))
    ∧ (max_bp (maxLength ideo) <= max_bp (maxLength ideo'))%Z
    ∧ (max_iscn (maxLength ideo) <= max_iscn (maxLength ideo'))%Z.
Proof.
  intros H. apply getBandsArray_inv in H as (bands & lastBand & Hl & Hlast & -> & ->).
  exists bands, lastBand.
  change (maxLength (setMaxLength ?m ideo)) with m.
  split; [done|]. split; [done|]. split; [done|]. split; [done|].
  split; [apply tracked_lookup_eq|].
  split; [intros t Hne; by apply tracked_lookup_ne|].
  unfold tracked, lastStops. simpl.
  repeat case_gtb; repeat split; lia.
Qed.

Lemma BandsOf_map bandsByChr chrs seg :
  BandsOf bandsByChr chrs seg -> seg = map (bandsAt bandsByChr) chrs.
Proof.
  intros H. induction H as [|c bands chrs seg Hc _ IH]; [done|].
  simpl. unfold bandsAt at 1. rewrite Hc. simpl. by rewrite <- IH.
Qed.

Lemma BandsOf_is_Some bandsByChr chrs seg c :
  BandsOf bandsByChr chrs seg -> c ∈ chrs -> is_Some (lookupChr c bandsByChr).
Proof.
  intros H. induction H as [|c' bands chrs seg Hc _ IH]; intros Hin.
  - by apply elem_of_nil in Hin.
  - apply elem_of_cons in Hin as [->|Hin]; [eauto|by apply IH].
Qed.

Lemma BandsOf_bandsAt bandsByChr chrs :
  (∀ c, c ∈ chrs -> is_Some (lookupChr c bandsByChr)) ->
  BandsOf bandsByChr chrs (map (bandsAt bandsByChr) chrs).
Proof.
  induction chrs as [|c chrs IH]; intros H; simpl; [constructor|].
  constructor.
  - destruct (H c) as [bands Hb]; [apply list_elem_of_here|].
    unfold bandsAt. by rewrite Hb.
  - apply IH. intros c' Hc'. apply H. by apply list_elem_of_further.
Qed.

Lemma bandsLoop_exact chrs bandsByChr t acc ideo seg :
  BandsOf bandsByChr chrs seg ->
  Forall (fun bands => bands ≠ []) seg ->
  bandsLoop chrs bandsByChr t acc ideo
  = Some (acc ++ seg, setMaxLength (trackedAll t seg (maxLength ideo)) ideo).
Proof.
  intros H. revert acc ideo.
  induction H as [|c bands chrs seg Hc _ IH]; intros acc ideo Hne; simpl.
  - by rewrite app_nil_r, setMaxLength_id.
  - apply list.Forall_cons in Hne as [Hb Hne].
    apply last_is_Some in Hb as [lastBand Hlast].
    rewrite (getBandsArray_exact _ _ _ _ _ _ Hc Hlast). simpl.
    rewrite IH by done. rewrite <- app_assoc. simpl.
    by rewrite (lengthOfBands_last _ _ Hlast).
Qed.

(** The chromosomes of a taxon can be processed in any order: the state
    reached is the same, and the bands returned are rearranged. *)
Lemma bandsLoop_Permutation chrs chrs' bandsByChr t acc ideo r ideo1 :
  Permutation chrs chrs' ->
  bandsLoop chrs bandsByChr t acc ideo = Some (r, ideo1) ->
  ∃ r', bandsLoop chrs' bandsByChr t acc ideo = Some (r', ideo1)
        ∧ Permutation r r'.
Proof.
  intros Hp H. apply bandsLoop_inv in H as (seg & Hseg & Hne & -> & ->).
  pose proof (BandsOf_map _ _ _ Hseg) as ->.
  assert (BandsOf bandsByChr chrs' (map (bandsAt bandsByChr) chrs')) as Hseg'.
  { apply BandsOf_bandsAt. intros c Hc. rewrite <- Hp in Hc.
    by eapply BandsOf_is_Some. }
  assert (Permutation (map (bandsAt bandsByChr) chrs)
            (map (bandsAt bandsByChr) chrs')) as Hpm
    by (by apply Permutation_map).
  exists (acc ++ map (bandsAt bandsByChr) chrs'). split.
  - rewrite (bandsLoop_exact _ _ _ _ _ _ Hseg') by (by rewrite <- Hpm).
    by rewrite (trackedAll_Permutation _ _ _ _ Hpm).
  - by apply Permutation_app_head.
Qed.

(** Processing the chromosomes of a taxon a second time changes nothing
    of [ideo]: the maxima have already taken them in. *)
Theorem bandsLoop_again (chrs : list string) (bandsByChr : BandsByChr)
    (t : Taxid) (acc : list (list Band.t)) (ideo : Ideo)
    (r : list (list Band.t)) (ideo1 : Ideo) :
  bandsLoop chrs bandsByChr t acc ideo = Some (r, ideo1) ->
  bandsLoop chrs bandsByChr t acc ideo1 = Some (r, ideo1).
Proof.
  intros H. apply bandsLoop_inv in H as (seg & Hseg & Hne & -> & ->).
  rewrite (bandsLoop_exact _ _ _ _ _ _ Hseg Hne).
  change (maxLength (setMaxLength ?m ideo)) with m.
  by rewrite trackedAll_idempotent.
Qed.

(** ** Further properties: taxon resolution *)

Lemma fold_left_last (l : list Taxid) (d : Taxid) :
  fold_left (fun _ t => t) l d = default d (list.last l).
Proof.
  induction l as [|x l _] using rev_ind; [done|].
  by rewrite fold_left_app, last_snoc.
Qed.

(** In either mode the taxid that [setTaxids] returns is the last element
    of the list it returns, [undefined] for an empty list, and the list is
    what [config.taxids] holds afterwards; with several organisms the list
    is the configured one and nothing of [ideo] changes but the coordinate
    system. *)
Theorem setTaxids_returns_last_taxid (ideo : Ideo) :
  (setTaxids ideo).1.1 = default TUndefined (list.last (setTaxids ideo).1.2)
  ∧ Config.taxids (config (setTaxids ideo).2) = (setTaxids ideo).1.2
  ∧ (Config.multiorganism (config ideo) = true ->
     (setTaxids ideo).1.2 = Config.taxids (config ideo)
     ∧ (setTaxids ideo).2 = setCoordinateSystem "bp" ideo).
Proof.
  destruct (Config.multiorganism (config ideo)) eqn:Hm.
  - rewrite setTaxids_multi by done. simpl.
    split; [apply fold_left_last|done].
  - rewrite setTaxids_single by done. done.
Qed.

(** Resolving the taxa a second time gives the same taxa and leaves
    [ideo] as the first resolution left it. *)
Theorem setTaxids_idempotent (ideo : Ideo) :
  setTaxids (setTaxids ideo).2 = setTaxids ideo.
Proof.
  destruct ideo as [[mu tx txs ch db] cs m n bd st].
  destruct mu; [done|].
  destruct tx as [|k]; [|done].
  by destruct txs as [|[|k] txs].
Qed.

(** ** Further properties: the banded assembly of one taxon *)

(** [setChrsByTaxidsWithBands] returns exactly when [chrs] refers to
    nothing missing, the parser returns a mapping in which every key has a
    band list that is not empty, and [config.chromosomes] is missing,
    [null] or an object; in every other case it throws. *)
Theorem setChrsByTaxidsWithBands_returns_iff (taxid : Taxid) (chrs : value)
    (bandsArray : list (list Band.t)) (ideo : Ideo) :
  (∃ r ideo',
     setChrsByTaxidsWithBands taxid chrs bandsArray ideo = Some (r, ideo'))
  ↔ (∃ seen bandsByChr,
       deref (store ideo) chrs = Some seen
       ∧ parseBands (bandData ideo !! taxid) taxid seen = Some bandsByChr
       ∧ (∀ c, c ∈ keys bandsByChr ->
               ∃ bands, lookupChr c bandsByChr = Some bands ∧ bands ≠ [])
       ∧ ChromosomesUsable ideo).
Proof.
  split.
  - intros (r & ideo' & H).
    apply setChrsByTaxidsWithBands_inv in H
      as (seen & b & ideo1 & seg & Hd & Hp & Hw & Hseg & Hne & _ & _).
    exists seen, b. split; [done|]. split; [done|]. split.
    + intros c Hc.
      rewrite <- (sort_Permutation naturalSort (keys b)) in Hc.
      unfold BandsOf in Hseg.
      apply list_elem_of_lookup in Hc as [i Hi].
      destruct (Forall2_lookup_l _ _ _ _ _ Hseg Hi) as (bands & Hb & Hl).
      exists bands. split; [done|]. apply (Forall_lookup_1 _ _ _ _ Hne Hb).
    + apply writeChromosomes_inv in Hw as (l & o & Hc & Ho & _).
      unfold ChromosomesUsable, ensureChromosomes in *.
      destruct (Config.chromosomes (config ideo)) as [[| |l0]|] eqn:E;
        try done.
      * simpl in Hc. by rewrite E in Hc.
      * simpl in Hc, Ho. rewrite E in Hc. injection Hc as ->. eauto.
  - intros (seen & b & Hd & Hp & Hk & Hu).
    destruct (ensureChromosomes_writable ideo Hu) as (l & o & Hc & Ho).
    change (setChrsByTaxidsWithBands taxid chrs bandsArray ideo) with
      (seen ← deref (store ideo) chrs;
       bandsByChr ← parseBands (bandData ideo !! taxid) taxid seen;
       ideo1 ← writeChromosomes taxid
                 (EList (map EName (sort naturalSort (keys bandsByChr))))
                 (ensureChromosomes ideo);
       stored ← readChromosomes taxid ideo1;
       n ← lengthOf stored;
       bandsLoop (sort naturalSort (keys bandsByChr)) bandsByChr taxid
         bandsArray (setNumChromosomes (numChromosomes ideo1 + n) ideo1)).
    rewrite Hd. simpl. rewrite Hp. simpl.
    destruct (writeChromosomes taxid _ (ensureChromosomes ideo))
      as [ideo1|] eqn:Hw.
    + simpl. rewrite (readChromosomes_write_eq _ _ _ _ Hw). simpl.
      apply bandsLoop_returns. intros c Hc'. apply Hk.
      by rewrite <- (sort_Permutation naturalSort (keys b)).
    + unfold writeChromosomes in Hw. rewrite Hc, Ho in Hw. done.
Qed.

(** ** Further properties: the count and the bands returned *)

Lemma taxaLoop_banded_count taxids chrs acc ideo r ideo' :
  Banded ideo ->
  taxaLoop taxids chrs acc ideo = Some (r, ideo') ->
  (numChromosomes ideo' + Z.of_nat (length acc)
   = numChromosomes ideo + Z.of_nat (length r))%Z.
Proof.
  revert acc ideo. induction taxids as [|t taxids IH]; intros acc ideo Hb H;
    simpl in H.
  - by injection H as <- <-.
  - rewrite setChromosomesByTaxid_banded in H by done.
    destruct (setChrsByTaxidsWithBands t chrs acc ideo) as [[r1 ideo1]|] eqn:Hs;
      [|done].
    simpl in H.
    pose proof (setChrsByTaxidsWithBands_Assembled _ _ _ _ _ _ Hs)
      as (seen0 & b0 & _ & _ & HA).
    pose proof (Assembled_Banded _ _ _ _ HA Hb) as Hb1.
    apply setChrsByTaxidsWithBands_inv in Hs
      as (seen & b & ideo2 & seg & _ & _ & Hw & Hseg & _ & -> & ->).
    apply IH in H; [|done].
    apply writeChromosomes_inv in Hw as (l & o & _ & _ & ->).
    pose proof (ensureChromosomes_frame ideo) as (_ & Hn & _).
    assert (length (sort naturalSort (keys b)) = length seg) as Hlen
      by (by eapply Forall2_length).
    simpl in H. rewrite length_app in H. lia.
Qed.

(** On the banded path the chromosome count grows by the number of band
    lists returned, one per chromosome, whether or not a taxon is listed
    twice. *)
Theorem banded_count_is_number_of_band_lists (ideo : Ideo)
    (r : list (list Band.t)) (ideo' : Ideo) :
  Banded ideo ->
  processBandData ideo = Some (r, ideo') ->
  numChromosomes ideo' = (numChromosomes ideo + Z.of_nat (length r))%Z.
Proof.
  intros Hb H. apply processBandData_inv in H as (chrs & ideo1 & Hc & Hl).
  pose proof (copyChromosomes_Banded _ _ _ Hc (setTaxids_Banded _ Hb)) as Hb1.
  apply taxaLoop_banded_count in Hl; [|done].
  apply copyChromosomes_inv in Hc as (_ & _ & Hn1 & _).
  pose proof (setTaxids_frame ideo) as F. simpl in F.
  destruct F as (_ & Hn0 & _). simpl in Hl. lia.
Qed.

(** ** Further properties: what a run keeps *)

Lemma lenLe_refl e : lenLe e e.
Proof. unfold lenLe. lia. Qed.

Lemma Frame_refl ideo : Frame ideo ideo.
Proof.
  unfold Frame. repeat split; try done; try lia.
  - intros t e He. exists e. split; [done|apply lenLe_refl].
  - by left.
Qed.

Lemma Frame_trans ideo1 ideo2 ideo3 :
  Frame ideo1 ideo2 -> Frame ideo2 ideo3 -> Frame ideo1 ideo3.
Proof.
  intros (B1 & C1 & M1 & D1 & T1 & S1 & Gb1 & Gi1 & E1 & N1 & L1 & R1 & O1)
         (B2 & C2 & M2 & D2 & T2 & S2 & Gb2 & Gi2 & E2 & N2 & L2 & R2 & O2).
  unfold Frame.
  split; [by rewrite B2|]. split; [by rewrite C2|]. split; [by rewrite M2|].
  split; [by rewrite D2|]. split; [by rewrite T2|]. split; [by rewrite S2|].
  split; [lia|]. split; [lia|]. split.
  { intros t e He. destruct (E1 _ _ He) as (e1 & He1 & Le1).
    destruct (E2 _ _ He1) as (e2 & He2 & Le2).
    exists e2. split; [done|]. unfold lenLe in *. lia. }
  split; [lia|]. split; [lia|]. split.
  { destruct R2 as [R2|(l & Hl & R2)].
    - rewrite R2. destruct R1 as [R1|(l & Hl & R1)]; [by left|].
      right. by exists l.
    - right. exists l. split; [lia|done]. }
  intros l Hl Hne. rewrite O2; [by apply O1|lia|].
  destruct R1 as [R1|(l1 & Hl1 & R1)]; rewrite R1; [done|].
  intros [= ->]. lia.
Qed.

Lemma tracked_global_le t c m :
  (max_bp m <= max_bp (tracked t c m))%Z
  ∧ (max_iscn m <= max_iscn (tracked t c m))%Z.
Proof. unfold tracked. simpl. repeat case_gtb; lia. Qed.

Lemma trackedAll_global_le t seg m :
  (max_bp m <= max_bp (trackedAll t seg m))%Z
  ∧ (max_iscn m <= max_iscn (trackedAll t seg m))%Z.
Proof.
  revert m. induction seg as [|bands seg IH]; intros m; [done|].
  rewrite trackedAll_cons.
  destruct (IH (tracked t (lengthOfBands bands) m)).
  destruct (tracked_global_le t (lengthOfBands bands) m). lia.
Qed.

(** What a write into [config.chromosomes] keeps. *)
Lemma write_Frame ideo l o t v mx n :
  Config.chromosomes (config ideo) = Some (VRef l) ->
  store ideo !! l = Some o ->
  (max_bp (maxLength ideo) <= max_bp mx)%Z ->
  (max_iscn (maxLength ideo) <= max_iscn mx)%Z ->
  (∀ t e, byTaxid (maxLength ideo) !! t = Some e ->
          ∃ e', byTaxid mx !! t = Some e' ∧ lenLe e e') ->
  (numChromosomes ideo <= n)%Z ->
  Frame ideo
    (setMaxLength mx
       (setNumChromosomes n
          (setStore (<[l := setProp o t v]> (store ideo)) ideo))).
Proof.
  intros Hc Ho Hb Hi He Hn. unfold Frame. simpl.
  repeat split; try done.
  - by rewrite length_insert.
  - by left.
  - intros l' Hl' Hne. apply list_lookup_insert_ne. intros ->.
    by rewrite Hc in Hne.
Qed.

Lemma ensureChromosomes_Frame ideo : Frame ideo (ensureChromosomes ideo).
Proof.
  unfold ensureChromosomes.
  destruct (Config.chromosomes (config ideo)) as [[| |l]|] eqn:E;
    try apply Frame_refl.
  - unfold Frame. simpl. repeat split; try done; try lia.
    + intros t e He. exists e. split; [done|apply lenLe_refl].
    + rewrite length_app. lia.
    + right. by exists (length (store ideo)).
    + intros l Hl _. by apply lookup_app_l.
  - unfold Frame. simpl. repeat split; try done; try lia.
    + intros t e He. exists e. split; [done|apply lenLe_refl].
    + rewrite length_app. lia.
    + right. by exists (length (store ideo)).
    + intros l Hl _. by apply lookup_app_l.
Qed.

Lemma setChromosomesByTaxid_Frame t chrs acc ideo r ideo' :
  setChromosomesByTaxid t chrs acc ideo = Some (r, ideo') ->
  Frame ideo ideo' ∧ ∃ seg, r = acc ++ seg.
Proof.
  intros H. destruct (decide (Banded ideo)) as [Hb|Hnb].
  - rewrite setChromosomesByTaxid_banded in H by done.
    apply setChrsByTaxidsWithBands_inv in H
      as (seen & b & ideo1 & seg & _ & _ & Hw & _ & _ & -> & ->).
    split; [|by exists seg].
    apply writeChromosomes_inv in Hw as (l & o & Hc & Ho & ->).
    apply (Frame_trans _ (ensureChromosomes ideo));
      [apply ensureChromosomes_Frame|].
    pose proof (ensureChromosomes_frame ideo) as (Hm & Hn & _).
    apply write_Frame; try done; rewrite ?Hm, ?Hn.
    + by destruct (trackedAll_global_le t seg (maxLength ideo)).
    + by destruct (trackedAll_global_le t seg (maxLength ideo)).
    + intros t' e He. by apply trackedAll_monotone.
    + lia.
  - destruct (decide (coordinateSystem ideo = "bp")) as [Hbp|Hnbp].
    + assert (Unbanded ideo) as Hu.
      { split; [done|].
        destruct (Config.multiorganism (config ideo)) eqn:E; [|done].
        destruct Hnb. by right. }
      apply setChromosomesByTaxid_unbanded_inv in H
        as (copy & ideo1 & elems & ns & _ & Hw & _ & _ & -> & ->); [|done].
      split; [|exists []; by rewrite app_nil_r].
      apply writeChromosomes_inv in Hw as (l & o & Hc & Ho & ->).
      change (setMaxLength ?mx (setNumChromosomes ?n
                (setStore ?st ideo)))
        with (setMaxLength mx (setNumChromosomes n (setStore st ideo))).
      apply write_Frame; try done; simpl.
      * by destruct (foldl_max_spec (max_bp (maxLength ideo)) ns).
      * intros t' e He. exists e. split; [done|apply lenLe_refl].
      * lia.
    + unfold setChromosomesByTaxid in H.
      assert (String.eqb (coordinateSystem ideo) "iscn"
              || Config.multiorganism (config ideo) = false) as E1.
      { apply orb_false_intro.
        - apply String.eqb_neq. intros E. apply Hnb. by left.
        - destruct (Config.multiorganism (config ideo)) eqn:E; [|done].
          destruct Hnb. by right. }
      rewrite E1 in H.
      apply String.eqb_neq in Hnbp. rewrite Hnbp in H.
      injection H as <- <-. split; [apply Frame_refl|].
      exists []. by rewrite app_nil_r.
Qed.

Lemma taxaLoop_Frame taxids chrs acc ideo r ideo' :
  taxaLoop taxids chrs acc ideo = Some (r, ideo') ->
  Frame ideo ideo' ∧ ∃ seg, r = acc ++ seg.
Proof.
  revert acc ideo. induction taxids as [|t taxids IH]; intros acc ideo H;
    simpl in H.
  - injection H as <- <-. split; [apply Frame_refl|].
    exists []. by rewrite app_nil_r.
  - destruct (setChromosomesByTaxid t chrs acc ideo) as [[r1 ideo1]|] eqn:Hs;
      [|done].
    simpl in H.
    apply setChromosomesByTaxid_Frame in Hs as [F1 [seg1 ->]].
    apply IH in H as [F2 [seg2 ->]].
    split; [by eapply Frame_trans|].
    exists (seg1 ++ seg2). by rewrite app_assoc.
Qed.

Lemma copyChromosomes_Frame ideo chrs ideo1 :
  copyChromosomes ideo = Some (chrs, ideo1) -> Frame ideo ideo1.
Proof.
  unfold copyChromosomes. intros H.
  destruct (Config.chromosomes (config ideo)) as [v|].
  - destruct (Config.multiorganism (config ideo)).
    + injection H as <- <-. apply Frame_refl.
    + destruct (arrayElements (store ideo) v) as [copy|]; [|done].
      simpl in H. injection H as <- <-.
      unfold Frame. simpl. repeat split; try done; try lia.
      * intros t e He. exists e. split; [done|apply lenLe_refl].
      * rewrite length_app. lia.
      * by left.
      * intros l Hl _. by apply lookup_app_l.
  - injection H as <- <-. apply Frame_refl.
Qed.

Lemma setTaxids_debug ideo :
  Config.debug (config (setTaxids ideo).2) = Config.debug (config ideo).
Proof.
  destruct (Config.multiorganism (config ideo)) eqn:E.
  - by rewrite setTaxids_multi.
  - by rewrite setTaxids_single.
Qed.

(** [processBandData] never lowers a maximum or the chromosome count and
    never drops the entry of a taxon; it leaves the band data and the flags
    [multiorganism] and [debug] alone; [config.taxids] holds the resolved
    taxa; the coordinate system changes only with several organisms, to
    ["bp"]; and of the objects that exist when it is called it can change
    only the one that [config.chromosomes] refers to. *)
Theorem processBandData_only_raises (ideo : Ideo) (r : list (list Band.t))
    (ideo' : Ideo) :
  processBandData ideo = Some (r, ideo') ->
  (max_bp (maxLength ideo) <= max_bp (maxLength ideo'))%Z
  ∧ (max_iscn (maxLength ideo) <= max_iscn (maxLength ideo'))%Z
  ∧ (∀ t e, byTaxid (maxLength ideo) !! t = Some e ->
            ∃ e', byTaxid (maxLength ideo') !! t = Some e' ∧ lenLe e e')
  ∧ (numChromosomes ideo <= numChromosomes ideo')%Z
  ∧ bandData ideo' = bandData ideo
  ∧ Config.multiorganism (config ideo') = Config.multiorganism (config ideo)
  ∧ Config.debug (config ideo') = Config.debug (config ideo)
  ∧ Config.taxids (config ideo') = (setTaxids ideo).1.2
  ∧ coordinateSystem ideo'
    = (if Config.multiorganism (config ideo) then "bp"
       else coordinateSystem ideo)
  ∧ (∀ l, (l < length (store ideo))%nat ->
          Config.chromosomes (config ideo) ≠ Some (VRef l) ->
          store ideo' !! l = store ideo !! l).
Proof.
  intros H. apply processBandData_inv in H as (chrs & ideo1 & Hc & Hl).
  apply copyChromosomes_Frame in Hc. apply taxaLoop_Frame in Hl as [Hl _].
  pose proof (Frame_trans _ _ _ Hc Hl)
    as (B & C & M & D & _ & S & Gb & Gi & E & N & _ & _ & O).
  pose proof (setTaxids_frame ideo) as F. simpl in F.
  destruct F as (Hm0 & Hn0 & Hb0 & Hst0 & Hch0 & Hmu0 & Htx0 & Hcs0).
  rewrite Hm0 in Gb, Gi, E. rewrite Hn0 in N. rewrite Hst0, Hch0 in O.
  repeat split; try done.
  - by rewrite B.
  - by rewrite M.
  - by rewrite D, setTaxids_debug.
  - by rewrite S.
  - by rewrite C.
Qed.

(** One organism and a coordinate system that is neither ["iscn"] nor
    ["bp"]: no taxon is assembled.  A run that returns yields no bands and
    leaves the maxima, the chromosome count, [config.chromosomes] and
    every object of the store as they were. *)
Theorem unknown_coordinate_system_is_ignored (ideo : Ideo)
    (r : list (list Band.t)) (ideo' : Ideo) :
  Config.multiorganism (config ideo) = false ->
  coordinateSystem ideo ≠ "iscn" ->
  coordinateSystem ideo ≠ "bp" ->
  processBandData ideo = Some (r, ideo') ->
  r = []
  ∧ maxLength ideo' = maxLength ideo
  ∧ numChromosomes ideo' = numChromosomes ideo
  ∧ Config.chromosomes (config ideo') = Config.chromosomes (config ideo)
  ∧ ∀ l, (l < length (store ideo))%nat -> store ideo' !! l = store ideo !! l.
Proof.
  intros Hm Hi Hb H.
  apply processBandData_inv in H as (chrs & ideo1 & Hc & Hl).
  pose proof (setTaxids_frame ideo) as F. simpl in F.
  destruct F as (Hm0 & Hn0 & _ & Hst0 & Hch0 & Hmu0 & _ & Hcs0).
  rewrite Hm in Hcs0, Hmu0.
  rewrite setTaxids_single in Hl by done. simpl in Hl.
  pose proof (copyChromosomes_inv _ _ _ Hc) as (Hcfg & Hm1 & Hn1 & Hcs1 & _).
  unfold setChromosomesByTaxid in Hl.
  rewrite Hcs1, Hcs0, Hcfg, Hmu0 in Hl.
  apply String.eqb_neq in Hi, Hb. rewrite Hi, Hb in Hl. simpl in Hl.
  injection Hl as <- <-.
  split; [done|]. split; [by rewrite Hm1|]. split; [by rewrite Hn1|].
  split; [by rewrite Hcfg|].
  intros l Hlt. unfold copyChromosomes in Hc.
  destruct (Config.chromosomes (config (setTaxids ideo).2)) as [v|].
  - rewrite Hmu0 in Hc.
    destruct (arrayElements (store (setTaxids ideo).2) v) as [copy|]; [|done].
    simpl in Hc. injection Hc as _ <-. simpl. rewrite Hst0.
    by apply lookup_app_l.
  - injection Hc as _ <-. by rewrite Hst0.
Qed.

(** ** Further properties: the unbanded path and the configured Array *)

Lemma processBandData_unbanded_inv ideo r ideo' :
  Unbanded ideo ->
  processBandData ideo = Some (r, ideo') ->
  ∃ l o ns,
    Config.chromosomes (config ideo) = Some (VRef l)
    ∧ store ideo !! l = Some o
    ∧ isArray o = true
    ∧ LengthsOf (elements o) ns
    ∧ r = []
    ∧ ideo' =
        setMaxLength
          (setMaxBp (foldl Z.max (max_bp (maxLength ideo)) ns) (maxLength ideo))
          (setNumChromosomes
             (numChromosomes ideo + Z.of_nat (length (elements o)))
             (setStore
                (<[l := setProp o (setTaxids ideo).1.1 (EList (elements o))]>
                   (store ideo ++ [arrayOf (elements o)]))
                (setTaxids ideo).2)).
Proof.
  intros Hu H. pose proof Hu as [Hcs Hm].
  apply processBandData_inv in H as (chrs & ideo1 & Hcopy & Hl).
  pose proof (setTaxids_Unbanded _ Hu) as Hu0.
  pose proof (setTaxids_frame ideo) as F. simpl in F.
  destruct F as (Hm0 & Hn0 & _ & Hst0 & Hch0 & Hmu0 & _).
  rewrite setTaxids_single in Hl by done. simpl in Hl.
  rewrite setTaxids_single by done. simpl.
  set (t := match Config.taxid (config ideo) with
            | TUndefined => default TUndefined (Config.taxids (config ideo) !! 0%nat)
            | t => t
            end) in *.
  pose proof (copyChromosomes_Unbanded _ _ _ Hcopy Hu0) as Hu1.
  destruct (setChromosomesByTaxid t chrs [] ideo1) as [[r1 ideo2]|] eqn:Hs;
    [|done].
  simpl in Hl. injection Hl as <- <-.
  apply setChromosomesByTaxid_unbanded_inv in Hs
    as (copy & ideow & elems & ns & Hcp & Hw & Hel & Hns & -> & ->); [|done].
  destruct (Config.chromosomes (config ideo)) as [[| |l]|] eqn:Hc.
  - unfold copyChromosomes in Hcopy. rewrite Hch0, Hmu0, Hm in Hcopy. done.
  - unfold copyChromosomes in Hcopy. rewrite Hch0, Hmu0, Hm in Hcopy. done.
  - destruct (store ideo !! l) as [o|] eqn:Ho.
    + apply copyChromosomes_single with (l := l) (o := o) in Hcopy
        as (Harr & -> & ->); [|by rewrite Hmu0|by rewrite Hch0|by rewrite Hst0].
      rewrite Hst0 in *.
      assert (l < length (store ideo))%nat as Hlt by (by eapply lookup_lt_Some).
      rewrite (arrayElements_lookup _ _ (arrayOf (elements o))) in Hcp;
        [|by apply list_lookup_middle|done].
      rewrite elements_arrayOf in Hcp. injection Hcp as <-.
      apply writeChromosomes_inv in Hw as (l' & o' & Hc' & Ho' & ->).
      simpl in Hc', Ho'. rewrite Hch0 in Hc'. injection Hc' as <-.
      rewrite lookup_app_l in Ho' by done.
      injection (eq_trans (eq_sym Ho') Ho) as ->.
      simpl in Hel. rewrite list_lookup_insert_ne in Hel by lia.
      rewrite list_lookup_middle in Hel by done. simpl in Hel.
      rewrite elements_arrayOf in Hel. injection Hel as <-.
      exists l, o, ns. repeat split; try done.
      simpl. rewrite ?Hm0, ?Hn0, ?Hst0. by rewrite (setTaxids_single ideo Hm).
    + unfold copyChromosomes in Hcopy. rewrite Hch0, Hmu0, Hm in Hcopy.
      simpl in Hcopy. rewrite Hst0, Ho in Hcopy. done.
  - unfold copyChromosomes in Hcopy. rewrite Hch0 in Hcopy.
    injection Hcopy as <- <-. done.
Qed.

Lemma LengthsOf_is_Some es ns :
  LengthsOf es ns -> Forall (fun e => is_Some (lengthOf e)) es.
Proof.
  intros H. induction H as [|e n es ns He _ IH]; constructor; [eauto|done].
Qed.

(** On the unbanded path [processBandData] returns exactly when
    [config.chromosomes] refers to an Array whose elements all have a
    [.length]; it throws when the chromosomes are not configured, are
    [undefined], [null] or not an Array, or when the Array has a hole. *)
Theorem unbanded_returns_iff (ideo : Ideo) :
  Unbanded ideo ->
  (∃ r ideo', processBandData ideo = Some (r, ideo'))
  ↔ (∃ l o,
       Config.chromosomes (config ideo) = Some (VRef l)
       ∧ store ideo !! l = Some o
       ∧ isArray o = true
       ∧ Forall (fun e => is_Some (lengthOf e)) (elements o)).
Proof.
  intros Hu. split.
  - intros (r & ideo' & H).
    apply processBandData_unbanded_inv in H
      as (l & o & ns & Hc & Ho & Harr & Hns & _); [|done].
    exists l, o. repeat split; try done. by eapply LengthsOf_is_Some.
  - intros (l & o & Hc & Ho & Harr & Hlen).
    by apply (processBandData_unbanded_returns ideo l o).
Qed.

Lemma getProp_arrayOf es i :
  getProp (arrayOf es) (Taxon (N.of_nat i)) = default EUndefined (es !! i).
Proof.
  unfold getProp, arrayOf. simpl.
  pose proof (indexed_lookup es 0 i) as Hi. rewrite N.add_0_l in Hi.
  by rewrite Hi.
Qed.

(** The elements of an Array after a write at an index at or beyond its
    length: the old elements, holes, and the value written. *)
Lemma elements_setProp_beyond es k v :
  (N.of_nat (length es) <= k < 4294967295)%N ->
  elements (setProp (arrayOf es) (Taxon k) v)
  = es ++ replicate (N.to_nat k - length es) EUndefined ++ [v].
Proof.
  intros [Hle Hlt]. apply list_eq. intros j. unfold elements.
  assert (arrayLength (setProp (arrayOf es) (Taxon k) v) = (k + 1)%N) as ->.
  { simpl. apply N.ltb_lt in Hlt. rewrite Hlt.
    apply N.leb_le in Hle. by rewrite Hle. }
  rewrite list_lookup_fmap.
  destruct (decide (j < N.to_nat (k + 1))%nat) as [Hj|Hj].
  - rewrite lookup_seq_lt by done. simpl.
    destruct (decide (j < length es)%nat) as [Hj1|Hj1].
    + rewrite lookup_app_l by done.
      rewrite getProp_setProp_ne by (intros [=]; lia).
      rewrite getProp_arrayOf.
      destruct (lookup_lt_is_Some_2 es j Hj1) as [x Hx]. by rewrite Hx.
    + rewrite lookup_app_r by lia.
      destruct (decide (j = N.to_nat k)) as [->|Hj2].
      * rewrite N2Nat.id, getProp_setProp_eq.
        rewrite lookup_app_r by (rewrite length_replicate; lia).
        rewrite length_replicate.
        by replace (N.to_nat k - length es - (N.to_nat k - length es))%nat
          with 0%nat by lia.
      * rewrite getProp_setProp_ne by (intros [=]; lia).
        rewrite getProp_arrayOf.
        rewrite (lookup_ge_None_2 es j) by lia. simpl.
        rewrite lookup_app_l by (rewrite length_replicate; lia).
        symmetry. f_equal. apply lookup_replicate_2. lia.
  - rewrite lookup_seq_ge by lia. simpl. symmetry.
    apply lookup_ge_None_2.
    rewrite !length_app, length_replicate. simpl. lia.
Qed.

(** On the unbanded path the list of the taxon is written into the
    configured Array itself, at the index that is the taxid.  For an Array
    of [n] chromosomes and a taxid beyond [n], the Array has [taxid + 1]
    elements after the run: its chromosomes, holes up to the taxid, and
    the list of its chromosomes; no other object that existed is changed. *)
Theorem unbanded_run_extends_configured_array (ideo : Ideo) (l : loc)
    (es : list Elem) (k : N) (r : list (list Band.t)) (ideo' : Ideo) :
  Unbanded ideo ->
  Config.chromosomes (config ideo) = Some (VRef l) ->
  store ideo !! l = Some (arrayOf es) ->
  (setTaxids ideo).1.1 = Taxon k ->
  (N.of_nat (length es) <= k < 4294967295)%N ->
  processBandData ideo = Some (r, ideo') ->
  Config.chromosomes (config ideo') = Some (VRef l)
  ∧ (∃ o', store ideo' !! l = Some o'
           ∧ isArray o' = true
           ∧ elements o'
             = es ++ replicate (N.to_nat k - length es) EUndefined
                  ++ [EList es])
  ∧ (∀ l', (l' < length (store ideo))%nat -> l' ≠ l ->
           store ideo' !! l' = store ideo !! l').
Proof.
  intros Hu Hc Ho Ht Hk H.
  apply processBandData_unbanded_inv in H
    as (l0 & o & ns & Hc0 & Ho0 & Harr & Hns & _ & ->); [|done].
  rewrite Hc in Hc0. injection Hc0 as <-.
  rewrite Ho in Ho0. injection Ho0 as <-.
  pose proof (setTaxids_frame ideo) as F. simpl in F.
  destruct F as (_ & _ & _ & _ & Hch0 & _).
  assert (l < length (store ideo))%nat as Hlt by (by eapply lookup_lt_Some).
  rewrite Ht, elements_arrayOf. simpl. split; [by rewrite Hch0|]. split.
  - exists (setProp (arrayOf es) (Taxon k) (EList es)).
    split; [|split; [done|by apply elements_setProp_beyond]].
    apply list_lookup_insert_eq. rewrite length_app. lia.
  - intros l' Hl' Hne. rewrite list_lookup_insert_ne by done.
    by apply lookup_app_l.
Qed.

(** On the unbanded path a second run throws when the taxid lies beyond
    the number of configured chromosomes: the first run has left holes in
    the configured Array, and a hole has no [.length]. *)
Theorem unbanded_second_run_throws (ideo : Ideo) (l : loc) (es : list Elem)
    (k : N) (r : list (list Band.t)) (ideo' : Ideo) :
  Unbanded ideo ->
  Config.chromosomes (config ideo) = Some (VRef l) ->
  store ideo !! l = Some (arrayOf es) ->
  (setTaxids ideo).1.1 = Taxon k ->
  (N.of_nat (length es) < k < 4294967295)%N ->
  processBandData ideo = Some (r, ideo') ->
  processBandData ideo' = None.
Proof.
  intros Hu Hc Ho Ht Hk H.
  apply processBandData_unbanded_inv in H
    as (l0 & o & ns & Hc0 & Ho0 & Harr & Hns & _ & ->); [|done].
  rewrite Hc in Hc0. injection Hc0 as <-.
  rewrite Ho in Ho0. injection Ho0 as <-.
  pose proof (setTaxids_frame ideo) as F. simpl in F.
  destruct F as (_ & _ & _ & _ & Hch0 & Hmu0 & _ & Hcs0).
  assert (l < length (store ideo))%nat as Hlt by (by eapply lookup_lt_Some).
  rewrite Ht, elements_arrayOf.
  match goal with |- processBandData ?i = None => set (ideo1 := i) end.
  destruct (processBandData ideo1) as [[r2 ideo2]|] eqn:H2; [|done].
  exfalso.
  assert (Unbanded ideo1) as Hu1.
  { destruct Hu as [Hcs Hm]. split; simpl.
    - by rewrite Hcs0, Hm.
    - by rewrite Hmu0. }
  apply processBandData_unbanded_inv in H2
    as (l2 & o2 & ns2 & Hc2 & Ho2 & _ & Hns2 & _); [|done].
  simpl in Hc2, Ho2. rewrite Hch0, Hc in Hc2. injection Hc2 as <-.
  rewrite list_lookup_insert_eq in Ho2 by (rewrite length_app; lia).
  injection Ho2 as <-.
  rewrite elements_setProp_beyond in Hns2 by lia.
  apply LengthsOf_is_Some in Hns2.
  apply Forall_app in Hns2 as [_ Hns2]. apply Forall_app in Hns2 as [Hns2 _].
  destruct (N.to_nat k - length es)%nat as [|n] eqn:E; [lia|].
  simpl in Hns2. apply list.Forall_cons in Hns2 as [[x Hx] _]. done.
Qed.

(** ** Further properties: the object behind [config.chromosomes] *)

(** Once [config.chromosomes] refers to an object, the assembly of a taxon
    keeps the reference, keeps the object an Array or not an Array as it
    was, and touches no property of it but the one of the taxon. *)
Lemma setChromosomesByTaxid_ref_stable t chrs acc ideo r ideo' l o :
  Config.chromosomes (config ideo) = Some (VRef l) ->
  store ideo !! l = Some o ->
  setChromosomesByTaxid t chrs acc ideo = Some (r, ideo') ->
  Config.chromosomes (config ideo') = Some (VRef l)
  ∧ ∃ o', store ideo' !! l = Some o'
          ∧ isArray o' = isArray o
          ∧ ∀ t', t' ≠ t -> getProp o' t' = getProp o t'.
Proof.
  intros Hc Ho H.
  assert (∀ v ideo1,
            writeChromosomes t v ideo = Some ideo1 ->
            Config.chromosomes (config ideo1) = Some (VRef l)
            ∧ ∃ o', store ideo1 !! l = Some o'
                    ∧ isArray o' = isArray o
                    ∧ ∀ t', t' ≠ t -> getProp o' t' = getProp o t') as Hwrite.
  { intros v ideo1 Hw.
    apply writeChromosomes_inv in Hw as (l' & o' & Hc' & Ho' & ->).
    rewrite Hc in Hc'. injection Hc' as <-.
    rewrite Ho in Ho'. injection Ho' as <-.
    split; [done|]. exists (setProp o t v). split; [|split; [done|]].
    - apply list_lookup_insert_eq. by eapply lookup_lt_Some.
    - intros t' Hne. by apply getProp_setProp_ne. }
  destruct (decide (Banded ideo)) as [Hb|Hnb].
  - rewrite setChromosomesByTaxid_banded in H by done.
    apply setChrsByTaxidsWithBands_inv in H
      as (seen & b & ideo1 & seg & _ & _ & Hw & _ & _ & _ & ->).
    assert (ensureChromosomes ideo = ideo) as He
      by (unfold ensureChromosomes; by rewrite Hc).
    rewrite He in Hw. by apply Hwrite in Hw.
  - destruct (decide (coordinateSystem ideo = "bp")) as [Hbp|Hnbp].
    + assert (Unbanded ideo) as Hu.
      { split; [done|].
        destruct (Config.multiorganism (config ideo)) eqn:E; [|done].
        destruct Hnb. by right. }
      apply setChromosomesByTaxid_unbanded_inv in H
        as (copy & ideo1 & elems & ns & _ & Hw & _ & _ & _ & ->); [|done].
      by apply Hwrite in Hw.
    + unfold setChromosomesByTaxid in H.
      assert (String.eqb (coordinateSystem ideo) "iscn"
              || Config.multiorganism (config ideo) = false) as E1.
      { apply orb_false_intro.
        - apply String.eqb_neq. intros E. apply Hnb. by left.
        - destruct (Config.multiorganism (config ideo)) eqn:E; [|done].
          destruct Hnb. by right. }
      rewrite E1 in H.
      apply String.eqb_neq in Hnbp. rewrite Hnbp in H.
      injection H as _ <-. split; [done|]. by exists o.
Qed.

Lemma taxaLoop_ref_stable taxids chrs acc ideo r ideo' l o :
  Config.chromosomes (config ideo) = Some (VRef l) ->
  store ideo !! l = Some o ->
  taxaLoop taxids chrs acc ideo = Some (r, ideo') ->
  Config.chromosomes (config ideo') = Some (VRef l)
  ∧ ∃ o', store ideo' !! l = Some o'
          ∧ isArray o' = isArray o
          ∧ ∀ t', t' ∉ taxids -> getProp o' t' = getProp o t'.
Proof.
  revert acc ideo o. induction taxids as [|t taxids IH];
    intros acc ideo o Hc Ho H; simpl in H.
  - injection H as _ <-. split; [done|]. by exists o.
  - destruct (setChromosomesByTaxid t chrs acc ideo) as [[r1 ideo1]|] eqn:Hs;
      [|done].
    simpl in H.
    apply (setChromosomesByTaxid_ref_stable _ _ _ _ _ _ _ _ Hc Ho) in Hs
      as (Hc1 & o1 & Ho1 & Ha1 & Hp1).
    apply (IH _ _ _ Hc1 Ho1) in H as (Hc2 & o2 & Ho2 & Ha2 & Hp2).
    split; [done|]. exists o2. split; [done|]. split; [by rewrite Ha2|].
    intros t' Hnot. apply not_elem_of_cons in Hnot as [Hne Hnot].
    rewrite Hp2 by done. by apply Hp1.
Qed.

Lemma processBandData_creates_object ideo r ideo' :
  Banded ideo ->
  Config.chromosomes (config ideo) = None
  ∨ Config.chromosomes (config ideo) = Some VNull ->
  (setTaxids ideo).1.2 ≠ [] ->
  processBandData ideo = Some (r, ideo') ->
  Config.chromosomes (config ideo') = Some (VRef (length (store ideo)))
  ∧ (∃ o', store ideo' !! length (store ideo) = Some o'
           ∧ isArray o' = false
           ∧ ∀ t, t ∉ (setTaxids ideo).1.2 -> getProp o' t = EUndefined)
  ∧ (∀ l, (l < length (store ideo))%nat -> store ideo' !! l = store ideo !! l)
  ∧ Config.multiorganism (config ideo') = Config.multiorganism (config ideo).
Proof.
  intros Hb Hc Hne H.
  apply processBandData_inv in H as (chrs & ideo1 & Hcopy & Hl).
  pose proof (setTaxids_Banded _ Hb) as Hb0.
  pose proof (setTaxids_frame ideo) as F. simpl in F.
  destruct F as (_ & _ & _ & Hst0 & Hch0 & Hmu0 & _).
  assert (ideo1 = (setTaxids ideo).2) as ->.
  { unfold copyChromosomes in Hcopy. rewrite Hch0 in Hcopy.
    destruct Hc as [Hc|Hc]; rewrite Hc in Hcopy.
    - by injection Hcopy as _ <-.
    - destruct (Config.multiorganism (config (setTaxids ideo).2));
        [by injection Hcopy as _ <-|done]. }
  destruct (setTaxids ideo).1.2 as [|t taxids]; [done|]. simpl in Hl.
  destruct (setChromosomesByTaxid t chrs [] (setTaxids ideo).2)
    as [[r1 ideo2]|] eqn:Hs; [|done].
  simpl in Hl.
  pose proof (setChromosomesByTaxid_Frame _ _ _ _ _ _ Hs) as [F1 _].
  pose proof (taxaLoop_Frame _ _ _ _ _ _ Hl) as [F2 _].
  rewrite setChromosomesByTaxid_banded in Hs by done.
  apply setChrsByTaxidsWithBands_inv in Hs
    as (seen & b & ideow & seg & _ & _ & Hw & _ & _ & _ & ->).
  assert (ensureChromosomes (setTaxids ideo).2
          = setConfig
              (setConfigChromosomes (Some (VRef (length (store ideo))))
                 (config (setTaxids ideo).2))
              (setStore (store ideo ++ [emptyObject]) (setTaxids ideo).2))
    as He.
  { unfold ensureChromosomes. rewrite Hch0.
    destruct Hc as [Hc|Hc]; rewrite Hc; unfold alloc; by rewrite Hst0. }
  rewrite He in Hw.
  apply writeChromosomes_inv in Hw as (l' & o' & Hc' & Ho' & ->).
  simpl in Hc', Ho'. injection Hc' as <-.
  rewrite list_lookup_middle in Ho' by done. injection Ho' as <-.
  eapply taxaLoop_ref_stable in Hl as (Hc2 & o2 & Ho2 & Ha2 & Hp2);
    [|done|simpl; apply list_lookup_insert_eq; rewrite length_app; simpl; lia].
  split; [done|]. split.
  - exists o2. split; [done|]. split; [done|].
    intros t' Hnot. apply not_elem_of_cons in Hnot as [Hne' Hnot].
    rewrite Hp2 by done. by rewrite getProp_setProp_ne.
  - pose proof (Frame_trans _ _ _ F1 F2)
      as (_ & _ & M & _ & _ & _ & _ & _ & _ & _ & _ & _ & O).
    split; [|by rewrite M].
    intros l Hlt. rewrite <- Hst0. apply O; [by rewrite Hst0|].
    rewrite Hch0. by destruct Hc as [-> | ->].
Qed.

(** On the banded path, with [config.chromosomes] missing or [null] and a
    taxon to process, a run that returns has made [config.chromosomes] a
    new object that is not an Array and has no property but those of the
    processed taxa; no object that existed before is changed. *)
Theorem banded_run_creates_chromosomes_object (ideo : Ideo)
    (r : list (list Band.t)) (ideo' : Ideo) :
  Banded ideo ->
  Config.chromosomes (config ideo) = None
  ∨ Config.chromosomes (config ideo) = Some VNull ->
  (setTaxids ideo).1.2 ≠ [] ->
  processBandData ideo = Some (r, ideo') ->
  Config.chromosomes (config ideo') = Some (VRef (length (store ideo)))
  ∧ (∃ o', store ideo' !! length (store ideo) = Some o'
           ∧ isArray o' = false
           ∧ ∀ t, t ∉ (setTaxids ideo).1.2 -> getProp o' t = EUndefined)
  ∧ (∀ l, (l < length (store ideo))%nat -> store ideo' !! l = store ideo !! l).
Proof.
  intros Hb Hc Hne H.
  destruct (processBandData_creates_object _ _ _ Hb Hc Hne H)
    as (H1 & H2 & H3 & _).
  done.
Qed.

Lemma arrayElements_not_Array sigma l o :
  sigma !! l = Some o -> isArray o = false ->
  arrayElements sigma (VRef l) = None.
Proof. intros Ho Ha. simpl. rewrite Ho. simpl. by rewrite Ha. Qed.

(** One organism, ISCN coordinates, no chromosomes configured: after a
    run that returns, [config.chromosomes] is an object that is not an
    Array, and a second run throws where it copies the chromosomes with
    [.slice()]. *)
Theorem iscn_second_run_throws (ideo : Ideo) (r : list (list Band.t))
    (ideo' : Ideo) :
  coordinateSystem ideo = "iscn" ->
  Config.multiorganism (config ideo) = false ->
  Config.chromosomes (config ideo) = None ->
  processBandData ideo = Some (r, ideo') ->
  processBandData ideo' = None.
Proof.
  intros Hcs Hm Hc H.
  destruct (processBandData_creates_object ideo r ideo')
    as (H1 & (o' & Ho' & Ha' & _) & _ & Hm'); try done.
  { by left. }
  { by left. }
  { by rewrite setTaxids_single. }
  destruct (processBandData ideo') as [[r2 ideo2]|] eqn:H2; [|done].
  apply processBandData_inv in H2 as (chrs & ideo1 & Hcopy & _).
  pose proof (setTaxids_frame ideo') as F. simpl in F.
  destruct F as (_ & _ & _ & Hst0 & Hch0 & Hmu0 & _).
  unfold copyChromosomes in Hcopy.
  rewrite Hch0, H1, Hmu0, Hm', Hm, Hst0 in Hcopy.
  by rewrite (arrayElements_not_Array _ _ _ Ho' Ha') in Hcopy.
Qed.

End Bands.

(** ** The comparison function and the maxima *)

(** The assembly of a taxon depends on the comparison function only for
    the order: when it returns with one comparison function it returns
    with any other, with the same maxima, the same chromosome count and the
    same configuration; the bands returned and the names stored are
    rearranged. *)
Theorem comparison_function_only_orders
    (parseBands : option RawBands -> Taxid -> Seen -> option BandsByChr)
    (cmp1 cmp2 : string -> string -> Z)
    (taxid : Taxid) (chrs : value) (bandsArray : list (list Band.t))
    (ideo : Ideo) (r1 : list (list Band.t)) (ideo1 : Ideo) :
  setChrsByTaxidsWithBands parseBands cmp1 taxid chrs bandsArray ideo
  = Some (r1, ideo1) ->
  ∃ r2 ideo2,
    setChrsByTaxidsWithBands parseBands cmp2 taxid chrs bandsArray ideo
    = Some (r2, ideo2)
    ∧ maxLength ideo2 = maxLength ideo1
    ∧ numChromosomes ideo2 = numChromosomes ideo1
    ∧ config ideo2 = config ideo1
    ∧ Permutation r1 r2
    ∧ ∃ names1 names2,
        readChromosomes taxid ideo1 = Some (EList (map EName names1))
        ∧ readChromosomes taxid ideo2 = Some (EList (map EName names2))
        ∧ Permutation names1 names2.
Proof.
  intros H.
  apply setChrsByTaxidsWithBands_inv in H
    as (seen & b & ideow & seg & Hd & Hp & Hw & Hseg & Hne & -> & ->).
  pose proof (readChromosomes_write_eq _ _ _ _ Hw) as Hr1.
  apply writeChromosomes_inv in Hw as (l & o & Hc & Ho & ->).
  assert (Permutation (sort cmp1 (keys b)) (sort cmp2 (keys b))) as Hperm.
  { rewrite sort_Permutation. symmetry. apply sort_Permutation. }
  pose proof (BandsOf_map _ _ _ Hseg) as ->.
  assert (BandsOf b (sort cmp2 (keys b)) (map (bandsAt b) (sort cmp2 (keys b))))
    as Hseg2.
  { apply BandsOf_bandsAt. intros c Hin. rewrite <- Hperm in Hin.
    by eapply BandsOf_is_Some. }
  assert (Permutation (map (bandsAt b) (sort cmp1 (keys b)))
            (map (bandsAt b) (sort cmp2 (keys b)))) as Hpm
    by (by apply Permutation_map).
  set (ideow2 :=
         setStore
           (<[l := setProp o taxid (EList (map EName (sort cmp2 (keys b))))]>
              (store (ensureChromosomes ideo)))
           (ensureChromosomes ideo)).
  assert (writeChromosomes taxid (EList (map EName (sort cmp2 (keys b))))
            (ensureChromosomes ideo) = Some ideow2) as Hw2.
  { unfold writeChromosomes. by rewrite Hc, Ho. }
  eexists _, _. split.
  - change (setChrsByTaxidsWithBands parseBands cmp2 taxid chrs bandsArray ideo)
      with
      (seen ← deref (store ideo) chrs;
       bandsByChr ← parseBands (bandData ideo !! taxid) taxid seen;
       ideo1 ← writeChromosomes taxid
                 (EList (map EName (sort cmp2 (keys bandsByChr))))
                 (ensureChromosomes ideo);
       stored ← readChromosomes taxid ideo1;
       n ← lengthOf stored;
       bandsLoop (sort cmp2 (keys bandsByChr)) bandsByChr taxid
         bandsArray (setNumChromosomes (numChromosomes ideo1 + n) ideo1)).
    rewrite Hd. change (Some seen ≫= ?f) with (f seen). cbv beta.
    rewrite Hp. change (Some b ≫= ?f) with (f b). cbv beta.
    rewrite Hw2. change (Some ideow2 ≫= ?f) with (f ideow2). cbv beta.
    rewrite (readChromosomes_write_eq _ _ _ _ Hw2).
    change (Some ?x ≫= ?f) with (f x). cbv beta.
    change (lengthOf (EList ?x)) with (Some (Z.of_nat (length x))).
    change (Some ?x ≫= ?f) with (f x). cbv beta.
    apply (bandsLoop_exact _ _ _ _ _ _ Hseg2). by rewrite <- Hpm.
  - change (maxLength (setMaxLength ?m _)) with m.
    change (maxLength (setNumChromosomes _ ideow2))
      with (maxLength (ensureChromosomes ideo)).
    pose proof (ensureChromosomes_frame ideo) as (-> & Hn & _).
    split; [symmetry; by apply trackedAll_Permutation|].
    split.
    { simpl. rewrite Hn, !length_map.
      by rewrite (Permutation_length Hperm). }
    split; [done|].
    split; [by apply Permutation_app_head|].
    exists (sort cmp1 (keys b)), (sort cmp2 (keys b)).
    split; [exact Hr1|]. split; [|done].
    apply (readChromosomes_write_eq _ _ _ _ Hw2).
Qed.

(** ** The natural order is a consistent comparison *)

Lemma TotalOrder_refl {A} (cmp : A -> A -> comparison) (x : A) :
  TotalOrder cmp -> cmp x x = Eq.
Proof.
  intros [Hsym _ _]. specialize (Hsym x x). by destruct (cmp x x).
Qed.

Lemma lexCompare_TotalOrder {A} (cmp : A -> A -> comparison) :
  TotalOrder cmp -> TotalOrder (lexCompare cmp).
Proof.
  intros Hc. pose proof Hc as [Hsym Heq Htrans]. split.
  - intros l1. induction l1 as [|x l1 IH]; intros [|y l2]; simpl; try done.
    rewrite (Hsym x y). destruct (cmp x y); simpl; done || apply IH.
  - intros l1. induction l1 as [|x l1 IH]; intros [|y l2]; simpl; try done.
    destruct (cmp x y) eqn:E; try done. intros H.
    rewrite (Heq _ _ E), (IH _ H). done.
  - intros l1. induction l1 as [|x l1 IH]; intros [|y l2] [|z l3]; simpl;
      try done.
    destruct (cmp x y) eqn:E1; destruct (cmp y z) eqn:E2; try done; intros H1 H2.
    + apply Heq in E1 as ->. rewrite E2. by eapply IH.
    + apply Heq in E1 as ->. by rewrite E2.
    + apply Heq in E2 as <-. by rewrite E1.
    + by rewrite (Htrans _ _ _ E1 E2).
Qed.

Lemma N_compare_TotalOrder : TotalOrder N.compare.
Proof.
  split.
  - intros x y. apply N.compare_antisym.
  - intros x y. apply N.compare_eq.
  - intros x y z. rewrite !N.compare_lt_iff. lia.
Qed.

Lemma compareToken_TotalOrder : TotalOrder compareToken.
Proof.
  pose proof N_compare_TotalOrder as [Nsym Neq Ntrans].
  pose proof (lexCompare_TotalOrder _ N_compare_TotalOrder) as [Lsym Leq Ltrans].
  split.
  - intros [m|u] [n|v]; simpl; first [done | apply Nsym | apply Lsym].
  - intros [m|u] [n|v]; simpl; try done; intros H;
      first [by rewrite (Neq _ _ H) | by rewrite (Leq _ _ H)].
  - intros [m|u] [n|v] [k|w]; simpl;
      first [done | apply Ntrans | apply Ltrans].
Qed.

Lemma naturalOrder_Consistent : Consistent naturalOrder.
Proof.
  pose proof (lexCompare_TotalOrder _ compareToken_TotalOrder)
    as [Hsym Heq Htrans].
  unfold Consistent, before, naturalOrder. split.
  - intros a b. rewrite (Hsym (tokens a) (tokens b)).
    destruct (lexCompare compareToken (tokens a) (tokens b)); simpl; lia.
  - intros a b c.
    destruct (lexCompare compareToken (tokens a) (tokens b)) eqn:E1;
      destruct (lexCompare compareToken (tokens b) (tokens c)) eqn:E2;
      try lia; intros _ _.
    + apply Heq in E1. rewrite E1, E2. lia.
    + apply Heq in E1. rewrite E1, E2. lia.
    + apply Heq in E2. rewrite <- E2, E1. lia.
    + rewrite (Htrans _ _ _ E1 E2). lia.
Qed.

(** ** The order of the stored chromosome names *)

(** C4. On the banded path the list stored under
    [config.chromosomes[taxid]] holds the keys of the mapping that
    [parseBands] returned, sorted by the natural order: it is a
    rearrangement of the keys in which every name comes before, or ties
    with, every later one; and ["chr10", "chr2", "chr1"] is sorted to
    ["chr1", "chr2", "chr10"]. *)
Theorem stored_names_in_natural_order
    (parseBands : option RawBands -> Taxid -> Seen -> option BandsByChr)
    (taxid : Taxid) (chrs : value) (bandsArray : list (list Band.t))
    (ideo : Ideo) (r : list (list Band.t)) (ideo' : Ideo) :
  setChrsByTaxidsWithBands parseBands naturalOrder taxid chrs bandsArray ideo
  = Some (r, ideo') ->
  (∃ seen bandsByChr chrNames,
     deref (store ideo) chrs = Some seen
     ∧ parseBands (bandData ideo !! taxid) taxid seen = Some bandsByChr
     ∧ readChromosomes taxid ideo' = Some (EList (map EName chrNames))
     ∧ chrNames = sort naturalOrder (keys bandsByChr)
     ∧ Permutation chrNames (keys bandsByChr)
     ∧ StronglySorted (before naturalOrder) chrNames)
  ∧ sort naturalOrder ["chr10"; "chr2"; "chr1"] = ["chr1"; "chr2"; "chr10"].
Proof.
  intros H. split; [|reflexivity].
  apply stored_names_sorted in H as (seen & b & Hd & Hp & Hr).
  exists seen, b, (sort naturalOrder (keys b)).
  repeat split; try done.
  - apply sort_Permutation.
  - apply sort_StronglySorted, naturalOrder_Consistent.
Qed.

(** ** The bands returned, in natural order *)

(** C8. On the banded path [processBandData] returns the concatenation,
    over the resolved taxid list in its order, of the band lists of each
    taxon: one band list per chromosome of the mapping that [parseBands]
    returned for the taxon, and the chromosomes are taken in natural
    order, that is, their names are a rearrangement of the keys of the
    mapping in which every name comes before, or ties with, every later
    one.  The run does return when the configuration is accepted and the
    parser keeps its contract.  On the unbanded path it returns the empty
    list. *)
Theorem processBandData_returns_concatenation
    (parseBands : option RawBands -> Taxid -> Seen -> option BandsByChr)
    (ideo : Ideo) :
  (Banded ideo ->
   Configured ideo ->
   ParserContract parseBands (bandData ideo) (setTaxids ideo).1.2 ->
   ∃ r ideo', processBandData parseBands naturalOrder ideo = Some (r, ideo'))
  ∧ ∀ r ideo',
      processBandData parseBands naturalOrder ideo = Some (r, ideo') ->
      (Banded ideo ->
       ∃ segs,
         Forall2 (SortedTaxonBands parseBands naturalOrder (bandData ideo))
           (setTaxids ideo).1.2 segs
         ∧ r = concat segs)
      ∧ (Unbanded ideo -> r = []).
Proof.
  destruct (processBandData_concat parseBands naturalOrder ideo)
    as (Hreturns & Hconcat).
  split; [exact Hreturns|].
  intros r ideo' H. destruct (Hconcat r ideo' H) as (Hb & Hu).
  split; [|exact Hu].
  intros HB. destruct (Hb HB) as (segs & Hsegs & ->).
  exists segs. split; [|done].
  clear -Hsegs.
  induction Hsegs as [|t seg taxids segs Ht _ IH]; [constructor|].
  constructor; [|exact IH].
  apply TaxonBands_sorted; [apply naturalOrder_Consistent|exact Ht].
Qed.

(** ** The sample runs *)

(** C7, the run that breaks it.  With several organisms configured,
    [processBandData] hands [config.chromosomes] itself to the assembler:
    nothing is copied.  The assembly of the first taxon overwrites the
    list configured for it, the object that [chrs] refers to shows the
    overwritten list to the assembly of the next taxon, and the caller's
    collection is left changed at the end of the run. *)
Theorem multiorganism_chrs_is_the_configured_object :
  let ideo0 := (setTaxids ideoTwo).2 in
  Config.chromosomes (config ideo0) = Some (VRef 0)
  ∧ copyChromosomes ideo0 = Some (VRef 0, ideo0)
  ∧ deref (store ideo0) (VRef 0) = Some (SeenObj configuredChromosomes)
  ∧ getProp configuredChromosomes (Taxon 9606)
    = EList [EName "chr2"; EName "chr1"]
  ∧ ∃ r ideo1,
      setChromosomesByTaxid sampleParser naturalOrder (Taxon 9606) (VRef 0) []
        ideo0 = Some (r, ideo1)
      ∧ deref (store ideo1) (VRef 0)
        = Some (SeenObj (setProp configuredChromosomes (Taxon 9606)
                           (EList [EName "chr1"; EName "chr2"])))
      ∧ ∃ r' ideo',
          processBandData sampleParser naturalOrder ideoTwo = Some (r', ideo')
          ∧ Config.chromosomes (config ideo') = Some (VRef 0)
          ∧ store ideo' !! 0%nat
            = Some (setProp
                      (setProp configuredChromosomes (Taxon 9606)
                         (EList [EName "chr1"; EName "chr2"]))
                      (Taxon 10090) (EList [EName "1"])).
Proof.
  cbv zeta. split; [reflexivity|]. split; [reflexivity|].
  split; [reflexivity|]. split; [reflexivity|].
  eexists _, _. split; [vm_compute; reflexivity|].
  split; [vm_compute; reflexivity|].
  eexists _, _. split; [vm_compute; reflexivity|].
  split; vm_compute; reflexivity.
Qed.

Lemma multiorganism_forces_bp_and_banded_path_witness :
  Config.multiorganism (config ideoTwo) = true
  ∧ coordinateSystem (setTaxids ideoTwo).2 = "bp"
  ∧ processBandData sampleParser naturalOrder ideoTwo
    = bandedLoop sampleParser naturalOrder [Taxon 9606; Taxon 10090]
        (VRef 0) [] (setTaxids ideoTwo).2.
Proof.
  split; [reflexivity|].
  destruct (multiorganism_forces_bp_and_banded_path sampleParser naturalOrder
              ideoTwo) as (H1 & _ & H3); [reflexivity|].
  split; [exact H1|]. rewrite H3. reflexivity.
Defined.

Lemma ideoTwo_parsed : ParserContract sampleParser (bandData ideoTwo)
                         [Taxon 9606; Taxon 10090].
Proof.
  intros t seen Ht.
  apply elem_of_cons in Ht as [->|Ht];
    [|apply list_elem_of_singleton in Ht as ->].
  - destruct seen as [| |o]; try (eexists; split; [reflexivity|]; repeat constructor; done).
    unfold sampleParser. simpl.
    destruct (getProp o (Taxon 9606)); eexists; (split; [reflexivity|]);
      try (repeat constructor; done).
    apply list.Forall_forall. intros p Hp.
    apply list_elem_of_filter in Hp as [_ Hp].
    revert p Hp. apply list.Forall_forall. repeat constructor; done.
  - destruct seen as [| |o]; try (eexists; split; [reflexivity|]; repeat constructor; done).
    unfold sampleParser. simpl.
    destruct (getProp o (Taxon 10090)); eexists; (split; [reflexivity|]);
      try (repeat constructor; done).
    apply list.Forall_forall. intros p Hp.
    apply list_elem_of_filter in Hp as [_ Hp].
    revert p Hp. apply list.Forall_forall. repeat constructor; done.
Qed.

Lemma maxima_are_the_maximal_stops_witness :
  ∃ r ideo',
    processBandData sampleParser naturalOrder ideoTwo = Some (r, ideo')
    ∧ byTaxid (maxLength ideo') !! Taxon 9606
      = Some {| Len.bp := 2500; Len.iscn := 100 |}
    ∧ ∃ segs,
        r = concat segs
        ∧ Forall2
            (fun t seg =>
               seg ≠ [] ->
               ∃ e, byTaxid (maxLength ideo') !! t = Some e
                    ∧ IsMax (Len.iscn e) (lengthsIn Len.iscn seg)
                    ∧ IsMax (Len.bp e) (lengthsIn Len.bp seg))
            [Taxon 9606; Taxon 10090] segs
        ∧ (r ≠ [] ->
           IsMax (max_iscn (maxLength ideo')) (lengthsIn Len.iscn r)
           ∧ IsMax (max_bp (maxLength ideo')) (lengthsIn Len.bp r)).
Proof.
  eexists _, _. split; [vm_compute; reflexivity|]. split; [reflexivity|].
  destruct (maxima_are_the_maximal_stops sampleParser naturalOrder ideoTwo)
    as (_ & H).
  - right. reflexivity.
  - reflexivity.
  - refine (bool_decide_unpack _ _). vm_compute. exact I.
  - edestruct H as (segs & _ & Hr & Ht & Hg).
    + vm_compute. reflexivity.
    + repeat constructor; vm_compute; discriminate.
    + exists segs. split; [exact Hr|]. split; [exact Ht|exact Hg].
Defined.

Lemma banded_maxima_grow_and_global_is_max_over_taxa_witness :
  ∃ r ideo',
    getBandsArray "chr1" humanBands (Taxon 9606) ideoHuman = Some (r, ideo')
    ∧ Sound (maxLength ideoHuman)
    ∧ Sound (maxLength ideo')
    ∧ GlobalMaxima (maxLength ideo').
Proof.
  eexists _, _. split; [vm_compute; reflexivity|].
  edestruct (banded_maxima_grow_and_global_is_max_over_taxa sampleParser
               naturalOrder "chr1" humanBands (Taxon 9606) ideoHuman)
    as (_ & Hs & Hf & _).
  - vm_compute. reflexivity.
  - split; [exact Hf|]. apply Hs. exact Hf.
Defined.

Lemma stored_names_in_natural_order_witness :
  ∃ r ideo',
    setChrsByTaxidsWithBands sampleParser naturalOrder (Taxon 9606) VUndefined
      [] ideoHuman = Some (r, ideo')
    ∧ keys humanBands = ["chr10"; "chr2"; "chr1"]
    ∧ readChromosomes (Taxon 9606) ideo'
      = Some (EList [EName "chr1"; EName "chr2"; EName "chr10"])
    ∧ ∃ chrNames,
        readChromosomes (Taxon 9606) ideo' = Some (EList (map EName chrNames))
        ∧ StronglySorted (before naturalOrder) chrNames.
Proof.
  eexists _, _. split; [vm_compute; reflexivity|]. split; [reflexivity|].
  split; [reflexivity|].
  edestruct (stored_names_in_natural_order sampleParser (Taxon 9606)
               VUndefined [] ideoHuman)
    as ((seen & b & chrNames & _ & _ & Hr & _ & _ & Hs) & _).
  - vm_compute. reflexivity.
  - exists chrNames. split; [exact Hr|exact Hs].
Defined.

Lemma unbanded_count_and_bp_maximum_witness :
  ∃ r ideo',
    processBandData sampleParser naturalOrder ideoUnbanded = Some (r, ideo')
    ∧ numChromosomes ideo' = 3%Z
    ∧ max_bp (maxLength ideo') = 1000%Z
    ∧ ∃ ns,
        LengthsOf [EChr "1" 1000; EChr "2" 900; EChr "X" 600] ns
        ∧ IsMax (max_bp (maxLength ideo')) ns.
Proof.
  eexists _, _. split; [vm_compute; reflexivity|]. split; [reflexivity|].
  split; [reflexivity|].
  destruct (unbanded_count_and_bp_maximum sampleParser naturalOrder
              ideoUnbanded 0%nat
              (arrayOf [EChr "1" 1000; EChr "2" 900; EChr "X" 600]))
    as (_ & H).
  - split; reflexivity.
  - reflexivity.
  - reflexivity.
  - edestruct H as (ns & Hns & _ & _ & _ & Hmax).
    + vm_compute. reflexivity.
    + exists ns. rewrite elements_arrayOf in Hns. split; [exact Hns|].
      apply Hmax; [reflexivity|].
      inversion Hns as [|e n es ns' Hn Hrest]; subst.
      exists n. split; [apply list_elem_of_here|].
      simpl in Hn. injection Hn as <-. lia.
Defined.

Lemma numChromosomes_is_sum_of_list_lengths_witness :
  ∃ r ideo',
    processBandData sampleParser naturalOrder ideoTwo = Some (r, ideo')
    ∧ numChromosomes ideo' = 3%Z
    ∧ ∃ lists,
        Forall2 (fun t l => readChromosomes t ideo' = Some (EList l))
          [Taxon 9606; Taxon 10090] lists
        ∧ numChromosomes ideo' = (0 + sumOfLengths lists)%Z.
Proof.
  eexists _, _. split; [vm_compute; reflexivity|]. split; [reflexivity|].
  edestruct (numChromosomes_is_sum_of_list_lengths sampleParser naturalOrder
               ideoTwo) as (Htx & lists & Hl & Hsum).
  - right. left. reflexivity.
  - refine (bool_decide_unpack _ _). vm_compute. exact I.
  - vm_compute. reflexivity.
  - exists lists. split; [exact Hl|exact Hsum].
Defined.

Lemma processBandData_returns_concatenation_witness :
  (∃ r ideo',
     processBandData sampleParser naturalOrder ideoTwo = Some (r, ideo'))
  ∧ ∃ r ideo',
      processBandData sampleParser naturalOrder ideoTwo = Some (r, ideo')
      ∧ r = [[band 60 1200; band 100 2500]; [band 50 2400]; [band 80 1900]]
      ∧ ∃ segs,
          Forall2 (SortedTaxonBands sampleParser naturalOrder (bandData ideoTwo))
            [Taxon 9606; Taxon 10090] segs
          ∧ r = concat segs.
Proof.
  destruct (processBandData_returns_concatenation sampleParser ideoTwo)
    as (Hreturns & Hconcat).
  split.
  - apply Hreturns.
    + right. reflexivity.
    + exists configuredChromosomes. split; [reflexivity|discriminate].
    + exact ideoTwo_parsed.
  - eexists _, _. split; [vm_compute; reflexivity|]. split; [reflexivity|].
    edestruct Hconcat as (Hb & _).
    + vm_compute. reflexivity.
    + apply Hb. right. reflexivity.
Defined.

Lemma setTaxids_single_organism_witness :
  Config.multiorganism (config ideoHuman) = false
  ∧ (setTaxids ideoHuman).1 = (Taxon 9606, [Taxon 9606])
  ∧ Config.taxids (config (setTaxids ideoHuman).2) = [Taxon 9606].
Proof.
  split; [reflexivity|].
  destruct (setTaxids_single_organism ideoHuman) as (H1 & H2 & _);
    [reflexivity|].
  split; [exact H1|exact H2].
Defined.

Lemma unbanded_path_leaves_taxon_maxima_witness :
  ∃ r ideo',
    processBandData sampleParser naturalOrder ideoUnbanded = Some (r, ideo')
    ∧ Unbanded ideoUnbanded
    ∧ byTaxid (maxLength ideo') = byTaxid (maxLength ideoUnbanded)
    ∧ max_iscn (maxLength ideo') = max_iscn (maxLength ideoUnbanded).
Proof.
  eexists _, _. split; [vm_compute; reflexivity|].
  assert (Unbanded ideoUnbanded) as Hu by (split; reflexivity).
  split; [exact Hu|].
  destruct (unbanded_path_leaves_taxon_maxima sampleParser naturalOrder
              ideoUnbanded Hu) as (_ & Hp).
  edestruct Hp as (Hb & Hi & _).
  - vm_compute. reflexivity.
  - split; [exact Hb|exact Hi].
Defined.

(** C3 as stated fails on the unbanded path: from a fresh
    [ideo.maxLength], the run over chromosomes given by their lengths
    raises the global [bp] maximum to 1000 while no taxon has an entry, so
    the global maximum is not the maximum over the per-taxon maxima. *)
Lemma unbanded_global_bp_is_not_a_taxon_maximum :
  ∃ r ideo',
    processBandData sampleParser naturalOrder ideoUnbanded = Some (r, ideo')
    ∧ maxLength ideoUnbanded = freshMaxLength
    ∧ max_bp (maxLength ideo') = 1000%Z
    ∧ byTaxid (maxLength ideo') = ∅
    ∧ ¬ GlobalMaxima (maxLength ideo')
    ∧ ¬ Sound (maxLength ideo').
Proof.
  eexists _, _. split; [vm_compute; reflexivity|]. split; [reflexivity|].
  split; [reflexivity|]. split; [reflexivity|]. split.
  - intros [(_ & t & e & H & _) _]. vm_compute in H. discriminate.
  - intros (_ & He & _). by destruct (He eq_refl).
Qed.

(** The example of the design description: taxon 9606 with a last band of
    chromosome 1 that stops at ISCN coordinate 100 and shorter other
    chromosomes yields [maxLength[9606].iscn = 100] and
    [maxLength.iscn = 100]. *)
Example human_iscn_maximum :
  ∃ r ideo',
    processBandData sampleParser naturalOrder ideoHuman = Some (r, ideo')
    ∧ Len.iscn <$> byTaxid (maxLength ideo') !! Taxon 9606 = Some 100%Z
    ∧ max_iscn (maxLength ideo') = 100%Z
    ∧ numChromosomes ideo' = 3%Z.
Proof.
  eexists _, _. split; [vm_compute; reflexivity|].
  repeat split; vm_compute; reflexivity.
Qed.

(** ** Sample runs of the further properties *)

Lemma getBandsArray_effect_witness :
  ∃ r ideo',
    getBandsArray "chr1" humanBands (Taxon 9606) ideoHuman = Some (r, ideo')
    ∧ r = [[band 60 1200; band 100 2500]]
    ∧ byTaxid (maxLength ideo') !! Taxon 9606
      = Some {| Len.bp := 2500; Len.iscn := 100 |}
    ∧ (max_bp (maxLength ideoHuman) <= max_bp (maxLength ideo'))%Z.
Proof.
  eexists _, _. split; [vm_compute; reflexivity|].
  edestruct (getBandsArray_effect "chr1" humanBands (Taxon 9606) ideoHuman)
    as (bands & lastBand & Hl & Hlast & Hr & _ & He & _ & _ & _ & Hb & _).
  - vm_compute. reflexivity.
  - vm_compute in Hl. injection Hl as <-.
    vm_compute in Hlast. injection Hlast as <-.
    split; [exact Hr|]. split; [exact He|exact Hb].
Defined.

Lemma bandsLoop_again_witness :
  ∃ r ideo1,
    bandsLoop ["chr1"; "chr2"; "chr10"] humanBands (Taxon 9606) [] ideoHuman
    = Some (r, ideo1)
    ∧ max_iscn (maxLength ideo1) = 100%Z
    ∧ bandsLoop ["chr1"; "chr2"; "chr10"] humanBands (Taxon 9606) [] ideo1
      = Some (r, ideo1).
Proof.
  eexists _, _. split; [vm_compute; reflexivity|]. split; [reflexivity|].
  apply (bandsLoop_again ["chr1"; "chr2"; "chr10"] humanBands (Taxon 9606) []
           ideoHuman).
  vm_compute. reflexivity.
Defined.

Lemma banded_count_is_number_of_band_lists_witness :
  ∃ r ideo',
    processBandData sampleParser naturalOrder ideoTwo = Some (r, ideo')
    ∧ Banded ideoTwo
    ∧ length r = 3%nat
    ∧ numChromosomes ideo' = (numChromosomes ideoTwo + Z.of_nat (length r))%Z.
Proof.
  eexists _, _. split; [vm_compute; reflexivity|].
  assert (Banded ideoTwo) as Hb by (left; reflexivity).
  split; [exact Hb|]. split; [reflexivity|].
  apply (banded_count_is_number_of_band_lists sampleParser naturalOrder
           ideoTwo _ _ Hb).
  vm_compute. reflexivity.
Defined.

Lemma processBandData_only_raises_witness :
  ∃ r ideo',
    processBandData sampleParser naturalOrder ideoTwo = Some (r, ideo')
    ∧ (max_bp (maxLength ideoTwo) <= max_bp (maxLength ideo'))%Z
    ∧ (numChromosomes ideoTwo <= numChromosomes ideo')%Z
    ∧ bandData ideo' = bandData ideoTwo
    ∧ coordinateSystem ideo' = "bp".
Proof.
  eexists _, _. split; [vm_compute; reflexivity|].
  edestruct (processBandData_only_raises sampleParser naturalOrder ideoTwo)
    as (Hb & _ & _ & Hn & Hd & _ & _ & _ & Hcs & _).
  - vm_compute. reflexivity.
  - split; [exact Hb|]. split; [exact Hn|]. split; [exact Hd|exact Hcs].
Defined.

Lemma unknown_coordinate_system_is_ignored_witness :
  ∃ r ideo',
    processBandData sampleParser naturalOrder
      (setCoordinateSystem "cM" ideoUnbanded) = Some (r, ideo')
    ∧ r = []
    ∧ maxLength ideo' = freshMaxLength
    ∧ numChromosomes ideo' = 0%Z.
Proof.
  eexists _, _. split; [vm_compute; reflexivity|].
  edestruct (unknown_coordinate_system_is_ignored sampleParser naturalOrder
               (setCoordinateSystem "cM" ideoUnbanded))
    as (Hr & Hm & Hn & _).
  - reflexivity.
  - discriminate.
  - discriminate.
  - vm_compute. reflexivity.
  - split; [exact Hr|]. split; [exact Hm|exact Hn].
Defined.

Lemma unbanded_returns_iff_witness :
  Unbanded ideoUnbanded
  ∧ ∃ l o,
      Config.chromosomes (config ideoUnbanded) = Some (VRef l)
      ∧ store ideoUnbanded !! l = Some o
      ∧ isArray o = true
      ∧ Forall (fun e => is_Some (lengthOf e)) (elements o).
Proof.
  assert (Unbanded ideoUnbanded) as Hu by (split; reflexivity).
  split; [exact Hu|].
  apply (unbanded_returns_iff sampleParser naturalOrder ideoUnbanded Hu).
  eexists _, _. vm_compute. reflexivity.
Defined.

Lemma unbanded_run_extends_configured_array_witness :
  ∃ r ideo',
    processBandData sampleParser naturalOrder ideoUnbanded = Some (r, ideo')
    ∧ (setTaxids ideoUnbanded).1.1 = Taxon 9606
    ∧ ∃ o',
        store ideo' !! 0%nat = Some o'
        ∧ elements o'
          = [EChr "1" 1000; EChr "2" 900; EChr "X" 600]
              ++ replicate
                   (N.to_nat 9606
                    - length [EChr "1" 1000; EChr "2" 900; EChr "X" 600])
                   EUndefined
              ++ [EList [EChr "1" 1000; EChr "2" 900; EChr "X" 600]].
Proof.
  eexists _, _. split; [vm_compute; reflexivity|]. split; [reflexivity|].
  edestruct (unbanded_run_extends_configured_array sampleParser naturalOrder
               ideoUnbanded 0%nat
               [EChr "1" 1000; EChr "2" 900; EChr "X" 600] 9606%N)
    as (_ & (o' & Ho' & _ & He) & _).
  - split; reflexivity.
  - reflexivity.
  - reflexivity.
  - reflexivity.
  - simpl. lia.
  - vm_compute. reflexivity.
  - exists o'. split; [exact Ho'|exact He].
Defined.

Lemma unbanded_second_run_throws_witness :
  ∃ r ideo',
    processBandData sampleParser naturalOrder ideoUnbanded = Some (r, ideo')
    ∧ processBandData sampleParser naturalOrder ideo' = None.
Proof.
  eexists _, _. split; [vm_compute; reflexivity|].
  apply (unbanded_second_run_throws sampleParser naturalOrder ideoUnbanded
           0%nat [EChr "1" 1000; EChr "2" 900; EChr "X" 600] 9606%N []).
  - split; reflexivity.
  - reflexivity.
  - reflexivity.
  - reflexivity.
  - simpl. lia.
  - vm_compute. reflexivity.
Defined.

Lemma banded_run_creates_chromosomes_object_witness :
  ∃ r ideo',
    processBandData sampleParser naturalOrder ideoHuman = Some (r, ideo')
    ∧ Config.chromosomes (config ideoHuman) = None
    ∧ Config.chromosomes (config ideo') = Some (VRef 0)
    ∧ ∃ o',
        store ideo' !! 0%nat = Some o'
        ∧ isArray o' = false
        ∧ getProp o' (Taxon 10090) = EUndefined.
Proof.
  eexists _, _. split; [vm_compute; reflexivity|]. split; [reflexivity|].
  edestruct (banded_run_creates_chromosomes_object sampleParser naturalOrder
               ideoHuman) as (Hc & (o' & Ho' & Ha' & Hp') & _).
  - left. reflexivity.
  - left. reflexivity.
  - discriminate.
  - vm_compute. reflexivity.
  - split; [exact Hc|]. exists o'. split; [exact Ho'|]. split; [exact Ha'|].
    apply Hp'. intros Hin. apply list_elem_of_singleton in Hin. discriminate.
Defined.

Lemma iscn_second_run_throws_witness :
  ∃ r ideo',
    processBandData sampleParser naturalOrder ideoHuman = Some (r, ideo')
    ∧ processBandData sampleParser naturalOrder ideo' = None.
Proof.
  eexists _, _. split; [vm_compute; reflexivity|].
  apply (iscn_second_run_throws sampleParser naturalOrder ideoHuman
           [[band 60 1200; band 100 2500]; [band 50 2400];
            [band 20 500; band 40 1300]]).
  - reflexivity.
  - reflexivity.
  - reflexivity.
  - vm_compute. reflexivity.
Defined.

Lemma comparison_function_only_orders_witness :
  ∃ r1 ideo1 r2 ideo2,
    setChrsByTaxidsWithBands sampleParser naturalOrder (Taxon 9606) VUndefined
      [] ideoHuman = Some (r1, ideo1)
    ∧ setChrsByTaxidsWithBands sampleParser (fun a b => naturalOrder b a)
        (Taxon 9606) VUndefined [] ideoHuman = Some (r2, ideo2)
    ∧ maxLength ideo2 = maxLength ideo1
    ∧ numChromosomes ideo2 = numChromosomes ideo1
    ∧ Permutation r1 r2.
Proof.
  eexists _, _.
  edestruct (comparison_function_only_orders sampleParser naturalOrder
               (fun a b => naturalOrder b a) (Taxon 9606) VUndefined []
               ideoHuman)
    as (r2 & ideo2 & H2 & Hm & Hn & _ & Hp & _).
  - vm_compute. reflexivity.
  - exists r2, ideo2. split; [vm_compute; reflexivity|]. split; [exact H2|].
    split; [exact Hm|]. split; [exact Hn|exact Hp].
Defined.
